(** * dnsproxy: the request pipeline and the upstream selector of proxy/proxy.go

    A shallow embedding of the parts of [proxy/proxy.go] that decide how a
    DNS request is answered: [handleDNSRequest], [Resolve], [respond],
    [chooseUpstream], [calculateUpstreamWeights], [genServerFailure],
    [genNotImpl] and [remoteAddr]; of the life cycle of the proxy ([Start],
    [validateConfig], [startListeners], [Stop], [Addr]); and of its
    listeners ([udpPacketLoop], [handleUDPPacket], [tcpPacketLoop],
    [handleTCPConnection], [ServeHTTP]) and writers ([respondUDP],
    [respondTCP], [respondHTTPS]).

    The Go code mutates the proxy ([p.upstreamsRtt], [p.upstreamsWeighted])
    and talks to the outside (upstreams, cache, sockets).  Both are threaded
    through a small monad [M]: a state monad over [Proxy] that also collects
    the calls crossing the I/O boundary in a trace and can stop with a Go
    panic. *)

From Stdlib Require Import ZArith String Bool Lia.
From stdpp Require Import base list pretty.

Open Scope string_scope.
Open Scope Z_scope.
Open Scope list_scope.

(** ** Go machine integers and durations *)

Module GoInt.

(** Two's-complement wrap-around of a [w]-bit signed integer. *)
Definition wrap (w : Z) (z : Z) : Z := (z + 2 ^ (w - 1)) mod 2 ^ w - 2 ^ (w - 1).

(** Go's [int] on the 64-bit targets; [int32] is what a 32-bit target has. *)
Definition int (z : Z) : Z := wrap 64 z.
Definition int32 (z : Z) : Z := wrap 32 z.

Definition min_int : Z := - 2 ^ 63.
Definition max_int : Z := 2 ^ 63 - 1.

Definition add (a b : Z) : Z := int (a + b).
Definition sub (a b : Z) : Z := int (a - b).
(** Go's [/] truncates toward zero. *)
Definition div (a b : Z) : Z := int (Z.quot a b).

Definition in_range (z : Z) : Prop := min_int <= z <= max_int.

End GoInt.

(** [time.Duration] is an [int64] count of nanoseconds. *)
Definition Duration : Type := Z.
Definition Millisecond : Duration := 1000000.
Definition Second : Duration := 1000 * Millisecond.

(** proxy.go, lines 23-26. *)
Definition defaultTimeout : Duration := 10 * Second.
Definition minDNSPacketSize : Z := 12 + 5.

(** proxy.go, lines 28-37. *)
Definition ProtoUDP : string := "udp".
Definition ProtoTCP : string := "tcp".
Definition ProtoTLS : string := "tls".
Definition ProtoHTTPS : string := "https".

(** ** DNS messages

    The message type of the dns library, cut down to the fields the proxy
    reads or writes in the functions embedded here. *)

Module dns.

Record Question : Type := mkQuestion {
  Name : string;
  Qtype : Z;
  Qclass : Z
}.

Record RR : Type := mkRR {
  Hdr_Name : string;
  Hdr_Rrtype : Z;
  Hdr_Class : Z;
  Hdr_Ttl : Z;
  Rdata : string
}.

Record Msg : Type := mkMsg {
  Id : Z;
  Response : bool;
  RecursionAvailable : bool;
  Rcode : Z;
  Question_ : list Question;
  Answer : list RR;
  Extra : list RR
}.

Definition TypeANY : Z := 255.
Definition TypeOPT : Z := 41.
Definition RcodeSuccess : Z := 0.
Definition RcodeServerFailure : Z := 2.
Definition RcodeNotImplemented : Z := 4.

(** [dns.Msg{}], the zero value. *)
Definition zeroMsg : Msg :=
  {| Id := 0; Response := false; RecursionAvailable := false; Rcode := 0;
     Question_ := []; Answer := []; Extra := [] |}.

(** Modelled from the spec: [dns.Msg.SetReply] and [dns.Msg.SetRcode] belong
    to the dns library the proxy imports; their bodies are not part of
    proxy.go.  The spec says of the helpers built on them that they "set the
    response code ... and copy the question/ID from the request".  As in the
    library, the reply takes the request's Id, is marked as a response, and
    carries the first question of the request when there is one. *)
Definition SetReply (m request : Msg) : Msg :=
  {| Id := Id request;
     Response := true;
     RecursionAvailable := RecursionAvailable m;
     Rcode := RcodeSuccess;
     Question_ := match Question_ request with
                  | q :: _ => [q]
                  | [] => Question_ m
                  end;
     Answer := Answer m;
     Extra := Extra m |}.

Definition SetRcode (m request : Msg) (rcode : Z) : Msg :=
  let m := SetReply m request in
  {| Id := Id m; Response := Response m;
     RecursionAvailable := RecursionAvailable m;
     Rcode := rcode;
     Question_ := Question_ m; Answer := Answer m; Extra := Extra m |}.

(** Modelled from the spec: [dns.Msg.SetEdns0] is library code as well.  The
    spec calls its result an "EDNS0 marker attached (payload size 1452,
    DO=false)": an OPT pseudo-record appended to the additional section,
    whose class field holds the UDP payload size and whose TTL field holds
    the DO flag in bit 15. *)
Definition optRR (udpsize : Z) (do : bool) : RR :=
  {| Hdr_Name := "."; Hdr_Rrtype := TypeOPT; Hdr_Class := udpsize;
     Hdr_Ttl := if do then Z.shiftl 1 15 else 0; Rdata := "" |}.

Definition SetEdns0 (m : Msg) (udpsize : Z) (do : bool) : Msg :=
  {| Id := Id m; Response := Response m;
     RecursionAvailable := RecursionAvailable m;
     Rcode := Rcode m;
     Question_ := Question_ m; Answer := Answer m;
     Extra := Extra m ++ [optRR udpsize do] |}.

Definition UDPSize (rr : RR) : Z := Hdr_Class rr.
Definition Do (rr : RR) : bool := Z.testbit (Hdr_Ttl rr) 15.

(** [dns.Msg.IsEdns0]: the last OPT record of the additional section. *)
Definition IsEdns0 (m : Msg) : option RR :=
  List.find (fun rr => Hdr_Rrtype rr =? TypeOPT) (rev (Extra m)).

Definition set_RecursionAvailable (m : Msg) (b : bool) : Msg :=
  {| Id := Id m; Response := Response m; RecursionAvailable := b;
     Rcode := Rcode m; Question_ := Question_ m; Answer := Answer m;
     Extra := Extra m |}.

End dns.

(** proxy.go, lines 769-774. *)
Definition genServerFailure (request : dns.Msg) : dns.Msg :=
  let resp := dns.zeroMsg in
  let resp := dns.SetRcode resp request dns.RcodeServerFailure in
  let resp := dns.set_RecursionAvailable resp true in
  resp.

(** proxy.go, lines 776-782. *)
Definition genNotImpl (request : dns.Msg) : dns.Msg :=
  let resp := dns.zeroMsg in
  let resp := dns.SetRcode resp request dns.RcodeNotImplemented in
  let resp := dns.set_RecursionAvailable resp true in
  (* NOTIMPL without EDNS is treated as 'we don't support EDNS' *)
  let resp := dns.SetEdns0 resp 1452 false in
  resp.

(** ** Errors, addresses, upstreams *)

(** A Go [error]: [None] is [nil]. *)
Inductive error_value : Type :=
| errors_New (msg : string)
| errorx_Decorate (cause : error_value) (msg : string).

Definition error : Type := option error_value.

Module net.

(** [net.IP] is a byte slice; [None] is the nil slice. *)
Definition IP : Type := option (list Z).

(** The two implementations of [net.Addr] the listeners hand out. *)
Inductive AddrValue : Type :=
| UDPAddr (ip : IP) (port : Z)
| TCPAddr (ip : IP) (port : Z).

(** [net.Addr], an interface value: [None] is [nil]. *)
Definition Addr : Type := option AddrValue.

End net.

Module upstream.

(** The [upstream.Upstream] interface: an object with its two methods. *)
Record Upstream : Type := mkUpstream {
  Address : string;
  Exchange : dns.Msg -> option dns.Msg * error
}.

End upstream.

Module randutil.

(** The [Item interface{}] of a choice: the proxy stores an [int] in it. *)
Inductive Item_value : Type :=
| ItemInt (n : Z)
| ItemOther.

Record Choice : Type := mkChoice {
  Weight : Z;
  Item : Item_value
}.

End randutil.

(** ** The proxy and the request context *)

(** The cache object of cache.go, seen through its lookup method: [Get]
    returns [(val, ok)]. *)
Record cache : Type := mkCache {
  Get : dns.Msg -> option dns.Msg * bool
}.

(** The fields of [Proxy] (proxy.go, lines 45-64) that the request pipeline
    reads and writes.  The embedded [Config] is passed separately. *)
Record Proxy : Type := mkProxy {
  upstreamsRtt : list Z;
  upstreamsWeighted : list randutil.Choice;
  cache_ : option cache
}.

(** proxy.go, lines 88-99.  The connection and the HTTP handles are the I/O
    boundary: writing through them shows up in the trace. *)
Record DNSContext : Type := mkDNSContext {
  Proto : string;
  Req : dns.Msg;
  Res : option dns.Msg;
  Addr : net.Addr;
  StartTime : Z;
  Upstream : option upstream.Upstream;
  UpstreamIdx : Z
}.

Definition set_Res (d : DNSContext) (res : option dns.Msg) : DNSContext :=
  {| Proto := Proto d; Req := Req d; Res := res; Addr := Addr d;
     StartTime := StartTime d; Upstream := Upstream d;
     UpstreamIdx := UpstreamIdx d |}.

Definition set_StartTime (d : DNSContext) (t : Z) : DNSContext :=
  {| Proto := Proto d; Req := Req d; Res := Res d; Addr := Addr d;
     StartTime := t; Upstream := Upstream d;
     UpstreamIdx := UpstreamIdx d |}.

Definition set_Upstream (d : DNSContext) (u : upstream.Upstream) (idx : Z)
  : DNSContext :=
  {| Proto := Proto d; Req := Req d; Res := Res d; Addr := Addr d;
     StartTime := StartTime d; Upstream := Some u;
     UpstreamIdx := idx |}.

(** ** Effects *)

(** Which call site of [Resolve] talks to an upstream. *)
Inductive ExchangeSite : Type :=
| PrimaryExchange
| FallbackExchange.

(** The three response writers of proxy.go. *)
Inductive Writer : Type :=
| respondUDP
| respondTCP
| respondHTTPS.

(** What a request does to the world, in program order. *)
Inductive Event : Type :=
| EvIsRatelimited (addr : net.Addr)
| EvCacheGet (req : dns.Msg)
| EvCacheSet (m : dns.Msg)
| EvWeightedChoice (choices : list randutil.Choice)
| EvExchange (site : ExchangeSite) (address : string) (req : dns.Msg)
| EvCalculateUpstreamWeights (upstreamIdx rtt : Z)
| EvRespond (w : Writer) (res : dns.Msg).

Inductive Result (A : Type) : Type :=
| Ok (a : A)
| Panic (why : string).
Arguments Ok {A} a.
Arguments Panic {A} why.

(** State over [Proxy], a trace of [Event]s, and Go panics.  A panic keeps
    the state and the trace reached so far. *)
Definition M (A : Type) : Type := Proxy -> Result A * Proxy * list Event.

Definition ret {A : Type} (a : A) : M A := fun p => (Ok a, p, []).

Definition bind {A B : Type} (m : M A) (k : A -> M B) : M B :=
  fun p =>
    match m p with
    | (Ok a, p', t) => let '(r, p'', t') := k a p' in (r, p'', t ++ t')
    | (Panic why, p', t) => (Panic why, p', t)
    end.

Definition panic {A : Type} (why : string) : M A := fun p => (Panic why, p, []).
Definition emit (e : Event) : M unit := fun p => (Ok tt, p, [e]).
Definition get : M Proxy := fun p => (Ok p, p, []).
Definition put (p' : Proxy) : M unit := fun _ => (Ok tt, p', []).

Notation "'let*' x := m 'in' k" := (bind m (fun x => k))
  (at level 10, x pattern, m at level 100, k at level 200).
Notation "m ;;; k" := (bind m (fun _ => k))
  (at level 100, k at level 200, right associativity).

(** ** The upstream selector *)

(** Slice indexing [l[i]] with a Go [int]: out of range is [None], which the
    callers turn into the run-time panic. *)
Definition index {A : Type} (l : list A) (i : Z) : option A :=
  if i <? 0 then None else l !! Z.to_nat i.

Definition set_Weight (c : randutil.Choice) (weight : Z) : randutil.Choice :=
  {| randutil.Weight := weight; randutil.Item := randutil.Item c |}.

(** The second loop of [calculateUpstreamWeights] (lines 733-740):
    [upstreamsWeighted[i].Weight] is assigned for every [i] of
    [upstreamsRtt].  The flag is [false] when [upstreamsWeighted] is too
    short and the assignment panics; the entries before stay assigned. *)
Fixpoint assignWeights (sum : Z) (rtts : list Z) (weighted : list randutil.Choice)
  : list randutil.Choice * bool :=
  match rtts with
  | [] => (weighted, true)
  | rtt :: rtts' =>
      match weighted with
      | [] => ([], false)
      | c :: weighted' =>
          (* Weight must be greater than 0 *)
          let weight := GoInt.sub sum rtt in
          let weight := if weight <=? 0 then 1 else weight in
          let '(rest, ok) := assignWeights sum rtts' weighted' in
          (set_Weight c weight :: rest, ok)
      end
  end.

(** proxy.go, lines 716-741 (the mutex is not modelled: one request at a
    time). *)
Definition calculateUpstreamWeights (upstreamIdx rtt : Z) : M unit :=
  emit (EvCalculateUpstreamWeights upstreamIdx rtt) ;;;
  let* p := get in
  match index (upstreamsRtt p) upstreamIdx with
  | None => panic "index out of range"
  | Some currentRtt =>
      let currentRtt :=
        if currentRtt =? 0 then rtt
        else GoInt.div (GoInt.add currentRtt rtt) 2 in
      let rtts := <[Z.to_nat upstreamIdx := currentRtt]> (upstreamsRtt p) in
      let sum := foldl GoInt.add 0 rtts in
      let '(weighted, ok) := assignWeights sum rtts (upstreamsWeighted p) in
      put {| upstreamsRtt := rtts; upstreamsWeighted := weighted;
             cache_ := cache_ p |} ;;;
      if ok then ret tt else panic "index out of range"
  end.

(** ** Configuration and environment *)

(** proxy.go, lines 42 and 66-85: the fields of [Config] the pipeline reads.
    A custom [Handler] runs in the same monad as the default resolver. *)
Record Config : Type := mkConfig {
  RefuseAny : bool;
  CacheEnabled : bool;
  Upstreams : list upstream.Upstream;
  Fallback : option upstream.Upstream;
  Handler : option (DNSContext -> M (DNSContext * error))
}.

(** What the surroundings answer during one request: the rate limiter
    ([isRatelimited], ratelimit.go), the random draw of
    [randutil.WeightedChoice], and the clock. *)
Record Env : Type := mkEnv {
  isRatelimited : net.Addr -> bool;
  WeightedChoice : list randutil.Choice -> randutil.Choice * error;
  Now : Z;
  Since : Duration
}.

(** The part of [Start] (lines 112-121) that sets up the cache and the
    selector's vectors.  [fresh] is the empty cache [&cache{}]. *)
Definition Start (cfg : Config) (fresh : cache) (p : Proxy) : Proxy :=
  {| upstreamsRtt := replicate (length (Upstreams cfg)) 0;
     upstreamsWeighted :=
       imap (fun idx _ => {| randutil.Weight := 1;
                             randutil.Item := randutil.ItemInt (Z.of_nat idx) |})
            (Upstreams cfg);
     cache_ := if CacheEnabled cfg then Some fresh else cache_ p |}.

(** proxy.go, lines 743-767. *)
Definition chooseUpstream (cfg : Config) (env : Env) : M (upstream.Upstream * Z) :=
  let upstreams := Upstreams cfg in
  match upstreams with
  | [] => panic "SHOULD NOT HAPPEN: no default upstreams specified"
  | [u] => ret (u, 0)
  | _ =>
      (* Use weighted random *)
      let* p := get in
      emit (EvWeightedChoice (upstreamsWeighted p)) ;;;
      let '(c, err) := WeightedChoice env (upstreamsWeighted p) in
      match err with
      | Some _ => panic "SHOULD NOT HAPPEN: Weighted random returned an error"
      | None =>
          match randutil.Item c with
          | randutil.ItemInt idx =>
              match index upstreams idx with
              | Some u => ret (u, idx)
              | None => panic "index out of range"
              end
          | randutil.ItemOther =>
              panic "SHOULD NOT HAPPEN: non-integer in the randutil.Choice item"
          end
      end
  end.

(** ** The request pipeline *)

(** proxy.go, lines 214-257. *)
Definition Resolve (cfg : Config) (env : Env) (d : DNSContext)
  : M (DNSContext * error) :=
  let* p := get in
  let* cached :=
    match cache_ p with
    | Some c =>
        emit (EvCacheGet (Req d)) ;;;
        match Get c (Req d) with
        | (Some val, true) => ret (Some val)
        | _ => ret None
        end
    | None => ret None
    end in
  match cached with
  | Some val => ret (set_Res d (Some val), None)
  | None =>
      match Upstream d with
      | None => panic "invalid memory address or nil pointer dereference"
      | Some dnsUpstream =>
          (* execute the DNS request *)
          emit (EvExchange PrimaryExchange (upstream.Address dnsUpstream) (Req d)) ;;;
          let '(reply, err) := upstream.Exchange dnsUpstream (Req d) in
          let rtt := GoInt.int (Z.quot (Since env) Millisecond) in
          (* Update the upstreams weight *)
          let rtt := match err with
                     | Some _ => GoInt.int defaultTimeout
                     | None => rtt
                     end in
          calculateUpstreamWeights (UpstreamIdx d) rtt ;;;
          let* (reply, err) :=
            match err, Fallback cfg with
            | Some _, Some fallback =>
                emit (EvExchange FallbackExchange (upstream.Address fallback) (Req d)) ;;;
                ret (upstream.Exchange fallback (Req d))
            | _, _ => ret (reply, err)
            end in
          (* Saving cached response *)
          let* p := get in
          match cache_ p, reply with
          | Some _, Some r => emit (EvCacheSet r)
          | _, _ => ret tt
          end ;;;
          match reply with
          | None => ret (set_Res d (Some (genServerFailure (Req d))), err)
          | Some r => ret (set_Res d (Some r), err)
          end
      end
  end.

(** proxy.go, lines 784-790: [m.Response] dereferences [m]. *)
Definition logDNSMessage (m : option dns.Msg) : M unit :=
  match m with
  | None => panic "invalid memory address or nil pointer dereference"
  | Some _ => ret tt
  end.

(** proxy.go, lines 684-713.  An unknown protocol is only logged. *)
Definition respond (d : DNSContext) : M unit :=
  match Res d with
  | None => ret tt
  | Some res =>
      if String.eqb (Proto d) ProtoUDP then emit (EvRespond respondUDP res)
      else if String.eqb (Proto d) ProtoTCP then emit (EvRespond respondTCP res)
      else if String.eqb (Proto d) ProtoTLS then emit (EvRespond respondTCP res)
      else if String.eqb (Proto d) ProtoHTTPS then emit (EvRespond respondHTTPS res)
      else ret tt
  end.

(** The rate-limit test of line 641: [&&] calls [isRatelimited] only when
    the protocol is UDP. *)
Definition ratelimitCheck (env : Env) (d : DNSContext) : M bool :=
  if String.eqb (Proto d) ProtoUDP
  then emit (EvIsRatelimited (Addr d)) ;;; ret (isRatelimited env (Addr d))
  else ret false.

(** The test of line 652. *)
Definition refusesAny (cfg : Config) (req : dns.Msg) : bool :=
  RefuseAny cfg &&
  match dns.Question_ req with
  | q :: _ => dns.Qtype q =? dns.TypeANY
  | [] => false
  end.

(** proxy.go, lines 635-682. *)
Definition handleDNSRequest (cfg : Config) (env : Env) (d : DNSContext)
  : M (DNSContext * error) :=
  let d := set_StartTime d (Now env) in
  logDNSMessage (Some (Req d)) ;;;
  (* ratelimit based on IP only, protects CPU cycles and outbound connections *)
  let* limited := ratelimitCheck env d in
  if limited then ret (d, None) (* do nothing, don't reply, we got ratelimited *)
  else
    let d := if negb (Z.of_nat (length (dns.Question_ (Req d))) =? 1)
             then set_Res d (Some (genServerFailure (Req d)))
             else d in
    (* refuse ANY requests (anti-DDOS measure) *)
    let d := if refusesAny cfg (Req d)
             then set_Res d (Some (genNotImpl (Req d)))
             else d in
    let* (d, err) :=
      match Res d with
      | None =>
          (* choose the DNS upstream *)
          let* (dnsUpstream, upstreamIdx) := chooseUpstream cfg env in
          let d := set_Upstream d dnsUpstream upstreamIdx in
          (* execute the DNS request *)
          let* (d, err) :=
            match Handler cfg with
            | Some handler => handler d
            | None => Resolve cfg env d
            end in
          match err with
          | Some e => ret (d, Some (errorx_Decorate e "talking to dnsUpstream failed"))
          | None => ret (d, None)
          end
      | Some _ => ret (d, None)
      end in
    logDNSMessage (Res d) ;;;
    respond d ;;;
    ret (d, err).

(** ** The remote address of a DoH request *)

Module http.

(** [http.Request], as far as [remoteAddr] reads it. *)
Record Request : Type := mkRequest {
  RemoteAddr : string
}.

End http.

(** The Go standard library functions [remoteAddr] calls. *)
Class NetLib : Type := mkNetLib {
  (** [net.SplitHostPort]: host, port, err *)
  SplitHostPort : string -> string * string * error;
  (** [strconv.Atoi] *)
  Atoi : string -> Z * error;
  (** [net.ParseIP]: nil when the text is not an IP address *)
  ParseIP : string -> net.IP
}.

(** proxy.go, lines 616-633. *)
Definition remoteAddr `{NetLib} (r : http.Request) : net.Addr * error :=
  let '(host, port, err) := SplitHostPort (http.RemoteAddr r) in
  match err with
  | Some e => (None, Some e)
  | None =>
      let '(portValue, err) := Atoi port in
      match err with
      | Some e => (None, Some e)
      | None =>
          let ip := ParseIP host in
          match ip with
          | Some _ => (None, Some (errors_New (String.append "invalid IP: " host)))
          | None => (Some (net.TCPAddr ip portValue), None)
          end
      end
  end.

(** ** Running a computation *)

Definition result_of {A : Type} (r : Result A * Proxy * list Event) : Result A := r.1.1.
Definition proxy_of {A : Type} (r : Result A * Proxy * list Event) : Proxy := r.1.2.
Definition trace_of {A : Type} (r : Result A * Proxy * list Event) : list Event := r.2.

(** The mathematical sum of a vector of RTTs. *)
Definition sumZ (l : list Z) : Z := foldr Z.add 0 l.

(** The invariant [Start] sets up for the selector: both vectors have one
    entry per upstream, and no RTT is negative. *)
Record stats_ok (n : nat) (p : Proxy) : Prop := mkStatsOk {
  rtt_length : length (upstreamsRtt p) = n;
  weighted_length : length (upstreamsWeighted p) = n;
  rtt_nonneg : Forall (fun rtt => 0 <= rtt) (upstreamsRtt p)
}.

(** The weight line 735-738 gives an upstream of round-trip time [rtt]. *)
Definition clampWeight (sum rtt : Z) : Z :=
  if GoInt.sub sum rtt <=? 0 then 1 else GoInt.sub sum rtt.

(** The moving average of lines 720-726. *)
Definition updatedRtt (currentRtt rtt : Z) : Z :=
  if currentRtt =? 0 then rtt else GoInt.div (GoInt.add currentRtt rtt) 2.

(** ** Reading the selector *)

Definition weight_at (p : Proxy) (i : Z) : option Z :=
  randutil.Weight <$> index (upstreamsWeighted p) i.

Definition rtt_at (p : Proxy) (i : Z) : option Z := index (upstreamsRtt p) i.

(** The proxy after [record(i, r)]. *)
Definition record (i r : Z) (p : Proxy) : Proxy :=
  proxy_of (calculateUpstreamWeights i r p).

(** The bound on the weight of upstream [i] in the wording
    "weight[i] in [1, sum rtt - rtt[i]], the lower bound attained iff
    rtt[i] >= sum rtt". *)
Definition weight_in_interval (p : Proxy) (i : Z) : Prop :=
  exists w rtt : Z,
    weight_at p i = Some w /\ rtt_at p i = Some rtt /\
    1 <= w <= sumZ (upstreamsRtt p) - rtt /\
    (w = 1 <-> rtt >= sumZ (upstreamsRtt p)).

(** ** Sample data *)

Definition exampleQuestion (qtype : Z) : dns.Question :=
  {| dns.Name := "example.com."; dns.Qtype := qtype; dns.Qclass := 1 |}.

Definition exampleRequest (questions : list dns.Question) : dns.Msg :=
  {| dns.Id := 4242; dns.Response := false; dns.RecursionAvailable := false;
     dns.Rcode := 0; dns.Question_ := questions; dns.Answer := [];
     dns.Extra := [] |}.

Definition exampleReply (req : dns.Msg) : dns.Msg :=
  {| dns.Id := dns.Id req; dns.Response := true; dns.RecursionAvailable := true;
     dns.Rcode := 0; dns.Question_ := dns.Question_ req;
     dns.Answer := [ {| dns.Hdr_Name := "example.com."; dns.Hdr_Rrtype := 1;
                        dns.Hdr_Class := 1; dns.Hdr_Ttl := 300;
                        dns.Rdata := "93.184.216.34" |} ];
     dns.Extra := [] |}.

(** An upstream that answers, and one that times out. *)
Definition goodUpstream (address : string) : upstream.Upstream :=
  {| upstream.Address := address;
     upstream.Exchange := fun req => (Some (exampleReply req), None) |}.

Definition deadUpstream (address : string) : upstream.Upstream :=
  {| upstream.Address := address;
     upstream.Exchange := fun _ => (None, Some (errors_New "i/o timeout")) |}.

Definition emptyCache : cache := {| Get := fun _ => (None, false) |}.

Definition zeroProxy : Proxy :=
  {| upstreamsRtt := []; upstreamsWeighted := []; cache_ := None |}.

Definition exampleConfig (refuseAny cacheEnabled : bool)
    (upstreams : list upstream.Upstream) (fallback : option upstream.Upstream)
  : Config :=
  {| RefuseAny := refuseAny; CacheEnabled := cacheEnabled;
     Upstreams := upstreams; Fallback := fallback; Handler := None |}.

(** A started proxy with the given upstreams. *)
Definition startedProxy (cfg : Config) : Proxy := Start cfg emptyCache zeroProxy.

(** An environment whose rate limiter answers [limited], whose random draw
    takes the first choice, and whose clock measured 25 ms. *)
Definition exampleEnv (limited : bool) : Env :=
  {| isRatelimited := fun _ => limited;
     WeightedChoice := fun choices =>
       match choices with
       | c :: _ => (c, None)
       | [] => ({| randutil.Weight := 0; randutil.Item := randutil.ItemOther |},
                Some (errors_New "Internal error - code should not reach this point"))
       end;
     Now := 1000;
     Since := 25 * Millisecond |}.

Definition exampleContext (proto : string) (req : dns.Msg) : DNSContext :=
  {| Proto := proto; Req := req; Res := None;
     Addr := Some (net.UDPAddr (Some [192; 0; 2; 7]) 5353);
     StartTime := 0; Upstream := None; UpstreamIdx := 0 |}.


(** ** Reading a run *)

Definition value_of {A : Type} (r : Result A * Proxy * list Event) : option A :=
  match result_of r with
  | Ok a => Some a
  | Panic _ => None
  end.

(** What the cache lookup of [Resolve] (lines 216-223) finds. *)
Definition cached (p : Proxy) (req : dns.Msg) : option dns.Msg :=
  match cache_ p with
  | Some c =>
      match Get c req with
      | (Some val, true) => Some val
      | _ => None
      end
  | None => None
  end.

Definition cacheGetTrace (p : Proxy) (req : dns.Msg) : list Event :=
  match cache_ p with
  | Some _ => [EvCacheGet req]
  | None => []
  end.

(** The request is dropped at line 641. *)
Definition dropped (env : Env) (d : DNSContext) : bool :=
  String.eqb (Proto d) ProtoUDP && isRatelimited env (Addr d).

Definition ratelimitTrace (d : DNSContext) : list Event :=
  if String.eqb (Proto d) ProtoUDP then [EvIsRatelimited (Addr d)] else [].

(** The writer the switch of [respond] picks. *)
Definition writerOf (proto : string) : option Writer :=
  if String.eqb proto ProtoUDP then Some respondUDP
  else if String.eqb proto ProtoTCP then Some respondTCP
  else if String.eqb proto ProtoTLS then Some respondTCP
  else if String.eqb proto ProtoHTTPS then Some respondHTTPS
  else None.

Definition respondTrace (proto : string) (res : dns.Msg) : list Event :=
  match writerOf proto with
  | Some w => [EvRespond w res]
  | None => []
  end.

(** Events in which an upstream is selected, contacted or scored. *)
Definition contactsUpstream (e : Event) : bool :=
  match e with
  | EvWeightedChoice _ | EvExchange _ _ _ | EvCalculateUpstreamWeights _ _ => true
  | _ => false
  end.

Definition consultsRatelimiter (e : Event) : bool :=
  match e with
  | EvIsRatelimited _ => true
  | _ => false
  end.

Definition isRespond (e : Event) : bool :=
  match e with
  | EvRespond _ _ => true
  | _ => false
  end.

Definition isCacheSet (e : Event) : bool :=
  match e with
  | EvCacheSet _ => true
  | _ => false
  end.

Definition isFallbackExchange (e : Event) : bool :=
  match e with
  | EvExchange FallbackExchange _ _ => true
  | _ => false
  end.

(** The [(index, rtt)] pairs handed to [calculateUpstreamWeights]. *)
Definition recorded (t : list Event) : list (Z * Z) :=
  omap (fun e => match e with
                 | EvCalculateUpstreamWeights idx rtt => Some (idx, rtt)
                 | _ => None
                 end) t.

(** A cache store occurs somewhere after a response write. *)
Fixpoint storeAfterRespond (t : list Event) : bool :=
  match t with
  | [] => false
  | e :: t' => (isRespond e && existsb isCacheSet t') || storeAfterRespond t'
  end.

(** The RTT [Resolve] hands to the selector (lines 230-237). *)
Definition resolveRtt (env : Env) (err : error) : Z :=
  match err with
  | Some _ => GoInt.int defaultTimeout
  | None => GoInt.int (Z.quot (Since env) Millisecond)
  end.

(** ** The shape of the generated responses *)

Definition isServerFailure (req res : dns.Msg) : Prop :=
  dns.Rcode res = 2 /\ dns.RecursionAvailable res = true /\
  dns.Id res = dns.Id req /\ dns.Question_ res = take 1 (dns.Question_ req).

Definition isNotImpl (req res : dns.Msg) : Prop :=
  dns.Rcode res = 4 /\ dns.RecursionAvailable res = true /\
  dns.Id res = dns.Id req /\ dns.Question_ res = take 1 (dns.Question_ req) /\
  exists opt, dns.IsEdns0 res = Some opt /\
              dns.UDPSize opt = 1452 /\ dns.Do opt = false.

(** The outcome "the response is [want], and no upstream is selected or
    contacted" of a run of the pipeline. *)
Definition answersWithoutUpstream (want : dns.Msg -> dns.Msg -> Prop)
    (cfg : Config) (env : Env) (d : DNSContext) (p : Proxy) : Prop :=
  exists d' err,
    result_of (handleDNSRequest cfg env d p) = Ok (d', err) /\
    (exists res, Res d' = Some res /\ want (Req d) res) /\
    Forall (fun e => contactsUpstream e = false)
           (trace_of (handleDNSRequest cfg env d p)).


(** ** What [Resolve] does after a cache miss (lines 240-254) *)

Definition afterFallback (cfg : Config) (req : dns.Msg)
    (reply : option dns.Msg) (err : error) : option dns.Msg * error :=
  match err, Fallback cfg with
  | Some _, Some fallback => upstream.Exchange fallback req
  | _, _ => (reply, err)
  end.

Definition fallbackTrace (cfg : Config) (req : dns.Msg) (err : error) : list Event :=
  match err, Fallback cfg with
  | Some _, Some fallback =>
      [EvExchange FallbackExchange (upstream.Address fallback) req]
  | _, _ => []
  end.

Definition cacheSetTrace (p : Proxy) (reply : option dns.Msg) : list Event :=
  match cache_ p, reply with
  | Some _, Some r => [EvCacheSet r]
  | _, _ => []
  end.

Definition finalResponse (req : dns.Msg) (reply : option dns.Msg) : dns.Msg :=
  match reply with
  | Some r => r
  | None => genServerFailure req
  end.


(** The response the two checks of lines 646-655 leave in the context:
    that of the ANY check when it fires, else that of the question count. *)
Definition refusal (cfg : Config) (req : dns.Msg) : option dns.Msg :=
  if refusesAny cfg req then Some (genNotImpl req)
  else if negb (Z.of_nat (length (dns.Question_ req)) =? 1)
       then Some (genServerFailure req)
       else None.

(** The same environment with another rate limiter. *)
Definition withRatelimiter (env : Env) (limiter : net.Addr -> bool) : Env :=
  {| isRatelimited := limiter; WeightedChoice := WeightedChoice env;
     Now := Now env; Since := Since env |}.


(** The error [handleDNSRequest] returns for the resolver's error
    (lines 674-676). *)
Definition decorate (err : error) : error :=
  match err with
  | Some e => Some (errorx_Decorate e "talking to dnsUpstream failed")
  | None => None
  end.

Definition chooseTrace (cfg : Config) (p : Proxy) : list Event :=
  match Upstreams cfg with
  | [] | [_] => []
  | _ => [EvWeightedChoice (upstreamsWeighted p)]
  end.


(** The answers of the three library functions on the remote addresses
    used in the examples below. *)
Definition exampleNetLib : NetLib :=
  {| SplitHostPort := fun hostport =>
       if String.eqb hostport "192.0.2.7:4433" then ("192.0.2.7", "4433", None)
       else if String.eqb hostport "client.example:4433"
            then ("client.example", "4433", None)
       else ("", "", Some (errors_New "missing port in address"));
     Atoi := fun s =>
       if String.eqb s "4433" then (4433, None)
       else (0, Some (errors_New "invalid syntax"));
     ParseIP := fun host =>
       if String.eqb host "192.0.2.7" then Some [192; 0; 2; 7] else None |}.

(** Every event of every run of [m] satisfies [P]. *)
Definition trace_sat {A : Type} (P : Event -> Prop) (m : M A) : Prop :=
  forall p : Proxy, Forall P (trace_of (m p)).

(** ** Proof automation *)

Ltac int_bounds :=
  unfold GoInt.in_range, GoInt.min_int, GoInt.max_int in *;
  change (2 ^ 63) with 9223372036854775808 in *.

Ltac ctx_simpl :=
  cbn [Req Res Proto Addr Upstream UpstreamIdx StartTime
       set_Res set_StartTime set_Upstream] in *.



(** ** The selector over many requests *)

(** The proxy after a series of [record(i, r)] calls, oldest first. *)
Definition records (ms : list (Z * Z)) (p : Proxy) : Proxy :=
  foldl (fun p m => record m.1 m.2 p) p ms.

(** The choices still carry the indices [Start] put into them. *)
Definition items_ok (p : Proxy) : Prop :=
  forall (j : nat) (c : randutil.Choice),
    upstreamsWeighted p !! j = Some c ->
    randutil.Item c = randutil.ItemInt (Z.of_nat j).

(** A measurement the selector can take for one of [n] upstreams. *)
Definition measurement_ok (n : nat) (m : Z * Z) : Prop :=
  0 <= m.1 < Z.of_nat n /\ 0 <= m.2.


(** Two custom handlers: one answers every request itself with NOTIMPL and
    reports an error, the other does nothing. *)
Definition refusingHandler (d : DNSContext) : M (DNSContext * error) :=
  ret (set_Res d (Some (genNotImpl (Req d))), Some (errors_New "refused")).

Definition idleHandler (d : DNSContext) : M (DNSContext * error) :=
  ret (d, None).

Definition handlerConfig (handler : DNSContext -> M (DNSContext * error)) : Config :=
  {| RefuseAny := false; CacheEnabled := false;
     Upstreams := [goodUpstream "8.8.8.8:53"]; Fallback := None;
     Handler := Some handler |}.


(** Two proxies with selector vectors of the same lengths and the same
    cache. *)
Definition same_shape (p p' : Proxy) : Prop :=
  length (upstreamsRtt p') = length (upstreamsRtt p) /\
  length (upstreamsWeighted p') = length (upstreamsWeighted p) /\
  cache_ p' = cache_ p.

(** Every run of [m] ends in a proxy of the shape it started from. *)
Definition keeps_shape {A : Type} (m : M A) : Prop :=
  forall p : Proxy, same_shape p (proxy_of (m p)).


(** ** Starting and stopping the proxy *)

Module tls.

(** [tls.Config], opaque to the proxy. *)
Inductive Config : Type := mkConfig (serverName : string).

End tls.

Module lifecycle.

(** A listen address, [*net.UDPAddr] or [*net.TCPAddr]. *)
Definition SockAddr : Type := (net.IP * Z)%type.

(** The sockets the proxy holds.  A TLS listener is the TCP listener
    wrapped by [tls.NewListener]; it keeps the address of the socket. *)
Record UDPConn : Type := mkUDPConn {
  LocalAddr : net.AddrValue
}.

Record Listener : Type := mkListener {
  ListenerAddr : net.AddrValue;
  ListenerTLS : option tls.Config
}.

Record HTTPServer : Type := mkHTTPServer {
  ReadHeaderTimeout : Duration;
  WriteTimeout : Duration
}.

Definition tls_NewListener (inner : Listener) (config : option tls.Config) : Listener :=
  {| ListenerAddr := ListenerAddr inner; ListenerTLS := config |}.

(** The fields of [Config] (lines 67-85) that [Start] reads besides those
    of the pipeline. *)
Record ListenConfig : Type := mkListenConfig {
  UDPListenAddr : option SockAddr;
  TCPListenAddr : option SockAddr;
  HTTPSListenAddr : option SockAddr;
  TLSListenAddr : option SockAddr;
  TLSConfig : option tls.Config
}.

(** The three places of [startListeners] that call [net.ListenTCP]. *)
Inductive ListenSite : Type :=
| ForTCP
| ForTLS
| ForHTTPS.

(** What the operating system answers: a socket or an error for each
    listen call, an error or nil for each close. *)
Record Sockets : Type := mkSockets {
  ListenUDP : SockAddr -> UDPConn + error_value;
  ListenTCP : ListenSite -> SockAddr -> Listener + error_value;
  CloseUDP : UDPConn -> error;
  CloseListener : Listener -> error;
  CloseServer : HTTPServer -> error
}.

(** All of [Proxy] (lines 45-64): the started flag and the listeners around
    the fields the pipeline works on. *)
Record Server : Type := mkServer {
  started : bool;
  udpListen : option UDPConn;
  tcpListen : option Listener;
  tlsListen : option Listener;
  httpsListen : option Listener;
  httpsServer : option HTTPServer;
  proxy : Proxy
}.

Definition set_started (s : Server) (b : bool) : Server :=
  {| started := b; udpListen := udpListen s; tcpListen := tcpListen s;
     tlsListen := tlsListen s; httpsListen := httpsListen s;
     httpsServer := httpsServer s; proxy := proxy s |}.

Definition set_udpListen (s : Server) (c : option UDPConn) : Server :=
  {| started := started s; udpListen := c; tcpListen := tcpListen s;
     tlsListen := tlsListen s; httpsListen := httpsListen s;
     httpsServer := httpsServer s; proxy := proxy s |}.

Definition set_tcpListen (s : Server) (l : option Listener) : Server :=
  {| started := started s; udpListen := udpListen s; tcpListen := l;
     tlsListen := tlsListen s; httpsListen := httpsListen s;
     httpsServer := httpsServer s; proxy := proxy s |}.

Definition set_tlsListen (s : Server) (l : option Listener) : Server :=
  {| started := started s; udpListen := udpListen s; tcpListen := tcpListen s;
     tlsListen := l; httpsListen := httpsListen s;
     httpsServer := httpsServer s; proxy := proxy s |}.

Definition set_httpsListen (s : Server) (l : option Listener) : Server :=
  {| started := started s; udpListen := udpListen s; tcpListen := tcpListen s;
     tlsListen := tlsListen s; httpsListen := l;
     httpsServer := httpsServer s; proxy := proxy s |}.

Definition set_httpsServer (s : Server) (h : option HTTPServer) : Server :=
  {| started := started s; udpListen := udpListen s; tcpListen := tcpListen s;
     tlsListen := tlsListen s; httpsListen := httpsListen s;
     httpsServer := h; proxy := proxy s |}.

Definition set_proxy (s : Server) (p : Proxy) : Server :=
  {| started := started s; udpListen := udpListen s; tcpListen := tcpListen s;
     tlsListen := tlsListen s; httpsListen := httpsListen s;
     httpsServer := httpsServer s; proxy := p |}.

(** The goroutines [startListeners] launches. *)
Inductive Loop : Type :=
| GoUDPPacketLoop (conn : UDPConn)
| GoTCPPacketLoop (l : Listener) (proto : string)
| GoListenHTTPS.

Inductive LifeEvent : Type :=
| LvListenUDP (addr : SockAddr)
| LvListenTCP (site : ListenSite) (addr : SockAddr)
| LvCloseListener (l : Listener)
| LvCloseUDP (conn : UDPConn)
| LvCloseServer (h : HTTPServer)
| LvGo (loop : Loop).

(** A function body that may return early: state over [Server], a trace,
    and either the value to go on with or the error returned. *)
Inductive Step (A : Type) : Type :=
| Next (a : A)
| Returned (err : error).
Arguments Next {A} a.
Arguments Returned {A} err.

Definition L (A : Type) : Type := Server -> Step A * Server * list LifeEvent.

Definition next {A : Type} (a : A) : L A := fun s => (Next a, s, []).
Definition return_ {A : Type} (err : error) : L A := fun s => (Returned err, s, []).
Definition lbind {A B : Type} (m : L A) (k : A -> L B) : L B :=
  fun s =>
    match m s with
    | (Next a, s', t) => let '(r, s'', t') := k a s' in (r, s'', t ++ t')
    | (Returned err, s', t) => (Returned err, s', t)
    end.
Definition lget : L Server := fun s => (Next s, s, []).
Definition lmodify (f : Server -> Server) : L unit := fun s => (Next tt, f s, []).
Definition lemit (e : LifeEvent) : L unit := fun s => (Next tt, s, [e]).

(** The error a body returns; falling off its end returns nil. *)
Definition returns (body : L unit) (s : Server) : error * Server * list LifeEvent :=
  match body s with
  | (Next _, s', t) => (None, s', t)
  | (Returned err, s', t) => (err, s', t)
  end.

Notation "'let+' x := m 'in' k" := (lbind m (fun x => k))
  (at level 10, x pattern, m at level 100, k at level 200).
Notation "m ;> k" := (lbind m (fun _ => k))
  (at level 100, k at level 200, right associativity).

(** proxy.go, lines 259-290. *)
Definition validateConfig (s : Server) (lc : ListenConfig) (cfg : Config) : error :=
  if started s then Some (errors_New "server has been already started")
  else
    match UDPListenAddr lc, TCPListenAddr lc, TLSListenAddr lc, HTTPSListenAddr lc with
    | None, None, None, None => Some (errors_New "no listen address specified")
    | _, _, _, _ =>
        match TLSListenAddr lc, TLSConfig lc with
        | Some _, None =>
            Some (errors_New "cannot create a TLS listener without TLS config")
        | _, _ =>
            match HTTPSListenAddr lc, TLSConfig lc with
            | Some _, None =>
                Some (errors_New "cannot create an HTTPS listener without TLS config")
            | _, _ =>
                if (length (Upstreams cfg) =? 0)%nat
                then Some (errors_New "no upstreams specified")
                else None
            end
        end
    end.

(** proxy.go, lines 292-359. *)
Definition startListeners (lc : ListenConfig) (os : Sockets)
  : Server -> error * Server * list LifeEvent :=
  returns (
    match UDPListenAddr lc with
    | Some udpAddr =>
        lemit (LvListenUDP udpAddr) ;>
        match ListenUDP os udpAddr with
        | inr err => return_ (Some (errorx_Decorate err "couldn't listen to UDP socket"))
        | inl udpListen => lmodify (fun s => set_udpListen s (Some udpListen))
        end
    | None => next tt
    end ;>
    match TCPListenAddr lc with
    | Some tcpAddr =>
        lemit (LvListenTCP ForTCP tcpAddr) ;>
        match ListenTCP os ForTCP tcpAddr with
        | inr err => return_ (Some (errorx_Decorate err "couldn't listen to TCP socket"))
        | inl tcpListen => lmodify (fun s => set_tcpListen s (Some tcpListen))
        end
    | None => next tt
    end ;>
    match TLSListenAddr lc with
    | Some tlsAddr =>
        lemit (LvListenTCP ForTLS tlsAddr) ;>
        match ListenTCP os ForTLS tlsAddr with
        | inr err => return_ (Some (errorx_Decorate err "could not start TLS listener"))
        | inl tcpListen =>
            lmodify (fun s =>
              set_tlsListen s (Some (tls_NewListener tcpListen (TLSConfig lc))))
        end
    | None => next tt
    end ;>
    match HTTPSListenAddr lc with
    | Some httpsAddr =>
        lemit (LvListenTCP ForHTTPS httpsAddr) ;>
        match ListenTCP os ForHTTPS httpsAddr with
        | inr err => return_ (Some (errorx_Decorate err "could not start HTTPS listener"))
        | inl tcpListen =>
            lmodify (fun s =>
              set_httpsListen s (Some (tls_NewListener tcpListen (TLSConfig lc)))) ;>
            lmodify (fun s =>
              set_httpsServer s
                (Some {| ReadHeaderTimeout := defaultTimeout;
                         WriteTimeout := defaultTimeout |}))
        end
    | None => next tt
    end ;>
    let+ s := lget in
    match udpListen s with
    | Some conn => lemit (LvGo (GoUDPPacketLoop conn))
    | None => next tt
    end ;>
    match tcpListen s with
    | Some l => lemit (LvGo (GoTCPPacketLoop l ProtoTCP))
    | None => next tt
    end ;>
    match tlsListen s with
    | Some l => lemit (LvGo (GoTCPPacketLoop l ProtoTLS))
    | None => next tt
    end ;>
    match httpsListen s with
    | Some _ => lemit (LvGo GoListenHTTPS)
    | None => next tt
    end ;>
    return_ None).

(** proxy.go, lines 101-130; [Spec2Rocq.Start] is its lines 112-121. *)
Definition Start (lc : ListenConfig) (cfg : Config) (os : Sockets) (fresh : cache)
    (s : Server) : error * Server * list LifeEvent :=
  match validateConfig s lc cfg with
  | Some err => (Some err, s, [])
  | None =>
      let s := set_proxy s (Start cfg fresh (proxy s)) in
      let '(err, s, t) := startListeners lc os s in
      match err with
      | Some err => (Some err, s, t)
      | None => (None, set_started s true, t)
      end
  end.

(** proxy.go, lines 132-181. *)
Definition Stop (os : Sockets) : Server -> error * Server * list LifeEvent :=
  returns (
    let+ s := lget in
    if negb (started s) then return_ None
    else
      (let+ s := lget in
       match tcpListen s with
       | Some l =>
           lemit (LvCloseListener l) ;>
           lmodify (fun s => set_tcpListen s None) ;>
           match CloseListener os l with
           | Some err =>
               return_ (Some (errorx_Decorate err "couldn't close TCP listening socket"))
           | None => next tt
           end
       | None => next tt
       end) ;>
      (let+ s := lget in
       match udpListen s with
       | Some c =>
           lemit (LvCloseUDP c) ;>
           lmodify (fun s => set_udpListen s None) ;>
           match CloseUDP os c with
           | Some err =>
               return_ (Some (errorx_Decorate err "couldn't close UDP listening socket"))
           | None => next tt
           end
       | None => next tt
       end) ;>
      (let+ s := lget in
       match tlsListen s with
       | Some l =>
           lemit (LvCloseListener l) ;>
           lmodify (fun s => set_tlsListen s None) ;>
           match CloseListener os l with
           | Some err =>
               return_ (Some (errorx_Decorate err "couldn't close TLS listening socket"))
           | None => next tt
           end
       | None => next tt
       end) ;>
      (let+ s := lget in
       match httpsServer s with
       | Some h =>
           lemit (LvCloseServer h) ;>
           lmodify (fun s => set_httpsListen s None) ;>
           lmodify (fun s => set_httpsServer s None) ;>
           match CloseServer os h with
           | Some err => return_ (Some (errorx_Decorate err "couldn't close HTTPS server"))
           | None => next tt
           end
       | None => next tt
       end) ;>
      lmodify (fun s => set_started s false) ;>
      return_ None).

(** proxy.go, lines 183-212. *)
Definition Addr (s : Server) (proto : string) : Result net.Addr :=
  if String.eqb proto ProtoTCP then
    Ok (match tcpListen s with
        | None => None
        | Some l => Some (ListenerAddr l)
        end)
  else if String.eqb proto ProtoTLS then
    Ok (match tlsListen s with
        | None => None
        | Some l => Some (ListenerAddr l)
        end)
  else if String.eqb proto ProtoHTTPS then
    Ok (match httpsListen s with
        | None => None
        | Some l => Some (ListenerAddr l)
        end)
  else if String.eqb proto ProtoUDP then
    Ok (match udpListen s with
        | None => None
        | Some c => Some (LocalAddr c)
        end)
  else Panic "proto must be 'tcp', 'tls', 'https' or 'udp'".

(** How many sockets [Stop] still has to close. *)
Definition present {A : Type} (o : option A) : nat :=
  match o with
  | Some _ => 1
  | None => 0
  end.

Definition held (s : Server) : nat :=
  present (tcpListen s) + present (udpListen s)
  + present (tlsListen s) + present (httpsServer s).

Definition isClose (e : LifeEvent) : bool :=
  match e with
  | LvCloseListener _ | LvCloseUDP _ | LvCloseServer _ => true
  | _ => false
  end.

Definition isGo (e : LifeEvent) : bool :=
  match e with
  | LvGo _ => true
  | _ => false
  end.

(** A proxy value before its first [Start]. *)
Definition newServer : Server :=
  {| started := false; udpListen := None; tcpListen := None; tlsListen := None;
     httpsListen := None; httpsServer := None; proxy := zeroProxy |}.

End lifecycle.


(** ** Sample sockets *)

Definition exampleListenConfig (udp tcp https tlsAddr : bool) : lifecycle.ListenConfig :=
  {| lifecycle.UDPListenAddr := if udp then Some (Some [127; 0; 0; 1], 53) else None;
     lifecycle.TCPListenAddr := if tcp then Some (Some [127; 0; 0; 1], 53) else None;
     lifecycle.HTTPSListenAddr := if https then Some (Some [127; 0; 0; 1], 443) else None;
     lifecycle.TLSListenAddr := if tlsAddr then Some (Some [127; 0; 0; 1], 853) else None;
     lifecycle.TLSConfig := Some (tls.mkConfig "dns.example") |}.

(** An operating system on which every listen call succeeds, except the
    plain TCP one when [tcpBusy] is set, and every close succeeds, except
    that of the UDP socket when [udpStuck] is set. *)
Definition exampleSockets (tcpBusy udpStuck : bool) : lifecycle.Sockets :=
  {| lifecycle.ListenUDP := fun a =>
       inl {| lifecycle.LocalAddr := net.UDPAddr a.1 a.2 |};
     lifecycle.ListenTCP := fun site a =>
       match site, tcpBusy with
       | lifecycle.ForTCP, true => inr (errors_New "address already in use")
       | _, _ => inl {| lifecycle.ListenerAddr := net.TCPAddr a.1 a.2;
                        lifecycle.ListenerTLS := None |}
       end;
     lifecycle.CloseUDP := fun _ =>
       if udpStuck then Some (errors_New "close failed") else None;
     lifecycle.CloseListener := fun _ => None;
     lifecycle.CloseServer := fun _ => None |}.


(** The server after [n] calls of [Stop] in a row. *)
Definition stopAgain (os : lifecycle.Sockets) (n : nat) (s : lifecycle.Server)
  : lifecycle.Server :=
  Nat.iter n (fun s => (lifecycle.Stop os s).1.2) s.

(** The close events [Stop] issues when every close succeeds. *)
Definition closeTrace (s : lifecycle.Server) : list lifecycle.LifeEvent :=
  match lifecycle.tcpListen s with
  | Some l => [lifecycle.LvCloseListener l]
  | None => []
  end ++
  match lifecycle.udpListen s with
  | Some c => [lifecycle.LvCloseUDP c]
  | None => []
  end ++
  match lifecycle.tlsListen s with
  | Some l => [lifecycle.LvCloseListener l]
  | None => []
  end ++
  match lifecycle.httpsServer s with
  | Some h => [lifecycle.LvCloseServer h]
  | None => []
  end.

Ltac life_unfold :=
  unfold lifecycle.Stop, lifecycle.startListeners, lifecycle.returns,
    lifecycle.lbind, lifecycle.lget, lifecycle.lmodify, lifecycle.lemit,
    lifecycle.next, lifecycle.return_ in *.

Ltac life_cases :=
  repeat match goal with
         | |- context [match ?x with _ => _ end] =>
             lazymatch x with
             | context [match _ with _ => _ end] => fail
             | _ => destruct x eqn:?
             end; simpl in *
         end.


(** The goroutines [startListeners] launches for the listeners of [s]. *)
Definition goTrace (s : lifecycle.Server) : list lifecycle.LifeEvent :=
  match lifecycle.udpListen s with
  | Some c => [lifecycle.LvGo (lifecycle.GoUDPPacketLoop c)]
  | None => []
  end ++
  match lifecycle.tcpListen s with
  | Some l => [lifecycle.LvGo (lifecycle.GoTCPPacketLoop l ProtoTCP)]
  | None => []
  end ++
  match lifecycle.tlsListen s with
  | Some l => [lifecycle.LvGo (lifecycle.GoTCPPacketLoop l ProtoTLS)]
  | None => []
  end ++
  match lifecycle.httpsListen s with
  | Some _ => [lifecycle.LvGo lifecycle.GoListenHTTPS]
  | None => []
  end.

(** The listener fields after a [startListeners] in which every listen
    call succeeded. *)
Definition listening (lc : lifecycle.ListenConfig) (os : lifecycle.Sockets)
    (s s' : lifecycle.Server) : Prop :=
  match lifecycle.UDPListenAddr lc with
  | Some a => exists c, lifecycle.ListenUDP os a = inl c /\
                        lifecycle.udpListen s' = Some c
  | None => lifecycle.udpListen s' = lifecycle.udpListen s
  end /\
  match lifecycle.TCPListenAddr lc with
  | Some a => exists l, lifecycle.ListenTCP os lifecycle.ForTCP a = inl l /\
                        lifecycle.tcpListen s' = Some l
  | None => lifecycle.tcpListen s' = lifecycle.tcpListen s
  end /\
  match lifecycle.TLSListenAddr lc with
  | Some a =>
      exists l, lifecycle.ListenTCP os lifecycle.ForTLS a = inl l /\
                lifecycle.tlsListen s'
                = Some (lifecycle.tls_NewListener l (lifecycle.TLSConfig lc))
  | None => lifecycle.tlsListen s' = lifecycle.tlsListen s
  end /\
  match lifecycle.HTTPSListenAddr lc with
  | Some a =>
      exists l, lifecycle.ListenTCP os lifecycle.ForHTTPS a = inl l /\
                lifecycle.httpsListen s'
                = Some (lifecycle.tls_NewListener l (lifecycle.TLSConfig lc)) /\
                lifecycle.httpsServer s'
                = Some {| lifecycle.ReadHeaderTimeout := defaultTimeout;
                          lifecycle.WriteTimeout := defaultTimeout |}
  | None => lifecycle.httpsListen s' = lifecycle.httpsListen s /\
            lifecycle.httpsServer s' = lifecycle.httpsServer s
  end.


(** ** The listeners *)

(** The wire and connection functions the listeners call: the base64 and
    dns libraries, and the helpers [isConnClosed] and [prefixWithSize] of
    the proxy package, whose file is not among the sources. *)
Class WireLib : Type := mkWireLib {
  (** [base64.RawURLEncoding.DecodeString] *)
  DecodeString : string -> list Z * error;
  (** [dns.Msg.Unpack] *)
  Unpack : list Z -> dns.Msg * error;
  (** [dns.Msg.Pack] *)
  Pack : dns.Msg -> list Z * error;
  isConnClosed : error -> bool;
  prefixWithSize : list Z -> list Z * error
}.

Module doh.

(** [http.Request] as [ServeHTTP] reads it: the method, the [dns] query
    parameter, the [Content-Type] header, what reading the body gives, and
    the fields [remoteAddr] reads. *)
Record Request : Type := mkRequest {
  Method : string;
  QueryDNS : string;
  ContentType : string;
  Body : list Z * error;
  Peer : http.Request
}.

Definition MethodGet : string := "GET".
Definition MethodPost : string := "POST".
Definition StatusBadRequest : Z := 400.
Definition StatusMethodNotAllowed : Z := 405.
Definition StatusUnsupportedMediaType : Z := 415.
Definition StatusInternalServerError : Z := 500.

(** How [ServeHTTP] ends: with [http.Error], or having run the pipeline. *)
Inductive Served : Type :=
| HTTPError (status : Z)
| Handled (d : DNSContext) (err : error).

End doh.

(** The context a listener builds around a parsed message: every field it
    does not set has its zero value. *)
Definition newContext (proto : string) (msg : dns.Msg) (addr : net.Addr) : DNSContext :=
  {| Proto := proto; Req := msg; Res := None; Addr := addr; StartTime := 0;
     Upstream := None; UpstreamIdx := 0 |}.

(** The switch of [ServeHTTP] (lines 547-575): the bytes of the DNS
    message, or the status of the error reply. *)
Definition requestBytes `{WireLib} (r : doh.Request) : list Z + Z :=
  if String.eqb (doh.Method r) doh.MethodGet then
    let '(buf, err) := DecodeString (doh.QueryDNS r) in
    if (Z.of_nat (length buf) =? 0) || (if err is Some _ then true else false)
    then inr doh.StatusBadRequest
    else inl buf
  else if String.eqb (doh.Method r) doh.MethodPost then
    if negb (String.eqb (doh.ContentType r) "application/dns-message")
    then inr doh.StatusUnsupportedMediaType
    else
      let '(buf, err) := doh.Body r in
      match err with
      | Some _ => inr doh.StatusBadRequest
      | None => inl buf
      end
  else inr doh.StatusMethodNotAllowed.

(** proxy.go, lines 536-597. *)
Definition ServeHTTP `{NetLib} `{WireLib} (cfg : Config) (env : Env)
    (r : doh.Request) : M doh.Served :=
  match requestBytes r with
  | inr status => ret (doh.HTTPError status)
  | inl buf =>
      let '(msg, err) := Unpack buf in
      match err with
      | Some _ => ret (doh.HTTPError doh.StatusBadRequest)
      | None =>
          let '(addr, _) := remoteAddr (doh.Peer r) in
          let d := newContext ProtoHTTPS msg addr in
          let* (d, err) := handleDNSRequest cfg env d in
          ret (doh.Handled d err)
      end
  end.


(** proxy.go, lines 415-435, from the message to the result of the write;
    [WriteTo] is [conn.WriteTo(bytes, d.Addr)]. *)
Definition respondUDP_write `{WireLib} (WriteTo : list Z -> Z * error)
    (resp : dns.Msg) : error :=
  let '(bytes, err) := Pack resp in
  match err with
  | Some e => Some (errorx_Decorate e "couldn't convert message into wire format")
  | None =>
      let '(n, err) := WriteTo bytes in
      if (n =? 0) && isConnClosed err then err
      else
        match err with
        | Some e => Some (errorx_Decorate e "conn.WriteTo() returned error")
        | None =>
            if negb (n =? Z.of_nat (length bytes))
            then Some (errors_New
                         (String.append "conn.WriteTo() returned with "
                            (String.append (pretty n)
                               (String.append " != "
                                  (pretty (Z.of_nat (length bytes)))))))
            else None
        end
  end.

(** proxy.go, lines 496-522; [Write] is [conn.Write(bytes)]. *)
Definition respondTCP_write `{WireLib} (Write : list Z -> Z * error)
    (resp : dns.Msg) : error :=
  let '(bytes, err) := Pack resp in
  match err with
  | Some e => Some (errorx_Decorate e "couldn't convert message into wire format")
  | None =>
      let '(bytes, err) := prefixWithSize bytes in
      match err with
      | Some e => Some (errorx_Decorate e "couldn't add prefix with size")
      | None =>
          let '(n, err) := Write bytes in
          if (n =? 0) && isConnClosed err then err
          else
            match err with
            | Some e => Some (errorx_Decorate e "conn.Write() returned error")
            | None =>
                if negb (n =? Z.of_nat (length bytes))
                then Some (errors_New
                             (String.append "conn.Write() returned with "
                                (String.append (pretty n)
                                   (String.append " != "
                                      (pretty (Z.of_nat (length bytes)))))))
                else None
            end
      end
  end.

(** How a listener loop ends.  [LoopPending] is a loop still waiting for
    input when the script of inputs is used up. *)
Inductive LoopExit : Type :=
| LoopStopped
| LoopReadError
| LoopUnpackError
| LoopConnClosed
| LoopPending.

(** One turn of [handleTCPConnection]: the started flag it finds, what
    [readPrefixed] returns, and the surroundings of the request. *)
Record ConnStep : Type := mkConnStep {
  stepStarted : bool;
  stepRead : list Z * error;
  stepEnv : Env
}.

(** proxy.go, lines 456-494, over a script of turns.  The second component
    of the result counts the [p.RLock()] calls not matched by a
    [p.RUnlock()] when the function returns.  (The deferred [conn.Close()]
    runs on every return.) *)
Fixpoint handleTCPConnection `{WireLib} (cfg : Config) (proto : string)
    (remote : net.Addr) (steps : list ConnStep) : M (LoopExit * nat) :=
  match steps with
  | [] => ret (LoopPending, 0%nat)
  | step :: steps =>
      (* p.RLock() *)
      if negb (stepStarted step) then ret (LoopStopped, 1%nat)
      else
        (* p.RUnlock() *)
        let '(packet, err) := stepRead step in
        match err with
        | Some _ => ret (LoopReadError, 0%nat)
        | None =>
            let '(msg, err) := Unpack packet in
            match err with
            | Some _ => ret (LoopUnpackError, 0%nat)
            | None =>
                let d := newContext proto msg remote in
                let* _ := handleDNSRequest cfg (stepEnv step) d in
                handleTCPConnection cfg proto remote steps
            end
        end
  end.

(** One turn of [udpPacketLoop]: the started flag it finds and what
    [conn.ReadFrom(b)] delivers, the datagram, its sender and the error. *)
Record ReadStep : Type := mkReadStep {
  readStarted : bool;
  readData : list Z;
  readAddr : net.Addr;
  readErr : error
}.

Definition MaxMsgSize : Z := 65535.

(** [conn.ReadFrom(b)] on the buffer: the datagram, cut to the size of the
    buffer, overwrites its front. *)
Definition ReadFrom (b : list Z) (data : list Z) : nat * list Z :=
  let received := take (length b) data in
  (length received, received ++ drop (length received) b).

(** proxy.go, lines 361-389, over a script of turns, with the read buffer
    [b] carried from turn to turn.  The result lists the packets handed to
    [go p.handleUDPPacket], oldest first, and counts the read locks still
    held. *)
Fixpoint udpPacketLoop_from `{WireLib} (b : list Z) (steps : list ReadStep)
  : list (list Z * net.Addr) * LoopExit * nat :=
  match steps with
  | [] => ([], LoopPending, 0%nat)
  | step :: steps =>
      (* p.RLock() *)
      if negb (readStarted step) then ([], LoopStopped, 1%nat)
      else
        (* p.RUnlock() *)
        let '(n, b) := ReadFrom b (readData step) in
        (* documentation says to handle the packet even if err occurs *)
        let spawned := if (0 <? Z.of_nat n)
                       then [(take n b, readAddr step)]
                       else [] in
        match readErr step with
        | Some e =>
            if isConnClosed (Some e) then (spawned, LoopConnClosed, 0%nat)
            else
              let '(rest, exit, locks) := udpPacketLoop_from b steps in
              (spawned ++ rest, exit, locks)
        | None =>
            let '(rest, exit, locks) := udpPacketLoop_from b steps in
            (spawned ++ rest, exit, locks)
        end
  end.

Definition udpPacketLoop `{WireLib} (steps : list ReadStep)
  : list (list Z * net.Addr) * LoopExit * nat :=
  udpPacketLoop_from (replicate (Z.to_nat MaxMsgSize) 0) steps.

(** proxy.go, lines 437-454, over a script of what [l.Accept()] returns:
    the connections handed to [go p.handleTCPConnection], oldest first. *)
Fixpoint tcpPacketLoop `{WireLib} {Conn : Type} (accepts : list (Conn + error_value))
  : list Conn * LoopExit :=
  match accepts with
  | [] => ([], LoopPending)
  | inr err :: accepts =>
      if isConnClosed (Some err) then ([], LoopConnClosed)
      else tcpPacketLoop accepts
  | inl clientConn :: accepts =>
      let '(rest, exit) := tcpPacketLoop accepts in
      (clientConn :: rest, exit)
  end.


(** The answers of the wire functions on the packets of the examples: the
    bytes [1; 2; 3] stand for an A query, [9] for a malformed packet. *)
Definition exampleWireLib : WireLib :=
  {| DecodeString := fun s =>
       if String.eqb s "AQID" then ([1; 2; 3], None)
       else if String.eqb s "" then ([], None)
       else ([], Some (errors_New "illegal base64 data"));
     Unpack := fun b =>
       match b with
       | [1; 2; 3] => (exampleRequest [exampleQuestion 1], None)
       | _ => (dns.zeroMsg, Some (errors_New "dns: overflow unpacking uint16"))
       end;
     Pack := fun m => ([0; 0; 129; 128], None);
     isConnClosed := fun err =>
       match err with
       | Some (errors_New "use of closed network connection") => true
       | _ => false
       end;
     prefixWithSize := fun b =>
       ([Z.of_nat (length b) / 256; Z.of_nat (length b) mod 256] ++ b, None) |}.

Definition exampleDoH (method query contentType remote : string)
    (body : list Z * error) : doh.Request :=
  {| doh.Method := method; doh.QueryDNS := query; doh.ContentType := contentType;
     doh.Body := body; doh.Peer := {| http.RemoteAddr := remote |} |}.


(** ** What a run does on behalf of a request *)

(** Every run of [m] emits only events that satisfy [P], and the value of
    a run that returns satisfies [Q]. *)
Definition obeys {A : Type} (P : Event -> Prop) (Q : A -> Prop) (m : M A) : Prop :=
  forall p : Proxy,
    Forall P (trace_of (m p)) /\ forall a, result_of (m p) = Ok a -> Q a.

(** The fields of a context that identify the request and its client. *)
Definition same_request (d d' : DNSContext) : Prop :=
  Proto d' = Proto d /\ Req d' = Req d /\ Addr d' = Addr d.

(** The events of the request of [d] once it is past the rate limiter: the
    cache and the upstreams are asked its own message, an answer goes
    through the writer of its protocol, and the limiter is not asked. *)
Definition served (d : DNSContext) (e : Event) : Prop :=
  match e with
  | EvIsRatelimited _ => False
  | EvCacheGet req => req = Req d
  | EvExchange _ _ req => req = Req d
  | EvRespond w _ => writerOf (Proto d) = Some w
  | EvCacheSet _ | EvWeightedChoice _ | EvCalculateUpstreamWeights _ _ => True
  end.



(** An event of a request on a TCP or TLS connection. *)
Definition tcpEvent (e : Event) : Prop :=
  match e with
  | EvIsRatelimited _ => False
  | EvRespond w _ => w = respondTCP
  | _ => True
  end.

(** A turn at which [handleTCPConnection] returns. *)
Definition lastTurn `{WireLib} (step : ConnStep) : bool :=
  negb (stepStarted step)
  || match stepRead step with
     | (_, Some _) => true
     | (packet, None) => if (Unpack packet).2 is Some _ then true else false
     end.

(** A turn at which [udpPacketLoop] returns. *)
Definition lastRead `{WireLib} (step : ReadStep) : bool :=
  negb (readStarted step)
  || match readErr step with
     | Some e => isConnClosed (Some e)
     | None => false
     end.

(** The packets [udpPacketLoop] owes to a list of reads: each datagram that
    is not empty, cut to the size of the buffer, with its sender. *)
Definition datagrams (steps : list ReadStep) : list (list Z * net.Addr) :=
  map (fun step => (take (Z.to_nat MaxMsgSize) (readData step), readAddr step))
      (filter (fun step => readData step <> []) steps).

(** An accept at which [tcpPacketLoop] returns. *)
Definition lastAccept `{WireLib} {Conn : Type} (a : Conn + error_value) : bool :=
  match a with
  | inl _ => false
  | inr err => isConnClosed (Some err)
  end.

(** The connections among a list of accepts. *)
Definition accepted {Conn : Type} (accepts : list (Conn + error_value)) : list Conn :=
  omap (fun a => match a with inl clientConn => Some clientConn | inr _ => None end)
       accepts.

Definition closedError : error_value := errors_New "use of closed network connection".

Definition exampleTurn (started : bool) (read : list Z * error) : ConnStep :=
  {| stepStarted := started; stepRead := read; stepEnv := exampleEnv false |}.

Definition exampleRead (started : bool) (data : list Z) (err : error) : ReadStep :=
  {| readStarted := started; readData := data;
     readAddr := Some (net.UDPAddr (Some [192; 0; 2; 7]) 5353); readErr := err |}.

(** proxy.go, lines 599-614, from the message to the status [http.Error]
    sends, if any, and the error returned; [Write] is [w.Write(bytes)]. *)
Definition respondHTTPS_write `{WireLib} (Write : list Z -> Z * error)
    (resp : dns.Msg) : option Z * error :=
  let '(bytes, err) := Pack resp in
  match err with
  | Some e =>
      (Some doh.StatusInternalServerError,
       Some (errorx_Decorate e "couldn't convert message into wire format"))
  | None =>
      let '(_, err) := Write bytes in
      (None, err)
  end.

(** * Properties *)

(** ** The model on the scenarios of the specification *)

(** A plain A query over UDP goes to the only upstream, whose 25 ms are
    scored, and the reply is written back. *)
Example basic_resolution :
  let cfg := exampleConfig false false [goodUpstream "8.8.8.8:53"] None in
  let req := exampleRequest [exampleQuestion 1] in
  let d := exampleContext ProtoUDP req in
  handleDNSRequest cfg (exampleEnv false) d (startedProxy cfg)
  = (Ok (set_Res (set_Upstream (set_StartTime d 1000) (goodUpstream "8.8.8.8:53") 0)
           (Some (exampleReply req)), None),
     {| upstreamsRtt := [25];
        upstreamsWeighted := [ {| randutil.Weight := 1;
                                  randutil.Item := randutil.ItemInt 0 |} ];
        cache_ := None |},
     [EvIsRatelimited (Addr d);
      EvExchange PrimaryExchange "8.8.8.8:53" req;
      EvCalculateUpstreamWeights 0 25;
      EvRespond respondUDP (exampleReply req)]).
Proof. reflexivity. Qed.

(** The NOTIMPL answer to an ANY query. *)
Example genNotImpl_example :
  genNotImpl (exampleRequest [exampleQuestion 255])
  = {| dns.Id := 4242; dns.Response := true; dns.RecursionAvailable := true;
       dns.Rcode := 4; dns.Question_ := [exampleQuestion 255]; dns.Answer := [];
       dns.Extra := [ {| dns.Hdr_Name := "."; dns.Hdr_Rrtype := 41;
                         dns.Hdr_Class := 1452; dns.Hdr_Ttl := 0;
                         dns.Rdata := "" |} ] |}.
Proof. reflexivity. Qed.

(** A fast and a slow upstream: the fast one gets the large weight. *)
Example selector_feedback :
  let cfg := exampleConfig false false [goodUpstream "fast"; goodUpstream "slow"] None in
  let p := record 1 200 (record 0 10 (startedProxy cfg)) in
  upstreamsRtt p = [10; 200] /\
  map randutil.Weight (upstreamsWeighted p) = [200; 10].
Proof. split; reflexivity. Qed.

(** The moving average halves the distance to a new measurement, and a
    failed exchange throws it off by ten million seconds. *)
Example selector_after_failure :
  let cfg := exampleConfig false false [goodUpstream "a"; goodUpstream "b"] None in
  let p := record 0 (GoInt.int defaultTimeout) (record 1 200 (record 0 10 (startedProxy cfg))) in
  upstreamsRtt p = [5000000005; 200] /\
  map randutil.Weight (upstreamsWeighted p) = [200; 5000000005].
Proof. split; reflexivity. Qed.

(** ** Machine arithmetic without overflow *)

Lemma int_in_range (z : Z) : GoInt.in_range z -> GoInt.int z = z.
Proof.
  unfold GoInt.int, GoInt.wrap. int_bounds.
  change (2 ^ (64 - 1)) with 9223372036854775808.
  change (2 ^ 64) with 18446744073709551616.
  intros Hz. rewrite Z.mod_small; lia.
Qed.

Lemma add_in_range (a b : Z) : GoInt.in_range (a + b) -> GoInt.add a b = a + b.
Proof. apply int_in_range. Qed.

Lemma sub_in_range (a b : Z) : GoInt.in_range (a - b) -> GoInt.sub a b = a - b.
Proof. apply int_in_range. Qed.

Lemma div2_in_range (a : Z) :
  0 <= a <= GoInt.max_int -> GoInt.div a 2 = Z.quot a 2 /\ 0 <= Z.quot a 2 <= a.
Proof.
  intros Ha.
  assert (Hq : 0 <= Z.quot a 2 <= a).
  { rewrite Z.quot_div_nonneg by lia. split.
    - apply Z.div_pos; lia.
    - apply Z.div_le_upper_bound; lia. }
  split; [|exact Hq].
  unfold GoInt.div. apply int_in_range. int_bounds. lia.
Qed.

Lemma sumZ_cons (x : Z) (l : list Z) : sumZ (x :: l) = x + sumZ l.
Proof. reflexivity. Qed.

Lemma sumZ_nonneg (l : list Z) : Forall (fun x => 0 <= x) l -> 0 <= sumZ l.
Proof.
  induction 1 as [|x l Hx _ IH]; [done|]. rewrite sumZ_cons. lia.
Qed.

Lemma sumZ_insert (l : list Z) (i : nat) (old v : Z) :
  l !! i = Some old -> sumZ (<[i:=v]> l) = sumZ l - old + v.
Proof.
  revert i. induction l as [|x l IH]; intros [|i] Hi; simpl in *; try discriminate.
  - injection Hi as ->. lia.
  - rewrite (IH _ Hi). lia.
Qed.

Lemma sumZ_lookup_le (l : list Z) (i : nat) (x : Z) :
  Forall (fun x => 0 <= x) l -> l !! i = Some x -> x <= sumZ l.
Proof.
  intros Hl. revert i. induction Hl as [|y l Hy Hl IH]; intros [|i] Hi;
    simpl in *; try discriminate.
  - injection Hi as ->. pose proof (sumZ_nonneg l Hl). lia.
  - specialize (IH _ Hi). lia.
Qed.

(** The first loop of [calculateUpstreamWeights] computes the true sum as
    long as it fits an [int]. *)
Lemma foldl_add_sumZ (l : list Z) (acc : Z) :
  Forall (fun x => 0 <= x) l -> 0 <= acc -> acc + sumZ l <= GoInt.max_int ->
  foldl GoInt.add acc l = acc + sumZ l.
Proof.
  intros Hl. revert acc.
  induction Hl as [|x l Hx Hl IH]; intros acc Hacc Hsum.
  - simpl. lia.
  - rewrite sumZ_cons in *. pose proof (sumZ_nonneg l Hl) as Hnn. simpl.
    rewrite add_in_range by (int_bounds; lia).
    rewrite IH; lia.
Qed.

(** ** The weights the second loop assigns *)

Lemma assignWeights_ok (sum : Z) (rtts : list Z) (weighted : list randutil.Choice) :
  length rtts = length weighted ->
  exists ws,
    assignWeights sum rtts weighted = (ws, true) /\
    length ws = length weighted /\
    forall (j : nat) (rtt : Z) (c : randutil.Choice),
      rtts !! j = Some rtt -> weighted !! j = Some c ->
      ws !! j = Some (set_Weight c (clampWeight sum rtt)).
Proof.
  revert weighted. induction rtts as [|rtt rtts IH]; intros [|c weighted] Hlen;
    simpl in *; try discriminate.
  - exists []. repeat split; auto. intros j ? ? Hj; destruct j; discriminate.
  - injection Hlen as Hlen. destruct (IH _ Hlen) as (ws & -> & Hws & Hlk).
    eexists. split; [reflexivity|]. split; [simpl; congruence|].
    intros [|j] rtt' c' Hr Hc; simpl in *.
    + injection Hr as ->. injection Hc as ->. reflexivity.
    + eauto.
Qed.

Lemma clampWeight_max (sum rtt : Z) :
  GoInt.in_range (sum - rtt) -> clampWeight sum rtt = Z.max 1 (sum - rtt).
Proof.
  intros H. unfold clampWeight. rewrite (sub_in_range _ _ H).
  destruct (Z.leb_spec (sum - rtt) 0); lia.
Qed.

Lemma updatedRtt_bounds (currentRtt rtt : Z) :
  0 <= currentRtt -> 0 <= rtt -> currentRtt + rtt <= GoInt.max_int ->
  0 <= updatedRtt currentRtt rtt <= currentRtt + rtt.
Proof.
  intros Hc Hr Hs. unfold updatedRtt.
  destruct (Z.eqb_spec currentRtt 0); [lia|].
  rewrite add_in_range by (int_bounds; lia).
  destruct (div2_in_range (currentRtt + rtt)) as [-> ?]; lia.
Qed.

(** ** One run of [calculateUpstreamWeights] *)

Lemma index_lookup {A : Type} (l : list A) (i : Z) :
  0 <= i < Z.of_nat (length l) -> exists x, index l i = Some x /\ l !! Z.to_nat i = Some x.
Proof.
  intros Hi. unfold index. destruct (Z.ltb_spec i 0); [lia|].
  destruct (lookup_lt_is_Some_2 l (Z.to_nat i)) as [x Hx]; [lia|]. eauto.
Qed.

Lemma calculateUpstreamWeights_run (n : nat) (p : Proxy) (i r : Z) :
  stats_ok n p -> 0 <= i < Z.of_nat n -> 0 <= r ->
  sumZ (upstreamsRtt p) + r <= GoInt.max_int ->
  exists (cur : Z) (ws : list randutil.Choice),
    upstreamsRtt p !! Z.to_nat i = Some cur /\
    let rtts := <[Z.to_nat i := updatedRtt cur r]> (upstreamsRtt p) in
    calculateUpstreamWeights i r p
      = (Ok tt,
         {| upstreamsRtt := rtts; upstreamsWeighted := ws; cache_ := cache_ p |},
         [EvCalculateUpstreamWeights i r]) /\
    length ws = n /\
    Forall (fun rtt => 0 <= rtt) rtts /\
    sumZ rtts <= sumZ (upstreamsRtt p) + r /\
    forall (j : nat) (rtt : Z), rtts !! j = Some rtt ->
      exists c0, upstreamsWeighted p !! j = Some c0 /\
                 ws !! j = Some (set_Weight c0 (Z.max 1 (sumZ rtts - rtt))).
Proof.
  intros [Hlr Hlw Hnn] Hi Hr Hsum.
  destruct (index_lookup (upstreamsRtt p) i) as (cur & Hidx & Hcur); [lia|].
  assert (Hcur0 : 0 <= cur) by (eapply (proj1 (Forall_lookup _ _) Hnn); eauto).
  pose proof (sumZ_lookup_le _ _ _ Hnn Hcur) as Hcurle.
  pose proof (sumZ_nonneg _ Hnn) as Hs0.
  assert (Hupd : 0 <= updatedRtt cur r <= cur + r)
    by (apply updatedRtt_bounds; lia).
  set (rtts := <[Z.to_nat i := updatedRtt cur r]> (upstreamsRtt p)).
  assert (Hsumr : sumZ rtts = sumZ (upstreamsRtt p) - cur + updatedRtt cur r)
    by (apply sumZ_insert; exact Hcur).
  assert (Hnn' : Forall (fun rtt => 0 <= rtt) rtts).
  { apply Forall_insert; [exact Hnn | lia]. }
  assert (Hfold : foldl GoInt.add 0 rtts = sumZ rtts).
  { rewrite foldl_add_sumZ; [lia | exact Hnn' | lia | lia]. }
  destruct (assignWeights_ok (sumZ rtts) rtts (upstreamsWeighted p))
    as (ws & Hws & Hlen & Hlk).
  { unfold rtts. rewrite length_insert. congruence. }
  exists cur, ws. split; [exact Hcur|]. cbv zeta. fold rtts.
  split; [|split; [congruence|split; [exact Hnn'|split; [lia|]]]].
  - unfold calculateUpstreamWeights, bind, emit, get, put, ret. rewrite Hidx.
    fold (updatedRtt cur r). fold rtts. rewrite Hfold, Hws. reflexivity.
  - intros j rtt Hj.
    destruct (lookup_lt_is_Some_2 (upstreamsWeighted p) j) as [c0 Hc0].
    { rewrite Hlw, <- Hlr. apply lookup_lt_Some in Hj.
      unfold rtts in Hj. rewrite length_insert in Hj. exact Hj. }
    exists c0. split; [exact Hc0|].
    rewrite (Hlk _ _ _ Hj Hc0). rewrite clampWeight_max; [reflexivity|].
    pose proof (sumZ_lookup_le _ _ _ Hnn' Hj).
    assert (0 <= rtt) by (eapply (proj1 (Forall_lookup _ _) Hnn'); eauto).
    int_bounds. lia.
Qed.

(** [Start] establishes the selector invariant, and a recorded RTT keeps
    it. *)
Lemma Start_stats_ok (cfg : Config) (fresh : cache) (p : Proxy) :
  stats_ok (length (Upstreams cfg)) (Start cfg fresh p).
Proof.
  split; simpl.
  - apply length_replicate.
  - apply length_imap.
  - apply Forall_replicate. lia.
Qed.

Lemma calculateUpstreamWeights_stats_ok (n : nat) (p : Proxy) (i r : Z) :
  stats_ok n p -> 0 <= i < Z.of_nat n -> 0 <= r ->
  sumZ (upstreamsRtt p) + r <= GoInt.max_int ->
  stats_ok n (record i r p).
Proof.
  intros Hok Hi Hr Hsum.
  destruct (calculateUpstreamWeights_run n p i r Hok Hi Hr Hsum)
    as (cur & ws & Hcur & Hrun & Hlen & Hnn & _).
  unfold record. rewrite Hrun. split; simpl; auto.
  rewrite length_insert. apply Hok.
Qed.

(** C2, as the code has it: after [record(i, r)] the weight of upstream [i]
    is [max(1, sum rtt - rtt[i])], the sum taken over the updated RTT
    vector.  So the weight is at least 1, it equals [sum rtt - rtt[i]]
    whenever that difference is at least 1, and it is 1 exactly when the
    difference is at most 1.  This holds for a selector with non-negative
    RTTs, an index in range, a non-negative measurement, and a sum that
    fits a machine [int]. *)
Theorem calculateUpstreamWeights_weight (n : nat) (p : Proxy) (i r : Z) :
  stats_ok n p -> 0 <= i < Z.of_nat n -> 0 <= r ->
  sumZ (upstreamsRtt p) + r <= GoInt.max_int ->
  result_of (calculateUpstreamWeights i r p) = Ok tt /\
  exists w rtt : Z,
    weight_at (record i r p) i = Some w /\
    rtt_at (record i r p) i = Some rtt /\
    let sum := sumZ (upstreamsRtt (record i r p)) in
    w = Z.max 1 (sum - rtt) /\
    1 <= w /\
    (1 <= sum - rtt -> w = sum - rtt) /\
    (w = 1 <-> sum - rtt <= 1).
Proof.
  intros Hok Hi Hr Hsum.
  destruct (calculateUpstreamWeights_run n p i r Hok Hi Hr Hsum)
    as (cur & ws & Hcur & Hrun & Hlen & Hnn & _ & Hw).
  unfold record. rewrite Hrun. split; [reflexivity|].
  unfold proxy_of, weight_at, rtt_at, index. simpl.
  destruct (Z.ltb_spec i 0); [lia|].
  assert (Hrtt : <[Z.to_nat i := updatedRtt cur r]> (upstreamsRtt p) !! Z.to_nat i
                 = Some (updatedRtt cur r)).
  { apply list_lookup_insert_eq. apply lookup_lt_Some in Hcur. exact Hcur. }
  destruct (Hw _ _ Hrtt) as (c0 & _ & Hws).
  rewrite Hws, Hrtt. simpl.
  eexists _, _. split; [reflexivity|]. split; [reflexivity|]. lia.
Qed.

(** The selector of a proxy started with two upstreams, after a first
    measurement of 200 ms on the second one. *)
Lemma calculateUpstreamWeights_weight_witness :
  let cfg := exampleConfig false false [goodUpstream "a"; goodUpstream "b"] None in
  let p := record 1 200 (startedProxy cfg) in
  upstreamsRtt p = [0; 200] /\
  result_of (calculateUpstreamWeights 0 10 p) = Ok tt /\
  exists w rtt : Z,
    weight_at (record 0 10 p) 0 = Some w /\
    rtt_at (record 0 10 p) 0 = Some rtt /\
    let sum := sumZ (upstreamsRtt (record 0 10 p)) in
    w = Z.max 1 (sum - rtt) /\
    1 <= w /\
    (1 <= sum - rtt -> w = sum - rtt) /\
    (w = 1 <-> sum - rtt <= 1).
Proof.
  intros cfg p. split; [reflexivity|].
  apply (calculateUpstreamWeights_weight 2 p 0 10).
  - split; [reflexivity | reflexivity |].
    repeat constructor; vm_compute; discriminate.
  - lia.
  - lia.
  - vm_compute. discriminate.
Defined.

(** C2 as worded fails.  With a single upstream the sum is the upstream's
    own RTT, so the weight 1 lies in no interval [1, 0]; with RTTs 5 and 1
    the first upstream has weight 1 although its RTT 5 is below the sum 6. *)
Lemma weight_in_interval_counterexample :
  let one := startedProxy (exampleConfig false false [goodUpstream "a"] None) in
  let two := startedProxy
               (exampleConfig false false [goodUpstream "a"; goodUpstream "b"] None) in
  (weight_at (record 0 7 one) 0 = Some 1 /\
   rtt_at (record 0 7 one) 0 = Some 7 /\
   sumZ (upstreamsRtt (record 0 7 one)) = 7 /\
   ~ weight_in_interval (record 0 7 one) 0) /\
  (weight_at (record 0 5 (record 1 1 two)) 0 = Some 1 /\
   rtt_at (record 0 5 (record 1 1 two)) 0 = Some 5 /\
   sumZ (upstreamsRtt (record 0 5 (record 1 1 two))) = 6 /\
   ~ weight_in_interval (record 0 5 (record 1 1 two)) 0).
Proof.
  intros one two. split.
  - repeat split; try reflexivity.
    intros (w & rtt & Hw & Hrtt & Hint & _).
    vm_compute in Hw, Hrtt. injection Hw as <-. injection Hrtt as <-.
    vm_compute in Hint. destruct Hint as [_ Hint]. apply Hint. reflexivity.
  - repeat split; try reflexivity.
    intros (w & rtt & Hw & Hrtt & _ & Hiff).
    vm_compute in Hw, Hrtt. injection Hw as <-. injection Hrtt as <-.
    destruct Hiff as [Hiff _]. specialize (Hiff eq_refl).
    vm_compute in Hiff. apply Hiff. reflexivity.
Qed.

(** ** Runs of [calculateUpstreamWeights] in general *)

Lemma calculateUpstreamWeights_trace (i r : Z) (p : Proxy) :
  trace_of (calculateUpstreamWeights i r p) = [EvCalculateUpstreamWeights i r].
Proof.
  unfold calculateUpstreamWeights, bind, emit, get, put, ret, panic, trace_of.
  destruct (index (upstreamsRtt p) i) as [cur|]; [|reflexivity].
  destruct (assignWeights _ _ _) as [ws [|]]; reflexivity.
Qed.

Lemma calculateUpstreamWeights_cache (i r : Z) (p : Proxy) :
  cache_ (proxy_of (calculateUpstreamWeights i r p)) = cache_ p.
Proof.
  unfold calculateUpstreamWeights, bind, emit, get, put, ret, panic, proxy_of.
  destruct (index (upstreamsRtt p) i) as [cur|]; [|reflexivity].
  destruct (assignWeights _ _ _) as [ws [|]]; reflexivity.
Qed.

(** With the index in range and a weight for every RTT the function does
    not panic, whatever the numbers are. *)
Lemma calculateUpstreamWeights_no_panic (i r : Z) (p : Proxy) :
  0 <= i < Z.of_nat (length (upstreamsRtt p)) ->
  length (upstreamsRtt p) = length (upstreamsWeighted p) ->
  result_of (calculateUpstreamWeights i r p) = Ok tt.
Proof.
  intros Hi Hlen.
  destruct (index_lookup (upstreamsRtt p) i Hi) as (cur & Hidx & _).
  unfold calculateUpstreamWeights, bind, emit, get, put, ret, panic, result_of.
  rewrite Hidx.
  match goal with
  | |- context [assignWeights ?s ?rs ?ws] =>
      destruct (assignWeights_ok s rs ws) as (ws' & -> & _)
  end; [|reflexivity].
  rewrite length_insert. exact Hlen.
Qed.

Lemma run_eta {A : Type} (r : Result A * Proxy * list Event) :
  r = (result_of r, proxy_of r, trace_of r).
Proof. destruct r as [[? ?] ?]. reflexivity. Qed.

(** ** [Resolve] after a cache miss *)

Lemma Resolve_miss (cfg : Config) (env : Env) (d : DNSContext) (p : Proxy)
    (u : upstream.Upstream) (reply : option dns.Msg) (err : error) :
  cached p (Req d) = None ->
  Upstream d = Some u ->
  upstream.Exchange u (Req d) = (reply, err) ->
  let rtt := resolveRtt env err in
  let scored := calculateUpstreamWeights (UpstreamIdx d) rtt p in
  let pre := cacheGetTrace p (Req d)
             ++ [EvExchange PrimaryExchange (upstream.Address u) (Req d);
                 EvCalculateUpstreamWeights (UpstreamIdx d) rtt] in
  let final := afterFallback cfg (Req d) reply err in
  Resolve cfg env d p =
    match result_of scored with
    | Panic why => (Panic why, proxy_of scored, pre)
    | Ok _ =>
        (Ok (set_Res d (Some (finalResponse (Req d) final.1)), final.2),
         proxy_of scored,
         pre ++ fallbackTrace cfg (Req d) err ++ cacheSetTrace p final.1)
    end.
Proof.
  intros Hmiss Hu Hex rtt scored pre final.
  pose proof (calculateUpstreamWeights_trace (UpstreamIdx d) rtt p) as Htr.
  pose proof (calculateUpstreamWeights_cache (UpstreamIdx d) rtt p) as Hca.
  pose proof (run_eta scored) as Heta. fold scored in Htr, Hca.
  assert (Hscore :
    calculateUpstreamWeights (UpstreamIdx d)
      match err with
      | Some _ => GoInt.int defaultTimeout
      | None => GoInt.int (Since env ÷ Millisecond)
      end p = (result_of scored, proxy_of scored,
               [EvCalculateUpstreamWeights (UpstreamIdx d) rtt])).
  { rewrite <- Htr. exact Heta. }
  unfold Resolve. unfold bind at 1. unfold get at 1.
  unfold cached in Hmiss. unfold pre, cacheGetTrace, final, afterFallback,
    fallbackTrace, cacheSetTrace.
  destruct (cache_ p) as [c|] eqn:Hc.
  - unfold bind at 1. unfold bind at 1. unfold emit at 1.
    assert (Hget : match Get c (Req d) with
                   | (Some val, true) => ret (Some val)
                   | _ => ret None
                   end p = (Ok None, p, [])).
    { destruct (Get c (Req d)) as [[val|] [|]]; try discriminate; reflexivity. }
    rewrite Hget. rewrite Hu.
    unfold bind at 1. unfold emit at 1. rewrite Hex.
    unfold bind at 1. rewrite Hscore.
    destruct (result_of scored) as [[]|why]; [|reflexivity].
    unfold bind, get, emit, ret.
    destruct err as [e|], (Fallback cfg) as [fb|]; simpl;
      try destruct (upstream.Exchange fb (Req d)) as [[r'|] err'];
      destruct reply as [r|]; simpl; rewrite ?Hca; reflexivity.
  - unfold bind at 1. unfold ret at 1. rewrite Hu.
    unfold bind at 1. unfold emit at 1. rewrite Hex.
    unfold bind at 1. rewrite Hscore.
    destruct (result_of scored) as [[]|why]; [|reflexivity].
    unfold bind, get, emit, ret.
    destruct err as [e|], (Fallback cfg) as [fb|]; simpl;
      try destruct (upstream.Exchange fb (Req d)) as [[r'|] err'];
      destruct reply as [r|]; simpl; rewrite ?Hca; reflexivity.
Qed.

Lemma recorded_app (t1 t2 : list Event) :
  recorded (t1 ++ t2) = recorded t1 ++ recorded t2.
Proof. apply omap_app. Qed.

Lemma recorded_cacheGetTrace (p : Proxy) (req : dns.Msg) :
  recorded (cacheGetTrace p req) = [].
Proof. unfold cacheGetTrace. destruct (cache_ p); reflexivity. Qed.

Lemma recorded_fallbackTrace (cfg : Config) (req : dns.Msg) (err : error) :
  recorded (fallbackTrace cfg req err) = [].
Proof. unfold fallbackTrace. destruct err, (Fallback cfg); reflexivity. Qed.

Lemma recorded_cacheSetTrace (p : Proxy) (reply : option dns.Msg) :
  recorded (cacheSetTrace p reply) = [].
Proof. unfold cacheSetTrace. destruct (cache_ p), reply; reflexivity. Qed.

(** Whether it panics or not, [Resolve] scores the primary upstream exactly
    once after a cache miss. *)
Lemma Resolve_miss_recorded (cfg : Config) (env : Env) (d : DNSContext) (p : Proxy)
    (u : upstream.Upstream) (reply : option dns.Msg) (err : error) :
  cached p (Req d) = None ->
  Upstream d = Some u ->
  upstream.Exchange u (Req d) = (reply, err) ->
  recorded (trace_of (Resolve cfg env d p)) = [(UpstreamIdx d, resolveRtt env err)].
Proof.
  intros Hmiss Hu Hex. rewrite (Resolve_miss cfg env d p u reply err Hmiss Hu Hex).
  cbv zeta.
  destruct (result_of (calculateUpstreamWeights _ _ p)) as [[]|why];
    unfold trace_of; simpl;
    rewrite !recorded_app, ?recorded_cacheGetTrace, ?recorded_fallbackTrace,
      ?recorded_cacheSetTrace; reflexivity.
Qed.

(** C1, on the code: when the primary exchange returns an error, the RTT
    handed to [calculateUpstreamWeights] is [int(defaultTimeout)], the
    timeout as a count of nanoseconds, 10,000,000,000; the 10,000 of the
    claim is that timeout in milliseconds, the unit of every other RTT. *)
Theorem Resolve_records_default_timeout (cfg : Config) (env : Env)
    (d : DNSContext) (p : Proxy) (u : upstream.Upstream)
    (reply : option dns.Msg) (e : error_value) :
  cached p (Req d) = None ->
  Upstream d = Some u ->
  upstream.Exchange u (Req d) = (reply, Some e) ->
  recorded (trace_of (Resolve cfg env d p)) = [(UpstreamIdx d, 10000000000)] /\
  Z.quot defaultTimeout Millisecond = 10000.
Proof.
  intros Hmiss Hu Hex. split; [|reflexivity].
  rewrite (Resolve_miss_recorded cfg env d p u reply (Some e) Hmiss Hu Hex).
  reflexivity.
Qed.

(** On a 32-bit target the conversion wraps on top of that. *)
Example defaultTimeout_int32 : GoInt.int32 defaultTimeout = 1410065408.
Proof. reflexivity. Qed.

(** A proxy with one upstream that times out. *)
Lemma Resolve_records_default_timeout_witness :
  let u := deadUpstream "192.0.2.1:53" in
  let cfg := exampleConfig false false [u] None in
  let d := set_Upstream (exampleContext ProtoUDP (exampleRequest [exampleQuestion 1])) u 0 in
  upstream.Exchange u (Req d) = (None, Some (errors_New "i/o timeout")) /\
  recorded (trace_of (Resolve cfg (exampleEnv false) d (startedProxy cfg)))
    = [(0, 10000000000)] /\
  Z.quot defaultTimeout Millisecond = 10000.
Proof.
  intros u cfg d. split; [reflexivity|].
  apply (Resolve_records_default_timeout cfg (exampleEnv false) d (startedProxy cfg)
           u None (errors_New "i/o timeout")); reflexivity.
Defined.

Lemma filter_fallback_cacheGetTrace (p : Proxy) (req : dns.Msg) :
  List.filter isFallbackExchange (cacheGetTrace p req) = [].
Proof. unfold cacheGetTrace. destruct (cache_ p); reflexivity. Qed.

Lemma filter_fallback_cacheSetTrace (p : Proxy) (reply : option dns.Msg) :
  List.filter isFallbackExchange (cacheSetTrace p reply) = [].
Proof. unfold cacheSetTrace. destruct (cache_ p), reply; reflexivity. Qed.

(** C6: when the primary exchange fails and a fallback is configured,
    [Resolve] calls the fallback exactly once, scores exactly one RTT, the
    primary's substituted one, and leaves the selector as that one score
    leaves it, whatever the fallback does. *)
Theorem Resolve_fallback_once (cfg : Config) (env : Env) (d : DNSContext)
    (p : Proxy) (u fb : upstream.Upstream) (reply : option dns.Msg)
    (e : error_value) :
  cached p (Req d) = None ->
  Upstream d = Some u ->
  upstream.Exchange u (Req d) = (reply, Some e) ->
  Fallback cfg = Some fb ->
  0 <= UpstreamIdx d < Z.of_nat (length (upstreamsRtt p)) ->
  length (upstreamsRtt p) = length (upstreamsWeighted p) ->
  let run := Resolve cfg env d p in
  (exists d' err, result_of run = Ok (d', err)) /\
  List.filter isFallbackExchange (trace_of run)
    = [EvExchange FallbackExchange (upstream.Address fb) (Req d)] /\
  recorded (trace_of run) = [(UpstreamIdx d, GoInt.int defaultTimeout)] /\
  proxy_of run = record (UpstreamIdx d) (GoInt.int defaultTimeout) p.
Proof.
  intros Hmiss Hu Hex Hfb Hidx Hlen run.
  assert (Hrec : recorded (trace_of run) = [(UpstreamIdx d, GoInt.int defaultTimeout)])
    by (apply (Resolve_miss_recorded cfg env d p u reply (Some e)); assumption).
  unfold run in *. clear run.
  rewrite (Resolve_miss cfg env d p u reply (Some e) Hmiss Hu Hex) in *.
  cbv zeta in *. unfold resolveRtt in *.
  rewrite (calculateUpstreamWeights_no_panic _ (GoInt.int defaultTimeout) p Hidx Hlen) in *.
  split; [eauto|]. split; [|split; [exact Hrec | reflexivity]].
  unfold trace_of, fallbackTrace. simpl. rewrite Hfb.
  rewrite !List.filter_app, filter_fallback_cacheGetTrace,
    filter_fallback_cacheSetTrace. reflexivity.
Qed.

Lemma Resolve_fallback_once_witness :
  let u := deadUpstream "192.0.2.1:53" in
  let fb := goodUpstream "8.8.8.8:53" in
  let cfg := exampleConfig false true [u] (Some fb) in
  let p := startedProxy cfg in
  let d := set_Upstream (exampleContext ProtoUDP (exampleRequest [exampleQuestion 1])) u 0 in
  let run := Resolve cfg (exampleEnv false) d p in
  (exists d' err, result_of run = Ok (d', err)) /\
  List.filter isFallbackExchange (trace_of run)
    = [EvExchange FallbackExchange "8.8.8.8:53" (Req d)] /\
  recorded (trace_of run) = [(0, GoInt.int defaultTimeout)] /\
  proxy_of run = record 0 (GoInt.int defaultTimeout) p.
Proof.
  intros u fb cfg p d.
  apply (Resolve_fallback_once cfg (exampleEnv false) d p u fb None
           (errors_New "i/o timeout")); try reflexivity.
  vm_compute. split; [discriminate | reflexivity].
Defined.

(** C7, as the code has it: line 242 assigns both results of the fallback
    exchange, so after a failed primary exchange [Resolve] returns the
    error of the fallback exchange, which is nil when the fallback
    succeeds; the primary's error is dropped.  The response is the
    fallback's reply, or SERVFAIL when that is nil. *)
Theorem Resolve_returns_fallback_error (cfg : Config) (env : Env)
    (d : DNSContext) (p : Proxy) (u fb : upstream.Upstream)
    (reply : option dns.Msg) (e : error_value) :
  cached p (Req d) = None ->
  Upstream d = Some u ->
  upstream.Exchange u (Req d) = (reply, Some e) ->
  Fallback cfg = Some fb ->
  0 <= UpstreamIdx d < Z.of_nat (length (upstreamsRtt p)) ->
  length (upstreamsRtt p) = length (upstreamsWeighted p) ->
  let answer := upstream.Exchange fb (Req d) in
  result_of (Resolve cfg env d p)
    = Ok (set_Res d (Some (finalResponse (Req d) answer.1)), answer.2) /\
  (answer.2 = None -> snd <$> value_of (Resolve cfg env d p) = Some None).
Proof.
  intros Hmiss Hu Hex Hfb Hidx Hlen answer.
  assert (Hrun : result_of (Resolve cfg env d p)
    = Ok (set_Res d (Some (finalResponse (Req d) answer.1)), answer.2)).
  { rewrite (Resolve_miss cfg env d p u reply (Some e) Hmiss Hu Hex).
    cbv zeta. unfold resolveRtt.
    rewrite (calculateUpstreamWeights_no_panic _ (GoInt.int defaultTimeout) p Hidx Hlen).
    unfold afterFallback. rewrite Hfb. reflexivity. }
  split; [exact Hrun|].
  intros Hnil. unfold value_of. rewrite Hrun. simpl. rewrite Hnil. reflexivity.
Qed.

Lemma Resolve_returns_fallback_error_witness :
  let u := deadUpstream "192.0.2.1:53" in
  let fb := goodUpstream "8.8.8.8:53" in
  let cfg := exampleConfig false false [u] (Some fb) in
  let p := startedProxy cfg in
  let d := set_Upstream (exampleContext ProtoUDP (exampleRequest [exampleQuestion 1])) u 0 in
  let answer := upstream.Exchange fb (Req d) in
  answer.2 = None /\
  result_of (Resolve cfg (exampleEnv false) d p)
    = Ok (set_Res d (Some (finalResponse (Req d) answer.1)), answer.2) /\
  (answer.2 = None ->
   snd <$> value_of (Resolve cfg (exampleEnv false) d p) = Some None).
Proof.
  intros u fb cfg p d answer. split; [reflexivity|].
  apply (Resolve_returns_fallback_error cfg (exampleEnv false) d p u fb None
           (errors_New "i/o timeout")); try reflexivity.
  vm_compute. split; [discriminate | reflexivity].
Defined.

(** C7 as worded fails: the primary times out, the fallback answers, and
    [Resolve] returns a nil error, not the primary's "i/o timeout". *)
Lemma Resolve_primary_error_counterexample :
  let u := deadUpstream "192.0.2.1:53" in
  let fb := goodUpstream "8.8.8.8:53" in
  let cfg := exampleConfig false false [u] (Some fb) in
  let p := startedProxy cfg in
  let d := set_Upstream (exampleContext ProtoUDP (exampleRequest [exampleQuestion 1])) u 0 in
  upstream.Exchange u (Req d) = (None, Some (errors_New "i/o timeout")) /\
  upstream.Exchange fb (Req d) = (Some (exampleReply (Req d)), None) /\
  snd <$> value_of (Resolve cfg (exampleEnv false) d p) = Some None /\
  snd <$> value_of (Resolve cfg (exampleEnv false) d p)
    <> Some (Some (errors_New "i/o timeout")).
Proof.
  intros u fb cfg p d. repeat split; try reflexivity.
  vm_compute. discriminate.
Qed.

(** ** Running the monad *)

Lemma bind_ret {A B : Type} (a : A) (k : A -> M B) (p : Proxy) :
  bind (ret a) k p = k a p.
Proof. unfold bind, ret. destruct (k a p) as [[r p'] t]. reflexivity. Qed.

Lemma bind_run {A B : Type} (m : M A) (k : A -> M B) (p p' : Proxy) (a : A)
    (t : list Event) :
  m p = (Ok a, p', t) ->
  bind m k p = (result_of (k a p'), proxy_of (k a p'), t ++ trace_of (k a p')).
Proof.
  intros Hm. unfold bind. rewrite Hm.
  destruct (k a p') as [[r p''] t']. reflexivity.
Qed.

Lemma bind_panic {A B : Type} (m : M A) (k : A -> M B) (p p' : Proxy)
    (why : string) (t : list Event) :
  m p = (Panic why, p', t) -> bind m k p = (Panic why, p', t).
Proof. intros Hm. unfold bind. rewrite Hm. reflexivity. Qed.

(** ** The pipeline up to the upstream *)

Lemma ratelimitCheck_run (env : Env) (d : DNSContext) (p : Proxy) :
  ratelimitCheck env d p = (Ok (dropped env d), p, ratelimitTrace d).
Proof.
  unfold ratelimitCheck, dropped, ratelimitTrace, bind, emit, ret.
  destruct (String.eqb (Proto d) ProtoUDP); reflexivity.
Qed.

Lemma respond_run (d : DNSContext) (p : Proxy) :
  respond d p =
    (Ok tt, p, match Res d with
               | Some res => respondTrace (Proto d) res
               | None => []
               end).
Proof.
  unfold respond, respondTrace, writerOf, emit, ret.
  destruct (Res d) as [res|]; [|reflexivity].
  repeat (destruct (String.eqb (Proto d) _); [reflexivity|]). reflexivity.
Qed.

(** The last three lines of [handleDNSRequest] once a response is there. *)
Lemma finish_run (d : DNSContext) (err : error) (res : dns.Msg) (p : Proxy) :
  Res d = Some res ->
  (logDNSMessage (Res d) ;;; respond d ;;; ret (d, err)) p
    = (Ok (d, err), p, respondTrace (Proto d) res).
Proof.
  intros Hres. rewrite Hres. unfold logDNSMessage. rewrite bind_ret.
  rewrite (bind_run _ _ _ _ _ _ (respond_run d p)). rewrite Hres.
  unfold ret, result_of, proxy_of, trace_of. simpl. rewrite app_nil_r.
  reflexivity.
Qed.

(** The pipeline after its first two lines. *)
Lemma handleDNSRequest_start (cfg : Config) (env : Env) (d : DNSContext)
    (p : Proxy) :
  handleDNSRequest cfg env d p =
    bind (ratelimitCheck env (set_StartTime d (Now env)))
         (fun limited =>
            if limited then ret (set_StartTime d (Now env), None)
            else
              let d := set_StartTime d (Now env) in
              let d := if negb (Z.of_nat (length (dns.Question_ (Req d))) =? 1)
                       then set_Res d (Some (genServerFailure (Req d)))
                       else d in
              let d := if refusesAny cfg (Req d)
                       then set_Res d (Some (genNotImpl (Req d)))
                       else d in
              let* (d, err) :=
                match Res d with
                | None =>
                    let* (dnsUpstream, upstreamIdx) := chooseUpstream cfg env in
                    let d := set_Upstream d dnsUpstream upstreamIdx in
                    let* (d, err) :=
                      match Handler cfg with
                      | Some handler => handler d
                      | None => Resolve cfg env d
                      end in
                    match err with
                    | Some e =>
                        ret (d, Some (errorx_Decorate e "talking to dnsUpstream failed"))
                    | None => ret (d, None)
                    end
                | Some _ => ret (d, None)
                end in
              logDNSMessage (Res d) ;;; respond d ;;; ret (d, err)) p.
Proof. unfold handleDNSRequest, logDNSMessage. rewrite bind_ret. reflexivity. Qed.

(** A request the rate limiter denies: line 643 returns at once. *)
Lemma handleDNSRequest_dropped (cfg : Config) (env : Env) (d : DNSContext)
    (p : Proxy) :
  dropped env d = true ->
  handleDNSRequest cfg env d p =
    (Ok (set_StartTime d (Now env), None), p, [EvIsRatelimited (Addr d)]).
Proof.
  intros Hdrop. rewrite handleDNSRequest_start.
  rewrite (bind_run _ _ _ _ _ _ (ratelimitCheck_run env _ p)).
  change (dropped env (set_StartTime d (Now env))) with (dropped env d).
  rewrite Hdrop. unfold ret, result_of, proxy_of, trace_of, ratelimitTrace.
  ctx_simpl. unfold dropped in Hdrop.
  apply andb_true_iff in Hdrop as [-> _]. reflexivity.
Qed.

(** A request one of the two checks answers: no upstream is chosen, the
    response is written, the error is nil. *)
Lemma handleDNSRequest_refused (cfg : Config) (env : Env) (d : DNSContext)
    (p : Proxy) (res : dns.Msg) :
  dropped env d = false ->
  refusal cfg (Req d) = Some res ->
  handleDNSRequest cfg env d p =
    (Ok (set_Res (set_StartTime d (Now env)) (Some res), None), p,
     ratelimitTrace d ++ respondTrace (Proto d) res).
Proof.
  intros Hdrop Href. rewrite handleDNSRequest_start.
  rewrite (bind_run _ _ _ _ _ _ (ratelimitCheck_run env _ p)).
  change (dropped env (set_StartTime d (Now env))) with (dropped env d).
  change (ratelimitTrace (set_StartTime d (Now env))) with (ratelimitTrace d).
  rewrite Hdrop. unfold refusal in Href. cbv zeta. ctx_simpl.
  destruct (negb (Z.of_nat (length (dns.Question_ (Req d))) =? 1)) eqn:Hcount;
    ctx_simpl;
    destruct (refusesAny cfg (Req d)) eqn:Hany;
    ctx_simpl; try discriminate; injection Href as <-;
    rewrite bind_ret; cbv beta iota;
    erewrite finish_run by reflexivity; reflexivity.
Qed.

Lemma contactsUpstream_refused_trace (d : DNSContext) (res : dns.Msg) :
  Forall (fun e => contactsUpstream e = false)
         (ratelimitTrace d ++ respondTrace (Proto d) res).
Proof.
  apply Forall_app. split.
  - unfold ratelimitTrace. destruct (String.eqb _ _); repeat constructor.
  - unfold respondTrace. destruct (writerOf _); repeat constructor.
Qed.

Lemma genServerFailure_isServerFailure (req : dns.Msg) :
  isServerFailure req (genServerFailure req).
Proof.
  unfold isServerFailure, genServerFailure, dns.SetRcode, dns.SetReply. simpl.
  repeat split.
Qed.

Lemma genNotImpl_isNotImpl (req : dns.Msg) : isNotImpl req (genNotImpl req).
Proof.
  unfold isNotImpl, genNotImpl, dns.SetRcode, dns.SetReply. simpl.
  repeat split.
  exists (dns.optRR 1452 false). repeat split.
Qed.

Lemma refused_answersWithoutUpstream (want : dns.Msg -> dns.Msg -> Prop)
    (cfg : Config) (env : Env) (d : DNSContext) (p : Proxy) (res : dns.Msg) :
  dropped env d = false ->
  refusal cfg (Req d) = Some res ->
  want (Req d) res ->
  answersWithoutUpstream want cfg env d p.
Proof.
  intros Hdrop Href Hwant. unfold answersWithoutUpstream.
  rewrite (handleDNSRequest_refused cfg env d p res Hdrop Href).
  eexists _, _. split; [reflexivity|]. split.
  - exists res. split; [reflexivity | exact Hwant].
  - apply contactsUpstream_refused_trace.
Qed.

Lemma dropped_not_answered (want : dns.Msg -> dns.Msg -> Prop)
    (cfg : Config) (env : Env) (d : DNSContext) (p : Proxy) :
  dropped env d = true -> Res d = None ->
  ~ answersWithoutUpstream want cfg env d p.
Proof.
  intros Hdrop Hnone (d' & err & Hrun & (res & Hres & _) & _).
  rewrite (handleDNSRequest_dropped cfg env d p Hdrop) in Hrun.
  injection Hrun as <- _. simpl in Hres. congruence.
Qed.

(** C3, as the code has it: a request that the rate limiter does not drop,
    whose question count is not 1 and which the ANY check does not refuse,
    is answered with SERVFAIL (rcode 2, RecursionAvailable set, the
    request's Id and first question, if any, copied); no upstream is
    selected or contacted, and the error is nil. *)
Theorem handleDNSRequest_question_count (cfg : Config) (env : Env)
    (d : DNSContext) (p : Proxy) :
  length (dns.Question_ (Req d)) <> 1%nat ->
  dropped env d = false ->
  refusesAny cfg (Req d) = false ->
  handleDNSRequest cfg env d p =
    (Ok (set_Res (set_StartTime d (Now env)) (Some (genServerFailure (Req d))), None),
     p,
     ratelimitTrace d ++ respondTrace (Proto d) (genServerFailure (Req d))) /\
  answersWithoutUpstream isServerFailure cfg env d p.
Proof.
  intros Hcount Hdrop Hany.
  assert (Href : refusal cfg (Req d) = Some (genServerFailure (Req d))).
  { unfold refusal. rewrite Hany.
    destruct (Z.eqb_spec (Z.of_nat (length (dns.Question_ (Req d)))) 1) as [E|E];
      [lia | reflexivity]. }
  split.
  - apply handleDNSRequest_refused; assumption.
  - eapply refused_answersWithoutUpstream; eauto.
    apply genServerFailure_isServerFailure.
Qed.

Lemma handleDNSRequest_question_count_witness :
  let cfg := exampleConfig true false [goodUpstream "8.8.8.8:53"] None in
  let req := exampleRequest [exampleQuestion 1; exampleQuestion 28] in
  let d := exampleContext ProtoTCP req in
  let p := startedProxy cfg in
  handleDNSRequest cfg (exampleEnv true) d p =
    (Ok (set_Res (set_StartTime d 1000) (Some (genServerFailure req)), None),
     p, [EvRespond respondTCP (genServerFailure req)]) /\
  answersWithoutUpstream isServerFailure cfg (exampleEnv true) d p.
Proof.
  intros cfg req d p.
  apply (handleDNSRequest_question_count cfg (exampleEnv true) d p).
  - simpl. lia.
  - reflexivity.
  - reflexivity.
Defined.

(** C3 as worded fails twice over: a UDP request with two questions that
    the rate limiter denies gets no response at all, and with refuse_any on
    a two-question request whose first question is ANY gets NOTIMPL. *)
Lemma servfail_counterexample :
  let cfg := exampleConfig false false [goodUpstream "8.8.8.8:53"] None in
  let cfgAny := exampleConfig true false [goodUpstream "8.8.8.8:53"] None in
  let req := exampleRequest [exampleQuestion 255; exampleQuestion 1] in
  let udp := exampleContext ProtoUDP req in
  let tcp := exampleContext ProtoTCP req in
  length (dns.Question_ req) = 2%nat /\
  (handleDNSRequest cfg (exampleEnv true) udp (startedProxy cfg)
     = (Ok (set_StartTime udp 1000, None), startedProxy cfg,
        [EvIsRatelimited (Addr udp)]) /\
   Res (set_StartTime udp 1000) = None /\
   ~ answersWithoutUpstream isServerFailure cfg (exampleEnv true) udp
       (startedProxy cfg)) /\
  (handleDNSRequest cfgAny (exampleEnv false) tcp (startedProxy cfgAny)
     = (Ok (set_Res (set_StartTime tcp 1000) (Some (genNotImpl req)), None),
        startedProxy cfgAny, [EvRespond respondTCP (genNotImpl req)]) /\
   dns.Rcode (genNotImpl req) = 4 /\
   ~ answersWithoutUpstream isServerFailure cfgAny (exampleEnv false) tcp
       (startedProxy cfgAny)).
Proof.
  intros cfg cfgAny req udp tcp. split; [reflexivity|]. split.
  - split; [reflexivity|]. split; [reflexivity|].
    apply dropped_not_answered; reflexivity.
  - split; [reflexivity|]. split; [reflexivity|].
    intros (d' & err & Hrun & (res & Hres & Hrcode & _) & _).
    rewrite (handleDNSRequest_refused cfgAny (exampleEnv false) tcp
               (startedProxy cfgAny) (genNotImpl req) eq_refl eq_refl) in Hrun.
    injection Hrun as <- _. simpl in Hres. injection Hres as <-.
    vm_compute in Hrcode. discriminate.
Qed.

Lemma refusesAny_first (cfg : Config) (req : dns.Msg) (q : dns.Question)
    (qs : list dns.Question) :
  RefuseAny cfg = true -> dns.Question_ req = q :: qs ->
  dns.Qtype q = dns.TypeANY -> refusesAny cfg req = true.
Proof.
  intros Hon Hq Hany. unfold refusesAny. rewrite Hon, Hq, Hany. reflexivity.
Qed.

(** C4, as the code has it: with refuse_any on, a single-question ANY
    request that the rate limiter does not drop is answered with NOTIMPL
    (rcode 4, RecursionAvailable set, an OPT record of UDP size 1452 with
    DO clear); no upstream is selected or contacted. *)
Theorem handleDNSRequest_refuses_any (cfg : Config) (env : Env)
    (d : DNSContext) (p : Proxy) (q : dns.Question) :
  RefuseAny cfg = true ->
  dns.Question_ (Req d) = [q] ->
  dns.Qtype q = dns.TypeANY ->
  dropped env d = false ->
  handleDNSRequest cfg env d p =
    (Ok (set_Res (set_StartTime d (Now env)) (Some (genNotImpl (Req d))), None),
     p,
     ratelimitTrace d ++ respondTrace (Proto d) (genNotImpl (Req d))) /\
  answersWithoutUpstream isNotImpl cfg env d p.
Proof.
  intros Hon Hq Hany Hdrop.
  assert (Href : refusal cfg (Req d) = Some (genNotImpl (Req d))).
  { unfold refusal. rewrite (refusesAny_first cfg (Req d) q [] Hon Hq Hany).
    reflexivity. }
  split.
  - apply handleDNSRequest_refused; assumption.
  - eapply refused_answersWithoutUpstream; eauto. apply genNotImpl_isNotImpl.
Qed.

Lemma handleDNSRequest_refuses_any_witness :
  let cfg := exampleConfig true false [goodUpstream "8.8.8.8:53"] None in
  let req := exampleRequest [exampleQuestion 255] in
  let d := exampleContext ProtoUDP req in
  let p := startedProxy cfg in
  handleDNSRequest cfg (exampleEnv false) d p =
    (Ok (set_Res (set_StartTime d 1000) (Some (genNotImpl req)), None),
     p, [EvIsRatelimited (Addr d); EvRespond respondUDP (genNotImpl req)]) /\
  answersWithoutUpstream isNotImpl cfg (exampleEnv false) d p.
Proof.
  intros cfg req d p.
  apply (handleDNSRequest_refuses_any cfg (exampleEnv false) d p (exampleQuestion 255));
    reflexivity.
Defined.

(** C4 as worded fails for the ANY requests the rate limiter denies: over
    UDP such a request returns at line 643 and gets no response. *)
Lemma refuses_any_counterexample :
  let cfg := exampleConfig true false [goodUpstream "8.8.8.8:53"] None in
  let req := exampleRequest [exampleQuestion 255] in
  let d := exampleContext ProtoUDP req in
  RefuseAny cfg = true /\ dns.Question_ req = [exampleQuestion 255] /\
  handleDNSRequest cfg (exampleEnv true) d (startedProxy cfg)
    = (Ok (set_StartTime d 1000, None), startedProxy cfg,
       [EvIsRatelimited (Addr d)]) /\
  Res (set_StartTime d 1000) = None /\
  ~ answersWithoutUpstream isNotImpl cfg (exampleEnv true) d (startedProxy cfg).
Proof.
  intros cfg req d. repeat split; try reflexivity.
  apply dropped_not_answered; reflexivity.
Qed.

(** C10, as the code has it: with refuse_any on, a request of two or more
    questions whose first question is ANY, and which the rate limiter does
    not drop, ends with the NOTIMPL of the ANY check, not the SERVFAIL that
    the question-count check had put into the context (and that is the
    response when refuse_any is off). *)
Theorem handleDNSRequest_any_overrides_count (cfg : Config) (env : Env)
    (d : DNSContext) (p : Proxy) (q : dns.Question) (qs : list dns.Question) :
  RefuseAny cfg = true ->
  dns.Question_ (Req d) = q :: qs ->
  (2 <= length (q :: qs))%nat ->
  dns.Qtype q = dns.TypeANY ->
  dropped env d = false ->
  handleDNSRequest cfg env d p =
    (Ok (set_Res (set_StartTime d (Now env)) (Some (genNotImpl (Req d))), None),
     p,
     ratelimitTrace d ++ respondTrace (Proto d) (genNotImpl (Req d))) /\
  answersWithoutUpstream isNotImpl cfg env d p /\
  dns.Rcode (genNotImpl (Req d)) = 4 /\
  dns.Rcode (genNotImpl (Req d)) <> dns.RcodeServerFailure /\
  forall cfg', RefuseAny cfg' = false ->
    refusal cfg' (Req d) = Some (genServerFailure (Req d)).
Proof.
  intros Hon Hq Hlen Hany Hdrop.
  assert (Href : refusal cfg (Req d) = Some (genNotImpl (Req d))).
  { unfold refusal. rewrite (refusesAny_first cfg (Req d) q qs Hon Hq Hany).
    reflexivity. }
  split; [apply handleDNSRequest_refused; assumption|].
  split; [eapply refused_answersWithoutUpstream; eauto; apply genNotImpl_isNotImpl|].
  split; [reflexivity|]. split; [discriminate|].
  intros cfg' Hoff. unfold refusal, refusesAny. rewrite Hoff, Hq. simpl andb.
  destruct (Z.eqb_spec (Z.of_nat (length (q :: qs))) 1) as [E|E];
    [lia | reflexivity].
Qed.

Lemma handleDNSRequest_any_overrides_count_witness :
  let cfg := exampleConfig true false [goodUpstream "8.8.8.8:53"] None in
  let req := exampleRequest [exampleQuestion 255; exampleQuestion 1] in
  let d := exampleContext ProtoTLS req in
  let p := startedProxy cfg in
  handleDNSRequest cfg (exampleEnv false) d p =
    (Ok (set_Res (set_StartTime d 1000) (Some (genNotImpl req)), None),
     p, [EvRespond respondTCP (genNotImpl req)]) /\
  answersWithoutUpstream isNotImpl cfg (exampleEnv false) d p /\
  dns.Rcode (genNotImpl req) = 4 /\
  dns.Rcode (genNotImpl req) <> dns.RcodeServerFailure /\
  forall cfg', RefuseAny cfg' = false ->
    refusal cfg' req = Some (genServerFailure req).
Proof.
  intros cfg req d p.
  apply (handleDNSRequest_any_overrides_count cfg (exampleEnv false) d p
           (exampleQuestion 255) [exampleQuestion 1]);
    [reflexivity | reflexivity | simpl; lia | reflexivity | reflexivity].
Defined.

(** C10 as worded fails for the requests the rate limiter denies: over UDP
    such a request gets neither NOTIMPL nor SERVFAIL, but no response. *)
Lemma any_overrides_count_counterexample :
  let cfg := exampleConfig true false [goodUpstream "8.8.8.8:53"] None in
  let req := exampleRequest [exampleQuestion 255; exampleQuestion 1] in
  let d := exampleContext ProtoUDP req in
  RefuseAny cfg = true /\ length (dns.Question_ req) = 2%nat /\
  handleDNSRequest cfg (exampleEnv true) d (startedProxy cfg)
    = (Ok (set_StartTime d 1000, None), startedProxy cfg,
       [EvIsRatelimited (Addr d)]) /\
  Res (set_StartTime d 1000) = None /\
  ~ answersWithoutUpstream isNotImpl cfg (exampleEnv true) d (startedProxy cfg).
Proof.
  intros cfg req d. repeat split; try reflexivity.
  apply dropped_not_answered; reflexivity.
Qed.

(** ** Properties of all events of a run *)

Section TraceSat.

Context {P : Event -> Prop}.

Lemma ts_ret {A : Type} (a : A) : trace_sat P (ret a).
Proof. intros p. constructor. Qed.

Lemma ts_panic {A : Type} (why : string) : trace_sat P (@panic A why).
Proof. intros p. constructor. Qed.

Lemma ts_get : trace_sat P get.
Proof. intros p. constructor. Qed.

Lemma ts_put (p' : Proxy) : trace_sat P (put p').
Proof. intros p. constructor. Qed.

Lemma ts_emit (e : Event) : P e -> trace_sat P (emit e).
Proof. intros He p. repeat constructor. exact He. Qed.

Lemma ts_bind {A B : Type} (m : M A) (k : A -> M B) :
  trace_sat P m -> (forall a, trace_sat P (k a)) -> trace_sat P (bind m k).
Proof.
  intros Hm Hk p. specialize (Hm p). unfold bind, trace_of in *.
  destruct (m p) as [[[a|why] p'] t]; simpl in *; [|exact Hm].
  specialize (Hk a p'). unfold trace_of in Hk.
  destruct (k a p') as [[r p''] t']. simpl in *.
  apply Forall_app. split; assumption.
Qed.

End TraceSat.

Ltac ts_step :=
  first
    [ apply ts_ret | apply ts_panic | apply ts_get | apply ts_put
    | apply ts_emit; reflexivity
    | apply ts_bind; [|intros]
    | match goal with
      | |- trace_sat _ (match ?x with _ => _ end) => destruct x
      end ].

Lemma calculateUpstreamWeights_quiet (i r : Z) :
  trace_sat (fun e => consultsRatelimiter e = false) (calculateUpstreamWeights i r).
Proof. unfold calculateUpstreamWeights. repeat ts_step. Qed.

Lemma chooseUpstream_quiet (cfg : Config) (env : Env) :
  trace_sat (fun e => consultsRatelimiter e = false) (chooseUpstream cfg env).
Proof. unfold chooseUpstream. cbv zeta. repeat ts_step. Qed.

Lemma Resolve_quiet (cfg : Config) (env : Env) (d : DNSContext) :
  trace_sat (fun e => consultsRatelimiter e = false) (Resolve cfg env d).
Proof.
  unfold Resolve. cbv zeta.
  repeat first [apply calculateUpstreamWeights_quiet | ts_step].
Qed.

Lemma respond_quiet (d : DNSContext) :
  trace_sat (fun e => consultsRatelimiter e = false) (respond d).
Proof. unfold respond. repeat ts_step. Qed.

(** Outside UDP the default pipeline never asks the rate limiter. *)
Lemma handleDNSRequest_quiet (cfg : Config) (env : Env) (d : DNSContext) :
  Proto d <> ProtoUDP -> Handler cfg = None ->
  trace_sat (fun e => consultsRatelimiter e = false) (handleDNSRequest cfg env d).
Proof.
  intros Hproto Hhandler. apply String.eqb_neq in Hproto.
  unfold handleDNSRequest, ratelimitCheck, logDNSMessage. cbv zeta.
  ctx_simpl. rewrite Hproto, Hhandler.
  repeat first
    [ apply chooseUpstream_quiet | apply Resolve_quiet | apply respond_quiet
    | ts_step ].
Qed.

(** C5: the rate limiter is asked only about UDP requests.  For any other
    transport the check of line 641 passes without calling it, the limiter's
    answer has no influence on the run, and the default pipeline never calls
    it anywhere.  A UDP request it denies makes the pipeline return with a
    nil error, the response left as it was, nothing written and the proxy
    untouched. *)
Theorem ratelimit_only_udp (cfg : Config) (env : Env) (d : DNSContext)
    (p : Proxy) :
  (Proto d <> ProtoUDP ->
     ratelimitCheck env d p = (Ok false, p, []) /\
     (forall limiter : net.Addr -> bool,
        handleDNSRequest cfg (withRatelimiter env limiter) d p
        = handleDNSRequest cfg env d p) /\
     (Handler cfg = None ->
      Forall (fun e => consultsRatelimiter e = false)
             (trace_of (handleDNSRequest cfg env d p)))) /\
  (Proto d = ProtoUDP -> isRatelimited env (Addr d) = true ->
     handleDNSRequest cfg env d p
       = (Ok (set_StartTime d (Now env), None), p, [EvIsRatelimited (Addr d)]) /\
     Res (set_StartTime d (Now env)) = Res d /\
     Forall (fun e => isRespond e = false)
            (trace_of (handleDNSRequest cfg env d p))).
Proof.
  split.
  - intros Hproto.
    split; [|split;
      [|intros Hhandler; apply handleDNSRequest_quiet; assumption]];
      apply String.eqb_neq in Hproto;
      assert (Hnot : forall env', dropped env' d = false)
        by (intros env'; unfold dropped; rewrite Hproto; reflexivity).
    + rewrite ratelimitCheck_run, Hnot. unfold ratelimitTrace.
      rewrite Hproto. reflexivity.
    + intros limiter. rewrite !handleDNSRequest_start.
      rewrite (bind_run _ _ _ _ _ _ (ratelimitCheck_run env _ p)).
      rewrite (bind_run _ _ _ _ _ _
                 (ratelimitCheck_run (withRatelimiter env limiter) _ p)).
      change (dropped env (set_StartTime d (Now env))) with (dropped env d).
      change (dropped (withRatelimiter env limiter)
                (set_StartTime d (Now (withRatelimiter env limiter))))
        with (dropped (withRatelimiter env limiter) d).
      rewrite !Hnot. reflexivity.
  - intros Hproto Hlimited.
    assert (Hdrop : dropped env d = true).
    { unfold dropped. rewrite Hproto, Hlimited. reflexivity. }
    rewrite (handleDNSRequest_dropped cfg env d p Hdrop).
    split; [reflexivity|]. split; [reflexivity|].
    repeat constructor.
Qed.

Lemma ratelimit_only_udp_witness :
  let cfg := exampleConfig false false [goodUpstream "8.8.8.8:53"] None in
  let req := exampleRequest [exampleQuestion 1] in
  let p := startedProxy cfg in
  let tcp := exampleContext ProtoTCP req in
  let udp := exampleContext ProtoUDP req in
  (ratelimitCheck (exampleEnv true) tcp p = (Ok false, p, []) /\
   (forall limiter : net.Addr -> bool,
      handleDNSRequest cfg (withRatelimiter (exampleEnv true) limiter) tcp p
      = handleDNSRequest cfg (exampleEnv true) tcp p) /\
   (Handler cfg = None ->
    Forall (fun e => consultsRatelimiter e = false)
           (trace_of (handleDNSRequest cfg (exampleEnv true) tcp p)))) /\
  (handleDNSRequest cfg (exampleEnv true) udp p
     = (Ok (set_StartTime udp 1000, None), p, [EvIsRatelimited (Addr udp)]) /\
   Res (set_StartTime udp 1000) = Res udp /\
   Forall (fun e => isRespond e = false)
          (trace_of (handleDNSRequest cfg (exampleEnv true) udp p))).
Proof.
  intros cfg req p tcp udp. split.
  - apply (proj1 (ratelimit_only_udp cfg (exampleEnv true) tcp p)).
    discriminate.
  - apply (proj2 (ratelimit_only_udp cfg (exampleEnv true) udp p));
      reflexivity.
Defined.

(** ** The pipeline through the default resolver *)

Lemma bind_assoc {A B C : Type} (m : M A) (k : A -> M B) (h : B -> M C)
    (p : Proxy) :
  bind (bind m k) h p = bind m (fun a => bind (k a) h) p.
Proof.
  unfold bind. destruct (m p) as [[[a|why] p'] t]; [|reflexivity].
  destruct (k a p') as [[[b|why] p''] t']; [|reflexivity].
  destruct (h b p'') as [[r p3] t3]. rewrite app_assoc. reflexivity.
Qed.

Lemma bind_step {A B : Type} (m : M A) (k : A -> M B) (p p' p'' : Proxy)
    (a : A) (r : Result B) (t t' : list Event) :
  m p = (Ok a, p', t) -> k a p' = (r, p'', t') ->
  bind m k p = (r, p'', t ++ t').
Proof. intros Hm Hk. unfold bind. rewrite Hm, Hk. reflexivity. Qed.

Lemma chooseUpstream_run (cfg : Config) (env : Env) (p : Proxy) :
  chooseUpstream cfg env p
    = (result_of (chooseUpstream cfg env p), p, chooseTrace cfg p).
Proof.
  unfold chooseUpstream, chooseTrace, result_of.
  destruct (Upstreams cfg) as [|u [|u' us]]; try reflexivity.
  unfold bind, get, emit, ret, panic.
  destruct (WeightedChoice env (upstreamsWeighted p)) as [c [e|]]; [reflexivity|].
  destruct (randutil.Item c) as [idx|]; [|reflexivity].
  destruct (index (u :: u' :: us) idx); reflexivity.
Qed.

Lemma index_Some_range {A : Type} (l : list A) (i : Z) (x : A) :
  index l i = Some x -> 0 <= i < Z.of_nat (length l).
Proof.
  unfold index. destruct (Z.ltb_spec i 0); [discriminate|].
  intros Hx. apply lookup_lt_Some in Hx. lia.
Qed.

(** The upstream [chooseUpstream] returns is the one at the returned index. *)
Lemma chooseUpstream_ok (cfg : Config) (env : Env) (p : Proxy)
    (u : upstream.Upstream) (idx : Z) :
  result_of (chooseUpstream cfg env p) = Ok (u, idx) ->
  index (Upstreams cfg) idx = Some u.
Proof.
  unfold chooseUpstream, result_of.
  destruct (Upstreams cfg) as [|u0 [|u1 us]].
  - discriminate.
  - intros H. injection H as <- <-. reflexivity.
  - unfold bind, get, emit, ret, panic.
    destruct (WeightedChoice env (upstreamsWeighted p)) as [c [e|]];
      [discriminate|].
    destruct (randutil.Item c) as [i|]; [|discriminate].
    destruct (index (u0 :: u1 :: us) i) as [x|] eqn:Hx; [|discriminate].
    simpl. intros H. injection H as <- <-. exact Hx.
Qed.

Lemma handleDNSRequest_resolved (cfg : Config) (env : Env) (d d' : DNSContext)
    (p p' : Proxy) (u : upstream.Upstream) (idx : Z) (err : error)
    (res : dns.Msg) (tr : list Event) :
  dropped env d = false ->
  refusal cfg (Req d) = None ->
  Res d = None ->
  Handler cfg = None ->
  result_of (chooseUpstream cfg env p) = Ok (u, idx) ->
  Resolve cfg env (set_Upstream (set_StartTime d (Now env)) u idx) p
    = (Ok (d', err), p', tr) ->
  Res d' = Some res ->
  handleDNSRequest cfg env d p =
    (Ok (d', decorate err), p',
     ratelimitTrace d ++ chooseTrace cfg p ++ tr ++ respondTrace (Proto d') res).
Proof.
  intros Hdrop Href Hres Hhandler Hchoose Hresolve Hres'.
  rewrite handleDNSRequest_start.
  eapply bind_step;
    [exact (ratelimitCheck_run env (set_StartTime d (Now env)) p)|].
  change (dropped env (set_StartTime d (Now env))) with (dropped env d).
  rewrite Hdrop. unfold refusal in Href. cbv zeta. ctx_simpl.
  destruct (negb (Z.of_nat (length (dns.Question_ (Req d))) =? 1)) eqn:Hcount;
    [destruct (refusesAny cfg (Req d)); discriminate|].
  ctx_simpl.
  destruct (refusesAny cfg (Req d)) eqn:Hany; [discriminate|].
  ctx_simpl. rewrite Hres, Hhandler.
  rewrite !bind_assoc.
  eapply bind_step.
  { rewrite chooseUpstream_run, Hchoose. reflexivity. }
  cbv beta iota. rewrite !bind_assoc.
  eapply bind_step; [exact Hresolve|].
  cbv beta iota.
  replace (respondTrace (Proto d') res) with ([] ++ respondTrace (Proto d') res)
    by reflexivity.
  destruct err as [e|]; rewrite bind_ret; cbv beta iota;
    erewrite finish_run by eassumption; reflexivity.
Qed.

Lemma storeAfterRespond_app (pre t : list Event) :
  Forall (fun e => isRespond e = false) pre ->
  storeAfterRespond (pre ++ t) = storeAfterRespond t.
Proof.
  induction 1 as [|e pre He _ IH]; [reflexivity|].
  simpl. rewrite He, IH. reflexivity.
Qed.

Lemma no_respond_before_store (cfg : Config) (d : DNSContext) (p : Proxy)
    (u : upstream.Upstream) (idx rtt : Z) (err : error) :
  Forall (fun e => isRespond e = false)
    (ratelimitTrace d ++ chooseTrace cfg p ++ cacheGetTrace p (Req d)
     ++ [EvExchange PrimaryExchange (upstream.Address u) (Req d);
         EvCalculateUpstreamWeights idx rtt]
     ++ fallbackTrace cfg (Req d) err).
Proof.
  repeat (apply Forall_app; split).
  - unfold ratelimitTrace. destruct (String.eqb _ _); repeat constructor.
  - unfold chooseTrace. destruct (Upstreams cfg) as [|? [|? ?]]; repeat constructor.
  - unfold cacheGetTrace. destruct (cache_ p); repeat constructor.
  - repeat constructor.
  - unfold fallbackTrace. destruct err, (Fallback cfg); repeat constructor.
Qed.

(** C8, as the code has it: [Resolve] stores the reply (line 247) before
    [handleDNSRequest] writes the response (line 680).  For a request that
    goes through the default resolver with the cache on and ends with a
    non-nil reply, the store is the event right before the write, and no
    store follows a write. *)
Theorem cache_store_before_respond (cfg : Config) (env : Env) (d : DNSContext)
    (p : Proxy) (c : cache) (u : upstream.Upstream) (idx : Z)
    (reply : option dns.Msg) (err err' : error) (r : dns.Msg) (w : Writer) :
  dropped env d = false ->
  refusal cfg (Req d) = None ->
  Res d = None ->
  Handler cfg = None ->
  cache_ p = Some c ->
  cached p (Req d) = None ->
  result_of (chooseUpstream cfg env p) = Ok (u, idx) ->
  length (upstreamsRtt p) = length (Upstreams cfg) ->
  length (upstreamsWeighted p) = length (Upstreams cfg) ->
  upstream.Exchange u (Req d) = (reply, err) ->
  afterFallback cfg (Req d) reply err = (Some r, err') ->
  writerOf (Proto d) = Some w ->
  exists pre,
    trace_of (handleDNSRequest cfg env d p)
      = pre ++ [EvCacheSet r; EvRespond w r] /\
    Forall (fun e => isRespond e = false) pre /\
    storeAfterRespond (trace_of (handleDNSRequest cfg env d p)) = false.
Proof.
  intros Hdrop Href Hres Hhandler Hcache Hmiss Hchoose Hlr Hlw Hex Hfinal Hw.
  pose proof (index_Some_range _ _ _ (chooseUpstream_ok cfg env p u idx Hchoose))
    as Hidx.
  assert (Hpanic : result_of (calculateUpstreamWeights idx (resolveRtt env err) p)
                   = Ok tt).
  { apply calculateUpstreamWeights_no_panic; [rewrite Hlr; exact Hidx | congruence]. }
  pose proof (Resolve_miss cfg env (set_Upstream (set_StartTime d (Now env)) u idx)
                p u reply err Hmiss eq_refl Hex) as Hrun.
  cbv zeta in Hrun. ctx_simpl.
  rewrite Hpanic, Hfinal in Hrun. simpl fst in Hrun. simpl snd in Hrun.
  unfold finalResponse, cacheSetTrace in Hrun. rewrite Hcache in Hrun.
  rewrite (handleDNSRequest_resolved cfg env d _ p _ u idx err' r _
             Hdrop Href Hres Hhandler Hchoose Hrun eq_refl).
  unfold trace_of, respondTrace. ctx_simpl. simpl snd. rewrite Hw.
  exists (ratelimitTrace d ++ chooseTrace cfg p ++ cacheGetTrace p (Req d)
          ++ [EvExchange PrimaryExchange (upstream.Address u) (Req d);
              EvCalculateUpstreamWeights idx (resolveRtt env err)]
          ++ fallbackTrace cfg (Req d) err).
  pose proof (no_respond_before_store cfg d p u idx (resolveRtt env err) err)
    as Hpre.
  assert (Heq :
    ratelimitTrace d ++ chooseTrace cfg p
      ++ ((cacheGetTrace p (Req d)
           ++ [EvExchange PrimaryExchange (upstream.Address u) (Req d);
               EvCalculateUpstreamWeights idx (resolveRtt env err)])
          ++ fallbackTrace cfg (Req d) err ++ [EvCacheSet r])
      ++ [EvRespond w r]
    = (ratelimitTrace d ++ chooseTrace cfg p ++ cacheGetTrace p (Req d)
       ++ [EvExchange PrimaryExchange (upstream.Address u) (Req d);
           EvCalculateUpstreamWeights idx (resolveRtt env err)]
       ++ fallbackTrace cfg (Req d) err)
      ++ [EvCacheSet r; EvRespond w r]).
  { rewrite <- !app_assoc. reflexivity. }
  rewrite Heq. split; [reflexivity|]. split; [exact Hpre|].
  rewrite (storeAfterRespond_app _ _ Hpre). reflexivity.
Qed.

Lemma cache_store_before_respond_witness :
  let u := goodUpstream "8.8.8.8:53" in
  let cfg := exampleConfig false true [u] None in
  let req := exampleRequest [exampleQuestion 1] in
  let d := exampleContext ProtoUDP req in
  let p := startedProxy cfg in
  cache_ p = Some emptyCache /\
  exists pre,
    trace_of (handleDNSRequest cfg (exampleEnv false) d p)
      = pre ++ [EvCacheSet (exampleReply req); EvRespond respondUDP (exampleReply req)] /\
    Forall (fun e => isRespond e = false) pre /\
    storeAfterRespond (trace_of (handleDNSRequest cfg (exampleEnv false) d p)) = false.
Proof.
  intros u cfg req d p. split; [reflexivity|].
  apply (cache_store_before_respond cfg (exampleEnv false) d p emptyCache u 0
           (Some (exampleReply req)) None None (exampleReply req) respondUDP);
    reflexivity.
Defined.

(** C8 as worded fails: with the cache on and an upstream that answers,
    the trace of one request has the cache store before the response write,
    and no store after it. *)
Lemma cache_store_after_respond_counterexample :
  let u := goodUpstream "8.8.8.8:53" in
  let cfg := exampleConfig false true [u] None in
  let req := exampleRequest [exampleQuestion 1] in
  let d := exampleContext ProtoUDP req in
  let run := handleDNSRequest cfg (exampleEnv false) d (startedProxy cfg) in
  trace_of run
    = [EvIsRatelimited (Addr d);
       EvCacheGet req;
       EvExchange PrimaryExchange "8.8.8.8:53" req;
       EvCalculateUpstreamWeights 0 25;
       EvCacheSet (exampleReply req);
       EvRespond respondUDP (exampleReply req)] /\
  storeAfterRespond (trace_of run) = false /\
  storeAfterRespond (trace_of run) <> true.
Proof.
  intros u cfg req d run. split; [reflexivity|]. split; [reflexivity|].
  vm_compute. discriminate.
Qed.

(** ** The remote address of a DoH request *)

(** C9: once [RemoteAddr] has split into a host and a numeric port,
    [remoteAddr] returns an error exactly when the host parses as an IP
    address; when the host does not parse, it returns the TCP address built
    from the nil IP and the port, with a nil error. *)
Theorem remoteAddr_rejects_parsed_ip (lib : NetLib) (r : http.Request)
    (host port : string) (portValue : Z) :
  SplitHostPort (http.RemoteAddr r) = (host, port, None) ->
  Atoi port = (portValue, None) ->
  ((remoteAddr r).2 <> None <-> ParseIP host <> None) /\
  (ParseIP host <> None -> (remoteAddr r).1 = None) /\
  (ParseIP host = None ->
   remoteAddr r = (Some (net.TCPAddr None portValue), None)).
Proof.
  intros Hsplit Hatoi. unfold remoteAddr. rewrite Hsplit, Hatoi.
  destruct (ParseIP host) as [ip|]; simpl.
  - repeat split; congruence.
  - repeat split; congruence.
Qed.

Lemma remoteAddr_rejects_parsed_ip_witness :
  let r := {| http.RemoteAddr := "192.0.2.7:4433" |} in
  let r' := {| http.RemoteAddr := "client.example:4433" |} in
  (@remoteAddr exampleNetLib r = (None, Some (errors_New "invalid IP: 192.0.2.7")) /\
   ((@remoteAddr exampleNetLib r).2 <> None
    <-> @ParseIP exampleNetLib "192.0.2.7" <> None)) /\
  @remoteAddr exampleNetLib r' = (Some (net.TCPAddr None 4433), None).
Proof.
  intros r r'. split.
  - split; [reflexivity|].
    apply (remoteAddr_rejects_parsed_ip exampleNetLib r "192.0.2.7" "4433" 4433);
      reflexivity.
  - apply (remoteAddr_rejects_parsed_ip exampleNetLib r' "client.example" "4433" 4433);
      reflexivity.
Defined.

(** * Further properties of the selector *)

(** The second loop keeps the length of the weight vector, however the two
    vectors compare, and stops early exactly when it runs out of weights. *)
Lemma assignWeights_length (sum : Z) (rtts : list Z) (weighted : list randutil.Choice) :
  length (assignWeights sum rtts weighted).1 = length weighted.
Proof.
  revert weighted. induction rtts as [|rtt rtts IH]; intros [|c weighted];
    simpl; try reflexivity.
  specialize (IH weighted). destruct (assignWeights sum rtts weighted) as [rest ok].
  simpl in *. congruence.
Qed.

Lemma assignWeights_flag (sum : Z) (rtts : list Z) (weighted : list randutil.Choice) :
  (assignWeights sum rtts weighted).2 = true <-> (length rtts <= length weighted)%nat.
Proof.
  revert weighted. induction rtts as [|rtt rtts IH]; intros [|c weighted]; simpl.
  - split; [lia | reflexivity].
  - split; [lia | reflexivity].
  - split; [discriminate | lia].
  - specialize (IH weighted). destruct (assignWeights sum rtts weighted) as [rest ok].
    simpl in *. rewrite IH. lia.
Qed.

Lemma assignWeights_lookup (sum : Z) (rtts : list Z) (weighted : list randutil.Choice)
    (j : nat) (rtt : Z) (c : randutil.Choice) :
  rtts !! j = Some rtt -> weighted !! j = Some c ->
  (assignWeights sum rtts weighted).1 !! j = Some (set_Weight c (clampWeight sum rtt)).
Proof.
  revert weighted j. induction rtts as [|x rtts IH]; intros [|c0 weighted] [|j] Hr Hc;
    simpl in *; try discriminate.
  - injection Hr as ->. injection Hc as ->.
    destruct (assignWeights sum rtts weighted). reflexivity.
  - specialize (IH weighted j Hr Hc).
    destruct (assignWeights sum rtts weighted). exact IH.
Qed.

Lemma assignWeights_beyond (sum : Z) (rtts : list Z) (weighted : list randutil.Choice)
    (j : nat) :
  (length rtts <= j)%nat ->
  (assignWeights sum rtts weighted).1 !! j = weighted !! j.
Proof.
  revert weighted j. induction rtts as [|x rtts IH]; intros [|c0 weighted] [|j] Hj;
    simpl in *; try reflexivity; try lia.
  specialize (IH weighted j ltac:(lia)).
  destruct (assignWeights sum rtts weighted). exact IH.
Qed.

Lemma clampWeight_pos (sum rtt : Z) : 1 <= clampWeight sum rtt.
Proof. unfold clampWeight. destruct (Z.leb_spec (GoInt.sub sum rtt) 0); lia. Qed.

(** The state and result of a run, from the code alone. *)
Lemma calculateUpstreamWeights_shape (i r : Z) (p : Proxy) (cur : Z) :
  index (upstreamsRtt p) i = Some cur ->
  let rtts := <[Z.to_nat i := updatedRtt cur r]> (upstreamsRtt p) in
  let out := assignWeights (foldl GoInt.add 0 rtts) rtts (upstreamsWeighted p) in
  calculateUpstreamWeights i r p
  = (if out.2 then Ok tt else Panic "index out of range",
     {| upstreamsRtt := rtts; upstreamsWeighted := out.1; cache_ := cache_ p |},
     [EvCalculateUpstreamWeights i r]).
Proof.
  intros Hidx rtts out.
  unfold calculateUpstreamWeights, bind, emit, get, put, ret, panic.
  rewrite Hidx. fold (updatedRtt cur r). fold rtts. fold out.
  destruct out as [ws [|]]; reflexivity.
Qed.

Lemma index_None_range {A : Type} (l : list A) (i : Z) :
  index l i = None <-> ~ (0 <= i < Z.of_nat (length l)).
Proof.
  unfold index. destruct (Z.ltb_spec i 0).
  - split; [lia | reflexivity].
  - rewrite lookup_ge_None. lia.
Qed.

Lemma calculateUpstreamWeights_out_of_range (i r : Z) (p : Proxy) :
  (index (upstreamsRtt p) i = None ->
   calculateUpstreamWeights i r p
   = (Panic "index out of range", p, [EvCalculateUpstreamWeights i r])) /\
  (~ (0 <= i < Z.of_nat (length (upstreamsRtt p))) -> record i r p = p).
Proof.
  assert (H : index (upstreamsRtt p) i = None ->
              calculateUpstreamWeights i r p
              = (Panic "index out of range", p, [EvCalculateUpstreamWeights i r])).
  { intros Hidx.
    unfold calculateUpstreamWeights, bind, emit, get, put, ret, panic.
    rewrite Hidx. reflexivity. }
  split; [exact H|].
  intros Hrange. apply index_None_range in Hrange. unfold record.
  rewrite (H Hrange). reflexivity.
Qed.

(** X1: [calculateUpstreamWeights] runs to its end exactly when the index
    is within the RTT vector and there is a weight entry for every RTT;
    otherwise it panics.  With an index out of range the proxy is left
    untouched. *)
Theorem calculateUpstreamWeights_panics_iff (i r : Z) (p : Proxy) :
  (result_of (calculateUpstreamWeights i r p) = Ok tt <->
   0 <= i < Z.of_nat (length (upstreamsRtt p)) /\
   (length (upstreamsRtt p) <= length (upstreamsWeighted p))%nat) /\
  (~ (0 <= i < Z.of_nat (length (upstreamsRtt p))) -> record i r p = p).
Proof.
  destruct (index (upstreamsRtt p) i) as [cur|] eqn:Hidx.
  - pose proof (index_Some_range _ _ _ Hidx) as Hrange.
    rewrite (calculateUpstreamWeights_shape i r p cur Hidx). cbv zeta.
    unfold result_of. simpl. split; [|intros Hno; lia].
    match goal with
    | |- context [assignWeights ?s ?rs ?ws] =>
        pose proof (assignWeights_flag s rs ws) as Hflag;
        destruct (assignWeights s rs ws) as [out [|]]
    end; simpl in *; rewrite length_insert in Hflag.
    + split; [intros _; split; [lia | apply Hflag; reflexivity] | reflexivity].
    + split; [discriminate|]. intros [_ Hle]. apply Hflag in Hle. discriminate.
  - pose proof (proj1 (index_None_range _ _) Hidx) as Hrange.
    unfold record, calculateUpstreamWeights, bind, emit, get, put, ret, panic,
      result_of, proxy_of.
    rewrite Hidx. simpl. split; [|reflexivity].
    split; [discriminate | intros [Hin _]; contradiction].
Qed.

(** The clamp of line 736 at work. *)
Lemma record_weight_positive (i r : Z) (p : Proxy)
    (j : nat) (c : randutil.Choice) :
  0 <= i < Z.of_nat (length (upstreamsRtt p)) ->
  (j < length (upstreamsRtt p))%nat ->
  upstreamsWeighted (record i r p) !! j = Some c ->
  1 <= randutil.Weight c.
Proof.
  intros Hi Hj Hc.
  destruct (index_lookup (upstreamsRtt p) i Hi) as (cur & Hidx & _).
  unfold record in Hc.
  rewrite (calculateUpstreamWeights_shape i r p cur Hidx) in Hc.
  cbv zeta in Hc. unfold proxy_of in Hc. simpl in Hc.
  set (rtts := <[Z.to_nat i := updatedRtt cur r]> (upstreamsRtt p)) in *.
  destruct (lookup_lt_is_Some_2 rtts j) as [rtt Hrtt].
  { unfold rtts. rewrite length_insert. exact Hj. }
  destruct (lookup_lt_is_Some_2 (upstreamsWeighted p) j) as [c0 Hc0].
  { apply lookup_lt_Some in Hc. rewrite assignWeights_length in Hc. exact Hc. }
  rewrite (assignWeights_lookup _ _ _ _ _ _ Hrtt Hc0) in Hc.
  injection Hc as <-. simpl. apply clampWeight_pos.
Qed.

(** X2: whatever the numbers are, overflow included, a call with an index
    in range leaves every weight that belongs to an RTT at 1 or more: the
    weighted choice never sees a weight of zero or below. *)
Theorem calculateUpstreamWeights_weights_positive (i r : Z) (p : Proxy)
    (j : nat) (c : randutil.Choice) :
  0 <= i < Z.of_nat (length (upstreamsRtt p)) ->
  (j < length (upstreamsRtt p))%nat ->
  upstreamsWeighted (record i r p) !! j = Some c ->
  1 <= randutil.Weight c.
Proof. apply record_weight_positive. Qed.

Lemma calculateUpstreamWeights_weights_positive_witness :
  let cfg := exampleConfig false false [goodUpstream "a"; goodUpstream "b"] None in
  let p := startedProxy cfg in
  let c := {| randutil.Weight := 1; randutil.Item := randutil.ItemInt 0 |} in
  upstreamsWeighted (record 0 7 p) !! 0%nat = Some c /\ 1 <= randutil.Weight c.
Proof.
  intros cfg p c. split; [reflexivity|].
  apply (calculateUpstreamWeights_weights_positive 0 7 p 0 c).
  - vm_compute. split; [discriminate | reflexivity].
  - simpl. lia.
  - reflexivity.
Defined.

(** What a call leaves alone. *)
Lemma record_frame (i r : Z) (p : Proxy) :
  (forall j : nat, j <> Z.to_nat i ->
     upstreamsRtt (record i r p) !! j = upstreamsRtt p !! j) /\
  length (upstreamsRtt (record i r p)) = length (upstreamsRtt p) /\
  length (upstreamsWeighted (record i r p)) = length (upstreamsWeighted p) /\
  (forall j, randutil.Item <$> upstreamsWeighted (record i r p) !! j
             = randutil.Item <$> upstreamsWeighted p !! j) /\
  cache_ (record i r p) = cache_ p.
Proof.
  destruct (index (upstreamsRtt p) i) as [cur|] eqn:Hidx.
  - unfold record. rewrite (calculateUpstreamWeights_shape i r p cur Hidx).
    cbv zeta. unfold proxy_of. simpl.
    split; [intros j Hj; apply list_lookup_insert_ne; congruence|].
    split; [apply length_insert|].
    split; [apply assignWeights_length|].
    split; [|reflexivity].
    intros j.
    set (rtts := <[Z.to_nat i := updatedRtt cur r]> (upstreamsRtt p)).
    destruct (rtts !! j) as [rtt|] eqn:Hrtt.
    + destruct (upstreamsWeighted p !! j) as [c0|] eqn:Hc0.
      * rewrite (assignWeights_lookup _ _ _ _ _ _ Hrtt Hc0). reflexivity.
      * apply lookup_ge_None in Hc0.
        rewrite (proj2 (lookup_ge_None _ j)); [reflexivity|].
        rewrite assignWeights_length. exact Hc0.
    + apply lookup_ge_None in Hrtt.
      rewrite (assignWeights_beyond _ _ _ _ Hrtt). reflexivity.
  - pose proof (proj1 (index_None_range _ _) Hidx) as Hrange.
    rewrite (proj2 (calculateUpstreamWeights_out_of_range i r p) Hrange).
    repeat split; reflexivity.
Qed.

(** X3: a call changes the RTT of the scored upstream only, keeps the
    length of both vectors, the item of every choice and the cache, on
    every run, the panicking ones included. *)
Theorem calculateUpstreamWeights_frame (i r : Z) (p : Proxy) :
  (forall j : nat, j <> Z.to_nat i ->
     upstreamsRtt (record i r p) !! j = upstreamsRtt p !! j) /\
  length (upstreamsRtt (record i r p)) = length (upstreamsRtt p) /\
  length (upstreamsWeighted (record i r p)) = length (upstreamsWeighted p) /\
  (forall j, randutil.Item <$> upstreamsWeighted (record i r p) !! j
             = randutil.Item <$> upstreamsWeighted p !! j) /\
  cache_ (record i r p) = cache_ p.
Proof. apply record_frame. Qed.

(** X4: after a call on a selector with non-negative RTTs whose sum fits a
    machine [int], an upstream whose RTT is no larger than another's has a
    weight no smaller: the faster upstream is never the less likely one. *)
Theorem calculateUpstreamWeights_monotone (n : nat) (p : Proxy) (i r : Z)
    (j k : nat) (rj rk : Z) (cj ck : randutil.Choice) :
  stats_ok n p -> 0 <= i < Z.of_nat n -> 0 <= r ->
  sumZ (upstreamsRtt p) + r <= GoInt.max_int ->
  upstreamsRtt (record i r p) !! j = Some rj ->
  upstreamsRtt (record i r p) !! k = Some rk ->
  upstreamsWeighted (record i r p) !! j = Some cj ->
  upstreamsWeighted (record i r p) !! k = Some ck ->
  rj <= rk ->
  randutil.Weight ck <= randutil.Weight cj.
Proof.
  intros Hok Hi Hr Hsum Hrj Hrk Hcj Hck Hle.
  destruct (calculateUpstreamWeights_run n p i r Hok Hi Hr Hsum)
    as (cur & ws & _ & Hrun & _ & _ & _ & Hw).
  unfold record in *. rewrite Hrun in *. unfold proxy_of in *. simpl in *.
  destruct (Hw _ _ Hrj) as (c0 & _ & Hj). destruct (Hw _ _ Hrk) as (c1 & _ & Hk).
  rewrite Hj in Hcj. rewrite Hk in Hck.
  injection Hcj as <-. injection Hck as <-. simpl. lia.
Qed.

Lemma calculateUpstreamWeights_monotone_witness :
  let cfg := exampleConfig false false [goodUpstream "a"; goodUpstream "b"] None in
  let p := record 1 200 (startedProxy cfg) in
  upstreamsRtt (record 0 10 p) = [10; 200] /\
  randutil.Weight {| randutil.Weight := 10; randutil.Item := randutil.ItemInt 1 |}
  <= randutil.Weight {| randutil.Weight := 200; randutil.Item := randutil.ItemInt 0 |}.
Proof.
  intros cfg p. split; [reflexivity|].
  apply (calculateUpstreamWeights_monotone 2 p 0 10 0 1 10 200); try reflexivity.
  - split; [reflexivity | reflexivity |].
    repeat constructor; vm_compute; discriminate.
  - lia.
  - lia.
  - vm_compute. discriminate.
  - lia.
Defined.

(** X5: the RTT estimate of the scored upstream.  An upstream without an
    estimate (RTT 0) takes the measurement as it is; otherwise the new
    estimate is the truncated mean of the old one and the measurement, and
    so lies between the two. *)
Theorem calculateUpstreamWeights_estimate (p : Proxy) (i r cur : Z) :
  index (upstreamsRtt p) i = Some cur ->
  0 <= cur -> 0 <= r -> cur + r <= GoInt.max_int ->
  exists new : Z,
    rtt_at (record i r p) i = Some new /\
    (cur = 0 -> new = r) /\
    (cur <> 0 -> new = (cur + r) / 2 /\ Z.min cur r <= new <= Z.max cur r).
Proof.
  intros Hidx Hcur Hr Hsum.
  pose proof (index_Some_range _ _ _ Hidx) as Hrange.
  exists (updatedRtt cur r). split.
  - unfold record. rewrite (calculateUpstreamWeights_shape i r p cur Hidx).
    cbv zeta. unfold proxy_of, rtt_at, index. simpl.
    destruct (Z.ltb_spec i 0); [lia|].
    apply list_lookup_insert_eq. lia.
  - unfold updatedRtt. destruct (Z.eqb_spec cur 0) as [E|E].
    + split; [reflexivity | contradiction].
    + split; [contradiction|]. intros _.
      rewrite add_in_range by (int_bounds; lia).
      destruct (div2_in_range (cur + r)) as [-> _]; [int_bounds; lia|].
      rewrite Z.quot_div_nonneg by lia.
      split; [reflexivity|].
      pose proof (Z.div_le_lower_bound (cur + r) 2 (Z.min cur r)).
      pose proof (Z.div_le_upper_bound (cur + r) 2 (Z.max cur r)).
      lia.
Qed.

Lemma calculateUpstreamWeights_estimate_witness :
  let cfg := exampleConfig false false [goodUpstream "a"; goodUpstream "b"] None in
  let p := record 0 10 (startedProxy cfg) in
  index (upstreamsRtt p) 0 = Some 10 /\
  exists new : Z,
    rtt_at (record 0 25 p) 0 = Some new /\
    (10 = 0 -> new = 25) /\
    (10 <> 0 -> new = (10 + 25) / 2 /\ Z.min 10 25 <= new <= Z.max 10 25).
Proof.
  intros cfg p. split; [reflexivity|].
  apply (calculateUpstreamWeights_estimate p 0 25 10);
    [reflexivity | lia | lia | vm_compute; discriminate].
Defined.

(** ** Invariants of a started proxy *)

Lemma Start_items_ok (cfg : Config) (fresh : cache) (p : Proxy) :
  items_ok (Start cfg fresh p).
Proof.
  intros j c Hc. simpl in Hc. rewrite list_lookup_imap in Hc.
  destruct (Upstreams cfg !! j); simpl in Hc; [|discriminate].
  injection Hc as <-. reflexivity.
Qed.

Lemma record_items_ok (i r : Z) (p : Proxy) : items_ok p -> items_ok (record i r p).
Proof.
  intros Hok j c Hc.
  destruct (record_frame i r p) as (_ & _ & _ & Hitem & _).
  specialize (Hitem j). rewrite Hc in Hitem. simpl in Hitem.
  destruct (upstreamsWeighted p !! j) as [c0|] eqn:Hc0; [|discriminate].
  simpl in Hitem. injection Hitem as ->. exact (Hok j c0 Hc0).
Qed.

Lemma record_sum_le (n : nat) (p : Proxy) (i r : Z) :
  stats_ok n p -> 0 <= i < Z.of_nat n -> 0 <= r ->
  sumZ (upstreamsRtt p) + r <= GoInt.max_int ->
  sumZ (upstreamsRtt (record i r p)) <= sumZ (upstreamsRtt p) + r.
Proof.
  intros Hok Hi Hr Hsum.
  destruct (calculateUpstreamWeights_run n p i r Hok Hi Hr Hsum)
    as (cur & ws & _ & Hrun & _ & _ & Hle & _).
  unfold record. rewrite Hrun. exact Hle.
Qed.

Lemma records_invariant (n : nat) (ms : list (Z * Z)) (p : Proxy) :
  stats_ok n p -> items_ok p ->
  Forall (measurement_ok n) ms ->
  sumZ (upstreamsRtt p) + sumZ ms.*2 <= GoInt.max_int ->
  stats_ok n (records ms p) /\ items_ok (records ms p) /\
  sumZ (upstreamsRtt (records ms p)) <= sumZ (upstreamsRtt p) + sumZ ms.*2.
Proof.
  intros Hok Hitems Hms. revert p Hok Hitems.
  induction Hms as [|[i r] ms [Hi Hr] Hms IH]; intros p Hok Hitems Hsum.
  - simpl. repeat split; try assumption; try apply Hok.
    change (sumZ []) with 0. lia.
  - rewrite fmap_cons, sumZ_cons in *. cbn [snd] in *.
    change (records ((i, r) :: ms) p) with (records ms (record i r p)).
    pose proof (sumZ_nonneg ms.*2) as Hnn.
    assert (Hms2 : Forall (fun x => 0 <= x) ms.*2).
    { apply Forall_fmap. eapply Forall_impl; [exact Hms|].
      intros [? ?] [_ ?]. assumption. }
    specialize (Hnn Hms2).
    assert (Hstep : sumZ (upstreamsRtt p) + r <= GoInt.max_int) by lia.
    pose proof (record_sum_le n p i r Hok Hi Hr Hstep) as Hle.
    destruct (IH (record i r p)) as (H1 & H2 & H3).
    + apply calculateUpstreamWeights_stats_ok; assumption.
    + apply record_items_ok. assumption.
    + lia.
    + repeat split; try assumption; try apply H1. lia.
Qed.

Lemma record_stats_lengths (n : nat) (i r : Z) (p : Proxy) :
  length (upstreamsRtt p) = n -> length (upstreamsWeighted p) = n ->
  length (upstreamsRtt (record i r p)) = n /\
  length (upstreamsWeighted (record i r p)) = n.
Proof.
  intros Hr Hw. destruct (record_frame i r p) as (_ & H1 & H2 & _). lia.
Qed.

Lemma records_weights_positive (n : nat) (ms : list (Z * Z)) (p : Proxy) :
  length (upstreamsRtt p) = n -> length (upstreamsWeighted p) = n ->
  Forall (fun c => 1 <= randutil.Weight c) (upstreamsWeighted p) ->
  Forall (measurement_ok n) ms ->
  Forall (fun c => 1 <= randutil.Weight c) (upstreamsWeighted (records ms p)).
Proof.
  intros Hr Hw Hpos Hms. revert p Hr Hw Hpos.
  induction Hms as [|[i r] ms [Hi _] Hms IH]; intros p Hr Hw Hpos; [exact Hpos|].
  change (records ((i, r) :: ms) p) with (records ms (record i r p)).
  cbn [fst] in Hi.
  destruct (record_stats_lengths n i r p Hr Hw) as [Hr' Hw'].
  apply IH; try assumption.
  apply Forall_lookup. intros j c Hc.
  apply (record_weight_positive i r p j c); [lia | | exact Hc].
  apply lookup_lt_Some in Hc. lia.
Qed.

Lemma sumZ_replicate_0 (n : nat) : sumZ (replicate n 0) = 0.
Proof.
  induction n as [|n IH]; [reflexivity|].
  change (replicate (S n) 0) with (0 :: replicate n 0).
  rewrite sumZ_cons, IH. reflexivity.
Qed.

(** X6: the selector of a started proxy, after any series of measurements
    for its upstreams whose total fits a machine [int]: both vectors still
    have one entry per upstream, no RTT is negative, their sum is at most
    the total measured, every weight is at least 1, and the choice at
    position [j] still carries the index [j]. *)
Theorem started_selector_invariant (cfg : Config) (fresh : cache) (p0 : Proxy)
    (ms : list (Z * Z)) :
  Forall (measurement_ok (length (Upstreams cfg))) ms ->
  sumZ ms.*2 <= GoInt.max_int ->
  let p := records ms (Start cfg fresh p0) in
  stats_ok (length (Upstreams cfg)) p /\
  items_ok p /\
  Forall (fun c => 1 <= randutil.Weight c) (upstreamsWeighted p) /\
  sumZ (upstreamsRtt p) <= sumZ ms.*2.
Proof.
  intros Hms Hsum p.
  pose proof (Start_stats_ok cfg fresh p0) as Hok.
  assert (Hzero : sumZ (upstreamsRtt (Start cfg fresh p0)) = 0)
    by apply sumZ_replicate_0.
  destruct (records_invariant _ ms _ Hok (Start_items_ok cfg fresh p0) Hms)
    as (H1 & H2 & H3); [lia|].
  split; [exact H1|]. split; [exact H2|]. split; [|unfold p; lia].
  apply (records_weights_positive (length (Upstreams cfg))); try apply Hok;
    try assumption.
  simpl. apply Forall_lookup. intros j c Hc. rewrite list_lookup_imap in Hc.
  destruct (Upstreams cfg !! j); simpl in Hc; [|discriminate].
  injection Hc as <-. simpl. lia.
Qed.

Lemma started_selector_invariant_witness :
  let cfg := exampleConfig false false [goodUpstream "a"; goodUpstream "b"] None in
  let ms := [(0, 10); (1, 200); (0, GoInt.int defaultTimeout); (1, 180)] in
  let p := records ms (Start cfg emptyCache zeroProxy) in
  upstreamsRtt p = [5000000005; 190] /\
  stats_ok 2 p /\
  items_ok p /\
  Forall (fun c => 1 <= randutil.Weight c) (upstreamsWeighted p) /\
  sumZ (upstreamsRtt p) <= sumZ ms.*2.
Proof.
  intros cfg ms p. split; [reflexivity|].
  apply (started_selector_invariant cfg emptyCache zeroProxy ms).
  - repeat constructor; vm_compute; discriminate.
  - vm_compute. discriminate.
Defined.

(** * Further properties of the choice of an upstream *)

(** The choice on a well-formed selector. *)
Lemma chooseUpstream_total (cfg : Config) (env : Env) (p : Proxy) :
  Upstreams cfg <> [] ->
  length (upstreamsWeighted p) = length (Upstreams cfg) ->
  items_ok p ->
  ((2 <= length (Upstreams cfg))%nat ->
   (WeightedChoice env (upstreamsWeighted p)).2 = None /\
   (WeightedChoice env (upstreamsWeighted p)).1 ∈ upstreamsWeighted p) ->
  exists (u : upstream.Upstream) (idx : Z),
    chooseUpstream cfg env p = (Ok (u, idx), p, chooseTrace cfg p) /\
    index (Upstreams cfg) idx = Some u /\
    0 <= idx < Z.of_nat (length (Upstreams cfg)) /\
    (length (Upstreams cfg) = 1%nat -> idx = 0 /\ chooseTrace cfg p = []).
Proof.
  intros Hne Hlen Hitems Hdraw.
  rewrite chooseUpstream_run.
  assert (Hres : exists u idx,
             result_of (chooseUpstream cfg env p) = Ok (u, idx) /\
             (length (Upstreams cfg) = 1%nat -> idx = 0)).
  { unfold chooseUpstream, result_of.
    destruct (Upstreams cfg) as [|u0 [|u1 us]] eqn:Hups; [contradiction| |].
    - exists u0, 0. split; [reflexivity | reflexivity].
    - destruct Hdraw as [Herr Hin]; [simpl; lia|].
      unfold bind, get, emit, ret, panic.
      destruct (WeightedChoice env (upstreamsWeighted p)) as [c err].
      simpl in Herr, Hin. subst err.
      apply list_elem_of_lookup in Hin as [j Hj].
      rewrite (Hitems j c Hj).
      assert (Hlt : (j < length (u0 :: u1 :: us))%nat).
      { rewrite <- Hlen. eapply lookup_lt_Some. exact Hj. }
      destruct (index_lookup (u0 :: u1 :: us) (Z.of_nat j)) as (u & -> & _);
        [lia|].
      exists u, (Z.of_nat j). split; [reflexivity|]. simpl. lia. }
  destruct Hres as (u & idx & Hres & Hone).
  exists u, idx. rewrite Hres. split; [reflexivity|].
  pose proof (chooseUpstream_ok cfg env p u idx Hres) as Hidx.
  split; [exact Hidx|]. split; [eapply index_Some_range; exact Hidx|].
  intros H1. split; [auto|]. unfold chooseTrace.
  destruct (Upstreams cfg) as [|u0 [|u1 us]]; try reflexivity. simpl in H1. lia.
Qed.

(** X7: on a proxy whose choices carry their indices, as [Start] and the
    scoring leave them, [chooseUpstream] succeeds whenever there is an
    upstream and, with two or more, the weighted draw returns without
    error one of the choices it was given.  It returns an index in range
    together with the upstream at that index and leaves the proxy as it
    is; with a single upstream it draws nothing. *)
Theorem chooseUpstream_succeeds (cfg : Config) (env : Env) (p : Proxy) :
  Upstreams cfg <> [] ->
  length (upstreamsWeighted p) = length (Upstreams cfg) ->
  items_ok p ->
  ((2 <= length (Upstreams cfg))%nat ->
   (WeightedChoice env (upstreamsWeighted p)).2 = None /\
   (WeightedChoice env (upstreamsWeighted p)).1 ∈ upstreamsWeighted p) ->
  exists (u : upstream.Upstream) (idx : Z),
    chooseUpstream cfg env p = (Ok (u, idx), p, chooseTrace cfg p) /\
    index (Upstreams cfg) idx = Some u /\
    0 <= idx < Z.of_nat (length (Upstreams cfg)) /\
    (length (Upstreams cfg) = 1%nat -> idx = 0 /\ chooseTrace cfg p = []).
Proof. apply chooseUpstream_total. Qed.

Lemma chooseUpstream_succeeds_witness :
  let cfg := exampleConfig false false [goodUpstream "a"; goodUpstream "b"] None in
  let p := record 1 200 (startedProxy cfg) in
  exists (u : upstream.Upstream) (idx : Z),
    chooseUpstream cfg (exampleEnv false) p = (Ok (u, idx), p, chooseTrace cfg p) /\
    index (Upstreams cfg) idx = Some u /\
    0 <= idx < Z.of_nat (length (Upstreams cfg)) /\
    (length (Upstreams cfg) = 1%nat -> idx = 0 /\ chooseTrace cfg p = []).
Proof.
  intros cfg p.
  apply (chooseUpstream_succeeds cfg (exampleEnv false) p).
  - discriminate.
  - reflexivity.
  - apply record_items_ok. apply Start_items_ok.
  - intros _. split; [reflexivity|]. left.
Defined.

(** * Further properties of the pipeline *)

Lemma Resolve_hit (cfg : Config) (env : Env) (d : DNSContext) (p : Proxy)
    (val : dns.Msg) :
  cached p (Req d) = Some val ->
  Resolve cfg env d p = (Ok (set_Res d (Some val), None), p, [EvCacheGet (Req d)]).
Proof.
  unfold cached, Resolve. intros Hhit.
  unfold bind at 1. unfold get at 1.
  destruct (cache_ p) as [c|]; [|discriminate].
  unfold bind at 1. unfold bind at 1. unfold emit at 1.
  destruct (Get c (Req d)) as [[v|] [|]]; try discriminate.
  injection Hhit as ->. reflexivity.
Qed.

(** X8: a cache hit.  [handleDNSRequest] has already chosen an upstream
    when [Resolve] looks into the cache (with two or more upstreams the
    weighted draw has been made), but on a hit that upstream is never
    contacted and nothing is scored: the cached message is written to the
    client, the selector stays as it was and the error is nil. *)
Theorem handleDNSRequest_cache_hit (cfg : Config) (env : Env) (d : DNSContext)
    (p : Proxy) (u : upstream.Upstream) (idx : Z) (val : dns.Msg) :
  dropped env d = false ->
  refusal cfg (Req d) = None ->
  Res d = None ->
  Handler cfg = None ->
  result_of (chooseUpstream cfg env p) = Ok (u, idx) ->
  cached p (Req d) = Some val ->
  handleDNSRequest cfg env d p =
    (Ok (set_Res (set_Upstream (set_StartTime d (Now env)) u idx) (Some val), None),
     p,
     ratelimitTrace d ++ chooseTrace cfg p ++ [EvCacheGet (Req d)]
       ++ respondTrace (Proto d) val) /\
  List.filter (fun e => match e with EvExchange _ _ _ => true | _ => false end)
    (trace_of (handleDNSRequest cfg env d p)) = [] /\
  recorded (trace_of (handleDNSRequest cfg env d p)) = [].
Proof.
  intros Hdrop Href Hres Hhandler Hchoose Hhit.
  assert (Hrun : handleDNSRequest cfg env d p =
    (Ok (set_Res (set_Upstream (set_StartTime d (Now env)) u idx) (Some val), None),
     p,
     ratelimitTrace d ++ chooseTrace cfg p ++ [EvCacheGet (Req d)]
       ++ respondTrace (Proto d) val)).
  { pose proof (Resolve_hit cfg env
                  (set_Upstream (set_StartTime d (Now env)) u idx) p val Hhit)
      as Hresolve.
    rewrite (handleDNSRequest_resolved cfg env d _ p _ u idx None val _
               Hdrop Href Hres Hhandler Hchoose Hresolve eq_refl).
    reflexivity. }
  split; [exact Hrun|]. rewrite Hrun. unfold trace_of. simpl.
  unfold ratelimitTrace, chooseTrace, respondTrace.
  destruct (String.eqb (Proto d) ProtoUDP), (Upstreams cfg) as [|? [|? ?]],
    (writerOf (Proto d)); split; reflexivity.
Qed.

Lemma handleDNSRequest_cache_hit_witness :
  let u := deadUpstream "192.0.2.1:53" in
  let cfg := exampleConfig false true [u] None in
  let req := exampleRequest [exampleQuestion 1] in
  let d := exampleContext ProtoTCP req in
  let p := {| upstreamsRtt := [0];
              upstreamsWeighted := [ {| randutil.Weight := 1;
                                        randutil.Item := randutil.ItemInt 0 |} ];
              cache_ := Some {| Get := fun m => (Some (exampleReply m), true) |} |} in
  handleDNSRequest cfg (exampleEnv false) d p =
    (Ok (set_Res (set_Upstream (set_StartTime d 1000) u 0) (Some (exampleReply req)),
         None),
     p, [EvCacheGet req; EvRespond respondTCP (exampleReply req)]) /\
  List.filter (fun e => match e with EvExchange _ _ _ => true | _ => false end)
    (trace_of (handleDNSRequest cfg (exampleEnv false) d p)) = [] /\
  recorded (trace_of (handleDNSRequest cfg (exampleEnv false) d p)) = [].
Proof.
  intros u cfg req d p.
  apply (handleDNSRequest_cache_hit cfg (exampleEnv false) d p u 0 (exampleReply req));
    reflexivity.
Defined.

(** [Resolve] after a cache miss, on a selector the index fits. *)
Lemma Resolve_miss_ok (cfg : Config) (env : Env) (d : DNSContext) (p : Proxy)
    (u : upstream.Upstream) (reply : option dns.Msg) (err : error) :
  cached p (Req d) = None ->
  Upstream d = Some u ->
  upstream.Exchange u (Req d) = (reply, err) ->
  0 <= UpstreamIdx d < Z.of_nat (length (upstreamsRtt p)) ->
  length (upstreamsRtt p) = length (upstreamsWeighted p) ->
  Resolve cfg env d p =
    (Ok (set_Res d (Some (finalResponse (Req d) (afterFallback cfg (Req d) reply err).1)),
         (afterFallback cfg (Req d) reply err).2),
     record (UpstreamIdx d) (resolveRtt env err) p,
     cacheGetTrace p (Req d)
       ++ [EvExchange PrimaryExchange (upstream.Address u) (Req d);
           EvCalculateUpstreamWeights (UpstreamIdx d) (resolveRtt env err)]
       ++ fallbackTrace cfg (Req d) err
       ++ cacheSetTrace p (afterFallback cfg (Req d) reply err).1).
Proof.
  intros Hmiss Hu Hex Hidx Hlen.
  rewrite (Resolve_miss cfg env d p u reply err Hmiss Hu Hex). cbv zeta.
  rewrite (calculateUpstreamWeights_no_panic _ (resolveRtt env err) p Hidx Hlen).
  rewrite <- app_assoc. reflexivity.
Qed.

(** X9: an upstream failure.  When, after a cache miss, the exchange (and
    the fallback, if one is configured and tried) ends without a reply,
    the client is still answered: with a SERVFAIL built from its request.
    The error of the last exchange comes back from [handleDNSRequest]
    wrapped as "talking to dnsUpstream failed" (nil when that exchange
    gave neither a reply nor an error), and the chosen upstream has been
    scored once. *)
Theorem handleDNSRequest_upstream_failure (cfg : Config) (env : Env)
    (d : DNSContext) (p : Proxy) (u : upstream.Upstream) (idx : Z)
    (reply : option dns.Msg) (err err' : error) :
  dropped env d = false ->
  refusal cfg (Req d) = None ->
  Res d = None ->
  Handler cfg = None ->
  cached p (Req d) = None ->
  result_of (chooseUpstream cfg env p) = Ok (u, idx) ->
  length (upstreamsRtt p) = length (Upstreams cfg) ->
  length (upstreamsWeighted p) = length (Upstreams cfg) ->
  upstream.Exchange u (Req d) = (reply, err) ->
  afterFallback cfg (Req d) reply err = (None, err') ->
  exists pre,
    handleDNSRequest cfg env d p =
      (Ok (set_Res (set_Upstream (set_StartTime d (Now env)) u idx)
             (Some (genServerFailure (Req d))),
           decorate err'),
       record idx (resolveRtt env err) p,
       pre ++ respondTrace (Proto d) (genServerFailure (Req d))) /\
    Forall (fun e => isRespond e = false) pre /\
    recorded pre = [(idx, resolveRtt env err)] /\
    isServerFailure (Req d) (genServerFailure (Req d)).
Proof.
  intros Hdrop Href Hres Hhandler Hmiss Hchoose Hlr Hlw Hex Hfinal.
  pose proof (index_Some_range _ _ _ (chooseUpstream_ok cfg env p u idx Hchoose))
    as Hidx.
  pose proof (Resolve_miss_ok cfg env
                (set_Upstream (set_StartTime d (Now env)) u idx) p u reply err
                Hmiss eq_refl Hex) as Hrun.
  ctx_simpl. rewrite Hfinal in Hrun. simpl fst in Hrun. simpl snd in Hrun.
  unfold finalResponse in Hrun.
  specialize (Hrun ltac:(rewrite Hlr; exact Hidx) ltac:(congruence)).
  rewrite (handleDNSRequest_resolved cfg env d _ p _ u idx err'
             (genServerFailure (Req d)) _
             Hdrop Href Hres Hhandler Hchoose Hrun eq_refl).
  ctx_simpl.
  exists (ratelimitTrace d ++ chooseTrace cfg p ++ cacheGetTrace p (Req d)
          ++ [EvExchange PrimaryExchange (upstream.Address u) (Req d);
              EvCalculateUpstreamWeights idx (resolveRtt env err)]
          ++ fallbackTrace cfg (Req d) err).
  assert (Hset : cacheSetTrace p None = []).
  { unfold cacheSetTrace. destruct (cache_ p); reflexivity. }
  rewrite Hset, app_nil_r.
  split; [rewrite <- !app_assoc; reflexivity|].
  split; [apply no_respond_before_store|].
  split; [|apply genServerFailure_isServerFailure].
  rewrite !recorded_app, recorded_cacheGetTrace, recorded_fallbackTrace.
  unfold ratelimitTrace, chooseTrace.
  destruct (String.eqb (Proto d) ProtoUDP), (Upstreams cfg) as [|? [|? ?]];
    reflexivity.
Qed.

Lemma handleDNSRequest_upstream_failure_witness :
  let u := deadUpstream "192.0.2.1:53" in
  let cfg := exampleConfig false false [u] None in
  let req := exampleRequest [exampleQuestion 1] in
  let d := exampleContext ProtoTCP req in
  let p := startedProxy cfg in
  exists pre,
    handleDNSRequest cfg (exampleEnv false) d p =
      (Ok (set_Res (set_Upstream (set_StartTime d 1000) u 0)
             (Some (genServerFailure req)),
           decorate (Some (errors_New "i/o timeout"))),
       record 0 (resolveRtt (exampleEnv false) (Some (errors_New "i/o timeout"))) p,
       pre ++ respondTrace ProtoTCP (genServerFailure req)) /\
    Forall (fun e => isRespond e = false) pre /\
    recorded pre
      = [(0, resolveRtt (exampleEnv false) (Some (errors_New "i/o timeout")))] /\
    isServerFailure req (genServerFailure req).
Proof.
  intros u cfg req d p.
  apply (handleDNSRequest_upstream_failure cfg (exampleEnv false) d p u 0 None
           (Some (errors_New "i/o timeout")) (Some (errors_New "i/o timeout")));
    reflexivity.
Defined.

(** X10: a primary exchange that returns no error.  [Resolve] never
    contacts the fallback, configured or not; it scores the elapsed time
    in whole milliseconds, returns a nil error, and answers with the reply,
    or with SERVFAIL when the upstream returned neither reply nor error. *)
Theorem Resolve_primary_success (cfg : Config) (env : Env) (d : DNSContext)
    (p : Proxy) (u : upstream.Upstream) (reply : option dns.Msg) :
  cached p (Req d) = None ->
  Upstream d = Some u ->
  upstream.Exchange u (Req d) = (reply, None) ->
  0 <= UpstreamIdx d < Z.of_nat (length (upstreamsRtt p)) ->
  length (upstreamsRtt p) = length (upstreamsWeighted p) ->
  let run := Resolve cfg env d p in
  result_of run = Ok (set_Res d (Some (finalResponse (Req d) reply)), None) /\
  List.filter isFallbackExchange (trace_of run) = [] /\
  recorded (trace_of run)
    = [(UpstreamIdx d, GoInt.int (Z.quot (Since env) Millisecond))] /\
  proxy_of run
    = record (UpstreamIdx d) (GoInt.int (Z.quot (Since env) Millisecond)) p.
Proof.
  intros Hmiss Hu Hex Hidx Hlen run. unfold run.
  rewrite (Resolve_miss_ok cfg env d p u reply None Hmiss Hu Hex Hidx Hlen).
  unfold afterFallback, fallbackTrace, result_of, proxy_of, trace_of. simpl.
  split; [reflexivity|]. split; [|split; [|reflexivity]].
  - rewrite !List.filter_app, filter_fallback_cacheGetTrace. simpl.
    apply filter_fallback_cacheSetTrace.
  - rewrite !recorded_app, recorded_cacheGetTrace. simpl.
    rewrite (recorded_cacheSetTrace p reply). reflexivity.
Qed.

Lemma Resolve_primary_success_witness :
  let u := goodUpstream "8.8.8.8:53" in
  let fb := goodUpstream "1.1.1.1:53" in
  let cfg := exampleConfig false true [u] (Some fb) in
  let p := startedProxy cfg in
  let d := set_Upstream (exampleContext ProtoUDP (exampleRequest [exampleQuestion 1])) u 0 in
  let run := Resolve cfg (exampleEnv false) d p in
  result_of run = Ok (set_Res d (Some (exampleReply (Req d))), None) /\
  List.filter isFallbackExchange (trace_of run) = [] /\
  recorded (trace_of run) = [(0, 25)] /\
  proxy_of run = record 0 25 p.
Proof.
  intros u fb cfg p d.
  apply (Resolve_primary_success cfg (exampleEnv false) d p u
           (Some (exampleReply (Req d)))); try reflexivity.
  vm_compute. split; [discriminate | reflexivity].
Defined.

Lemma no_respond_cacheSetTrace (p : Proxy) (reply : option dns.Msg) :
  Forall (fun e => isRespond e = false) (cacheSetTrace p reply).
Proof. unfold cacheSetTrace. destruct (cache_ p), reply; repeat constructor. Qed.

(** [Resolve] on a selector the index fits: it returns, with a response. *)
Lemma Resolve_answers (cfg : Config) (env : Env) (d : DNSContext) (p : Proxy)
    (u : upstream.Upstream) :
  Upstream d = Some u ->
  0 <= UpstreamIdx d < Z.of_nat (length (upstreamsRtt p)) ->
  length (upstreamsRtt p) = length (upstreamsWeighted p) ->
  exists (res : dns.Msg) (err : error) (p' : Proxy) (tr : list Event),
    Resolve cfg env d p = (Ok (set_Res d (Some res), err), p', tr) /\
    Forall (fun e => isRespond e = false) tr.
Proof.
  intros Hu Hidx Hlen.
  destruct (cached p (Req d)) as [val|] eqn:Hc.
  - eexists _, _, _, _. split; [apply Resolve_hit; exact Hc|].
    repeat constructor.
  - destruct (upstream.Exchange u (Req d)) as [reply err] eqn:Hex.
    eexists _, _, _, _.
    split; [apply (Resolve_miss_ok cfg env d p u reply err); assumption|].
    repeat (apply Forall_app; split); try apply no_respond_cacheSetTrace.
    + unfold cacheGetTrace. destruct (cache_ p); repeat constructor.
    + repeat constructor.
    + unfold fallbackTrace. destruct err, (Fallback cfg); repeat constructor.
Qed.

(** X11: the default pipeline on a started proxy.  For a fresh context that
    the rate limiter does not drop, with at least one upstream configured,
    the selector as [Start] and the scoring leave it, and a weighted draw
    that returns one of its choices, [handleDNSRequest] never panics; it
    ends with a response in the context, and the write of that response
    is the last event and the only write (for a protocol other than the
    four known ones there is none). *)
Theorem handleDNSRequest_answers_once (cfg : Config) (env : Env)
    (d : DNSContext) (p : Proxy) :
  dropped env d = false ->
  Res d = None ->
  Handler cfg = None ->
  Upstreams cfg <> [] ->
  length (upstreamsRtt p) = length (Upstreams cfg) ->
  length (upstreamsWeighted p) = length (Upstreams cfg) ->
  items_ok p ->
  ((2 <= length (Upstreams cfg))%nat ->
   (WeightedChoice env (upstreamsWeighted p)).2 = None /\
   (WeightedChoice env (upstreamsWeighted p)).1 ∈ upstreamsWeighted p) ->
  exists (d' : DNSContext) (err : error) (p' : Proxy) (res : dns.Msg)
         (pre : list Event),
    handleDNSRequest cfg env d p
      = (Ok (d', err), p', pre ++ respondTrace (Proto d) res) /\
    Res d' = Some res /\
    Forall (fun e => isRespond e = false) pre.
Proof.
  intros Hdrop Hres Hhandler Hne Hlr Hlw Hitems Hdraw.
  destruct (refusal cfg (Req d)) as [res|] eqn:Href.
  - eexists _, _, _, res, _.
    split; [apply handleDNSRequest_refused; eassumption|].
    split; [reflexivity|].
    unfold ratelimitTrace. destruct (String.eqb _ _); repeat constructor.
  - destruct (chooseUpstream_total cfg env p Hne Hlw Hitems Hdraw)
      as (u & idx & Hchoose & _ & Hidx & _).
    assert (Hchoose' : result_of (chooseUpstream cfg env p) = Ok (u, idx))
      by (rewrite Hchoose; reflexivity).
    destruct (Resolve_answers cfg env
                (set_Upstream (set_StartTime d (Now env)) u idx) p u eq_refl)
      as (res & err & p' & tr & Hrun & Hquiet).
    { ctx_simpl. rewrite Hlr. exact Hidx. }
    { congruence. }
    eexists _, _, _, res, (ratelimitTrace d ++ chooseTrace cfg p ++ tr).
    rewrite (handleDNSRequest_resolved cfg env d _ p _ u idx err res tr
               Hdrop Href Hres Hhandler Hchoose' Hrun eq_refl).
    ctx_simpl. split; [rewrite <- !app_assoc; reflexivity|].
    split; [reflexivity|].
    repeat (apply Forall_app; split); try exact Hquiet.
    + unfold ratelimitTrace. destruct (String.eqb _ _); repeat constructor.
    + unfold chooseTrace. destruct (Upstreams cfg) as [|? [|? ?]]; repeat constructor.
Qed.

Lemma handleDNSRequest_answers_once_witness :
  let cfg := exampleConfig true true [deadUpstream "a"; goodUpstream "b"]
               (Some (goodUpstream "c")) in
  let d := exampleContext ProtoHTTPS (exampleRequest [exampleQuestion 28]) in
  let p := record 1 40 (startedProxy cfg) in
  exists (d' : DNSContext) (err : error) (p' : Proxy) (res : dns.Msg)
         (pre : list Event),
    handleDNSRequest cfg (exampleEnv true) d p
      = (Ok (d', err), p', pre ++ respondTrace (Proto d) res) /\
    Res d' = Some res /\
    Forall (fun e => isRespond e = false) pre.
Proof.
  intros cfg d p.
  apply (handleDNSRequest_answers_once cfg (exampleEnv true) d p);
    try reflexivity.
  - discriminate.
  - apply record_items_ok. apply Start_items_ok.
  - intros _. split; [reflexivity|]. left.
Defined.

(** The pipeline around whatever resolves the request, the configured
    handler or [Resolve]. *)
Lemma handleDNSRequest_dispatch (cfg : Config) (env : Env) (d d' : DNSContext)
    (p p' : Proxy) (u : upstream.Upstream) (idx : Z) (err : error)
    (tr : list Event) :
  dropped env d = false ->
  refusal cfg (Req d) = None ->
  Res d = None ->
  result_of (chooseUpstream cfg env p) = Ok (u, idx) ->
  match Handler cfg with
  | Some handler => handler (set_Upstream (set_StartTime d (Now env)) u idx)
  | None => Resolve cfg env (set_Upstream (set_StartTime d (Now env)) u idx)
  end p = (Ok (d', err), p', tr) ->
  handleDNSRequest cfg env d p =
    match Res d' with
    | Some res =>
        (Ok (d', decorate err), p',
         ratelimitTrace d ++ chooseTrace cfg p ++ tr ++ respondTrace (Proto d') res)
    | None =>
        (Panic "invalid memory address or nil pointer dereference", p',
         ratelimitTrace d ++ chooseTrace cfg p ++ tr ++ [])
    end.
Proof.
  intros Hdrop Href Hres Hchoose Hrun.
  rewrite handleDNSRequest_start.
  assert (Hlimit : ratelimitCheck env (set_StartTime d (Now env)) p
                   = (Ok false, p, ratelimitTrace d)).
  { rewrite ratelimitCheck_run.
    change (dropped env (set_StartTime d (Now env))) with (dropped env d).
    rewrite Hdrop. reflexivity. }
  destruct (Res d') as [res|] eqn:Hres'.
  - eapply bind_step; [exact Hlimit|].
    unfold refusal in Href. cbv zeta. ctx_simpl.
    destruct (negb (Z.of_nat (length (dns.Question_ (Req d))) =? 1)) eqn:Hcount;
      [destruct (refusesAny cfg (Req d)); discriminate|].
    ctx_simpl.
    destruct (refusesAny cfg (Req d)) eqn:Hany; [discriminate|].
    ctx_simpl. rewrite Hres.
    rewrite !bind_assoc.
    eapply bind_step.
    { rewrite chooseUpstream_run, Hchoose. reflexivity. }
    cbv beta iota. rewrite !bind_assoc.
    eapply bind_step; [exact Hrun|].
    cbv beta iota.
    replace (respondTrace (Proto d') res) with ([] ++ respondTrace (Proto d') res)
      by reflexivity.
    destruct err as [e|]; rewrite bind_ret; cbv beta iota;
      erewrite finish_run by eassumption; reflexivity.
  - eapply bind_step; [exact Hlimit|].
    unfold refusal in Href. cbv zeta. ctx_simpl.
    destruct (negb (Z.of_nat (length (dns.Question_ (Req d))) =? 1)) eqn:Hcount;
      [destruct (refusesAny cfg (Req d)); discriminate|].
    ctx_simpl.
    destruct (refusesAny cfg (Req d)) eqn:Hany; [discriminate|].
    ctx_simpl. rewrite Hres.
    rewrite !bind_assoc.
    eapply bind_step.
    { rewrite chooseUpstream_run, Hchoose. reflexivity. }
    cbv beta iota. rewrite !bind_assoc.
    eapply bind_step; [exact Hrun|].
    cbv beta iota.
    destruct err as [e|]; rewrite bind_ret; cbv beta iota;
      rewrite Hres'; reflexivity.
Qed.

(** X12: a custom handler.  It runs in place of [Resolve], on the context
    that already holds the chosen upstream; its error comes back wrapped as
    "talking to dnsUpstream failed" and the response it leaves in the
    context is written.  When it returns without a response,
    [handleDNSRequest] panics on the nil message at line 679, before the
    nil check of [respond] is reached, and nothing is written. *)
Theorem handleDNSRequest_custom_handler (cfg : Config) (env : Env)
    (d d' : DNSContext) (p p' : Proxy)
    (handler : DNSContext -> M (DNSContext * error))
    (u : upstream.Upstream) (idx : Z) (err : error) (tr : list Event) :
  dropped env d = false ->
  refusal cfg (Req d) = None ->
  Res d = None ->
  Handler cfg = Some handler ->
  result_of (chooseUpstream cfg env p) = Ok (u, idx) ->
  handler (set_Upstream (set_StartTime d (Now env)) u idx) p
    = (Ok (d', err), p', tr) ->
  (forall res, Res d' = Some res ->
     handleDNSRequest cfg env d p =
       (Ok (d', decorate err), p',
        ratelimitTrace d ++ chooseTrace cfg p ++ tr ++ respondTrace (Proto d') res)) /\
  (Res d' = None ->
     handleDNSRequest cfg env d p =
       (Panic "invalid memory address or nil pointer dereference", p',
        ratelimitTrace d ++ chooseTrace cfg p ++ tr)).
Proof.
  intros Hdrop Href Hres Hhandler Hchoose Hrun.
  pose proof (handleDNSRequest_dispatch cfg env d d' p p' u idx err tr
                Hdrop Href Hres Hchoose) as Hd.
  rewrite Hhandler in Hd. specialize (Hd Hrun).
  split.
  - intros res Hres'. rewrite Hd, Hres'. reflexivity.
  - intros Hres'. rewrite Hd, Hres', app_nil_r. reflexivity.
Qed.

Lemma handleDNSRequest_custom_handler_witness :
  let req := exampleRequest [exampleQuestion 1] in
  let d := exampleContext ProtoTCP req in
  let d1 := set_Upstream (set_StartTime d 1000) (goodUpstream "8.8.8.8:53") 0 in
  let p := startedProxy (handlerConfig idleHandler) in
  handleDNSRequest (handlerConfig refusingHandler) (exampleEnv false) d p
    = (Ok (set_Res d1 (Some (genNotImpl req)),
           decorate (Some (errors_New "refused"))),
       p, [EvRespond respondTCP (genNotImpl req)]) /\
  handleDNSRequest (handlerConfig idleHandler) (exampleEnv false) d p
    = (Panic "invalid memory address or nil pointer dereference", p, []).
Proof.
  intros req d d1 p. split.
  - apply (proj1 (handleDNSRequest_custom_handler
                    (handlerConfig refusingHandler) (exampleEnv false) d
                    (set_Res d1 (Some (genNotImpl req))) p p refusingHandler
                    (goodUpstream "8.8.8.8:53") 0 (Some (errors_New "refused")) []
                    eq_refl eq_refl eq_refl eq_refl eq_refl eq_refl)
                 (genNotImpl req) eq_refl).
  - apply (proj2 (handleDNSRequest_custom_handler
                    (handlerConfig idleHandler) (exampleEnv false) d d1 p p
                    idleHandler (goodUpstream "8.8.8.8:53") 0 None []
                    eq_refl eq_refl eq_refl eq_refl eq_refl eq_refl) eq_refl).
Defined.

(** ** What the pipeline never does to the proxy *)

Lemma same_shape_refl (p : Proxy) : same_shape p p.
Proof. repeat split. Qed.

Lemma same_shape_trans (p1 p2 p3 : Proxy) :
  same_shape p1 p2 -> same_shape p2 p3 -> same_shape p1 p3.
Proof. intros (? & ? & ?) (? & ? & ?). repeat split; congruence. Qed.

Lemma ks_ret {A : Type} (a : A) : keeps_shape (ret a).
Proof. intros p. apply same_shape_refl. Qed.

Lemma ks_panic {A : Type} (why : string) : keeps_shape (@panic A why).
Proof. intros p. apply same_shape_refl. Qed.

Lemma ks_get : keeps_shape get.
Proof. intros p. apply same_shape_refl. Qed.

Lemma ks_emit (e : Event) : keeps_shape (emit e).
Proof. intros p. apply same_shape_refl. Qed.

Lemma ks_bind {A B : Type} (m : M A) (k : A -> M B) :
  keeps_shape m -> (forall a, keeps_shape (k a)) -> keeps_shape (bind m k).
Proof.
  intros Hm Hk p. specialize (Hm p). unfold bind, proxy_of in *.
  destruct (m p) as [[[a|why] p'] t]; simpl in *; [|exact Hm].
  specialize (Hk a p'). unfold proxy_of in Hk.
  destruct (k a p') as [[r p''] t']. simpl in *.
  eapply same_shape_trans; eassumption.
Qed.

Lemma ks_calculateUpstreamWeights (i r : Z) :
  keeps_shape (calculateUpstreamWeights i r).
Proof.
  intros p. change (proxy_of (calculateUpstreamWeights i r p)) with (record i r p).
  destruct (record_frame i r p) as (_ & H1 & H2 & _ & H3).
  repeat split; assumption.
Qed.

Ltac ks_step :=
  first
    [ apply ks_ret | apply ks_panic | apply ks_get | apply ks_emit
    | apply ks_calculateUpstreamWeights
    | apply ks_bind; [|intros]
    | match goal with
      | |- keeps_shape (match ?x with _ => _ end) => destruct x
      end ].

Lemma ks_chooseUpstream (cfg : Config) (env : Env) :
  keeps_shape (chooseUpstream cfg env).
Proof. unfold chooseUpstream. cbv zeta. repeat ks_step. Qed.

Lemma ks_Resolve (cfg : Config) (env : Env) (d : DNSContext) :
  keeps_shape (Resolve cfg env d).
Proof. unfold Resolve. cbv zeta. repeat ks_step. Qed.

Lemma ks_respond (d : DNSContext) : keeps_shape (respond d).
Proof. unfold respond. repeat ks_step. Qed.

(** X13: with the default resolver, no run of [handleDNSRequest], whether
    it returns or panics, resizes [upstreamsRtt] or [upstreamsWeighted] or
    replaces the cache: the vectors keep the one-entry-per-upstream layout
    that [Start] gave them. *)
Theorem handleDNSRequest_keeps_shape (cfg : Config) (env : Env) (d : DNSContext)
    (p : Proxy) :
  Handler cfg = None ->
  same_shape p (proxy_of (handleDNSRequest cfg env d p)).
Proof.
  intros Hhandler. revert p.
  change (keeps_shape (handleDNSRequest cfg env d)).
  unfold handleDNSRequest, ratelimitCheck, logDNSMessage. cbv zeta.
  rewrite Hhandler.
  repeat first
    [ apply ks_chooseUpstream | apply ks_Resolve | apply ks_respond | ks_step ].
Qed.

Lemma handleDNSRequest_keeps_shape_witness :
  let cfg := exampleConfig false true [deadUpstream "a"; goodUpstream "b"] None in
  let d := exampleContext ProtoUDP (exampleRequest [exampleQuestion 1]) in
  let p := startedProxy cfg in
  same_shape p (proxy_of (handleDNSRequest cfg (exampleEnv false) d p)).
Proof.
  intros cfg d p.
  apply (handleDNSRequest_keeps_shape cfg (exampleEnv false) d p). reflexivity.
Defined.

(** * Starting and stopping *)

(** A proxy listening on UDP and TCP starts both loops; stopping it closes
    the TCP listener first. *)
Example start_stop_example :
  let lc := exampleListenConfig true true false false in
  let cfg := exampleConfig false false [goodUpstream "8.8.8.8:53"] None in
  let os := exampleSockets false false in
  let udp := {| lifecycle.LocalAddr := net.UDPAddr (Some [127; 0; 0; 1]) 53 |} in
  let tcp := {| lifecycle.ListenerAddr := net.TCPAddr (Some [127; 0; 0; 1]) 53;
                lifecycle.ListenerTLS := None |} in
  let run := lifecycle.Start lc cfg os emptyCache lifecycle.newServer in
  run.1.1 = None /\
  run.2 = [lifecycle.LvListenUDP (Some [127; 0; 0; 1], 53);
           lifecycle.LvListenTCP lifecycle.ForTCP (Some [127; 0; 0; 1], 53);
           lifecycle.LvGo (lifecycle.GoUDPPacketLoop udp);
           lifecycle.LvGo (lifecycle.GoTCPPacketLoop tcp ProtoTCP)] /\
  lifecycle.started run.1.2 = true /\
  (lifecycle.Stop os run.1.2).2
    = [lifecycle.LvCloseListener tcp; lifecycle.LvCloseUDP udp] /\
  (lifecycle.Stop os run.1.2).1.2
    = lifecycle.set_proxy lifecycle.newServer (startedProxy cfg).
Proof. repeat split. Qed.

(** What one call of [Stop] does, case by case. *)
Lemma Stop_cases (os : lifecycle.Sockets) (s : lifecycle.Server) :
  let run := lifecycle.Stop os s in
  lifecycle.proxy run.1.2 = lifecycle.proxy s /\
  Forall (fun e => lifecycle.isClose e = true) run.2 /\
  (lifecycle.started s = false -> run = (None, s, [])) /\
  (lifecycle.started s = true ->
     (run.1.1 = None /\ lifecycle.started run.1.2 = false /\
      lifecycle.held run.1.2 = 0%nat /\ run.2 = closeTrace s /\
      lifecycle.tcpListen run.1.2 = None /\ lifecycle.udpListen run.1.2 = None /\
      lifecycle.tlsListen run.1.2 = None /\
      (lifecycle.httpsServer s <> None -> lifecycle.httpsListen run.1.2 = None))
     \/
     (run.1.1 <> None /\ lifecycle.started run.1.2 = true /\
      (lifecycle.held run.1.2 < lifecycle.held s)%nat /\
      (length run.2 <= lifecycle.held s - lifecycle.held run.1.2)%nat)).
Proof.
  destruct s as [st udp tcp tlsl httpsl httpsS px].
  unfold closeTrace, lifecycle.held. life_unfold. simpl.
  destruct st; simpl.
  - destruct tcp as [l1|], udp as [c|], tlsl as [l2|], httpsS as [h|]; simpl;
      repeat match goal with
             | |- context [lifecycle.CloseListener os ?l] =>
                 destruct (lifecycle.CloseListener os l); simpl
             | |- context [lifecycle.CloseUDP os ?c] =>
                 destruct (lifecycle.CloseUDP os c); simpl
             | |- context [lifecycle.CloseServer os ?h] =>
                 destruct (lifecycle.CloseServer os h); simpl
             end;
      (split; [reflexivity|]); (split; [repeat constructor|]);
      (split; [discriminate|]); intros _;
      first [ left; repeat split; (reflexivity || discriminate || congruence)
            | right; repeat split; (discriminate || lia) ].
  - repeat split; try reflexivity; try constructor. discriminate.
Qed.

(** What [startListeners] does, case by case. *)
Lemma startListeners_cases (lc : lifecycle.ListenConfig) (os : lifecycle.Sockets)
    (s : lifecycle.Server) :
  let run := lifecycle.startListeners lc os s in
  lifecycle.started run.1.2 = lifecycle.started s /\
  lifecycle.proxy run.1.2 = lifecycle.proxy s /\
  Forall (fun e => lifecycle.isClose e = false) run.2 /\
  (run.1.1 = None ->
     listening lc os s run.1.2 /\
     List.filter lifecycle.isGo run.2 = goTrace run.1.2) /\
  (run.1.1 <> None -> Forall (fun e => lifecycle.isGo e = false) run.2).
Proof.
  destruct lc as [udpA tcpA httpsA tlsA tlsC].
  destruct s as [st udp tcp tlsl httpsl httpsS px].
  unfold listening, goTrace. life_unfold. simpl.
  destruct udpA as [a1|]; simpl;
    [destruct (lifecycle.ListenUDP os a1) as [c1|e1] eqn:H1; simpl|];
    (destruct tcpA as [a2|]; simpl;
      [destruct (lifecycle.ListenTCP os lifecycle.ForTCP a2) as [l2|e2] eqn:H2; simpl|]);
    (destruct tlsA as [a3|]; simpl;
      [destruct (lifecycle.ListenTCP os lifecycle.ForTLS a3) as [l3|e3] eqn:H3; simpl|]);
    (destruct httpsA as [a4|]; simpl;
      [destruct (lifecycle.ListenTCP os lifecycle.ForHTTPS a4) as [l4|e4] eqn:H4; simpl|]);
    repeat match goal with
           | |- context [match ?x with Some _ => _ | None => _ end] =>
               is_var x; destruct x; simpl
           end;
    (split; [reflexivity|]); (split; [reflexivity|]);
    (split; [repeat constructor|]);
    (split; [intros Hnil; try discriminate;
             (split; [repeat split; eauto | reflexivity])
            | intros Herr; try (exfalso; apply Herr; reflexivity);
              repeat constructor]).
Qed.

Lemma Start_run (lc : lifecycle.ListenConfig) (cfg : Config)
    (os : lifecycle.Sockets) (fresh : cache) (s : lifecycle.Server) :
  lifecycle.validateConfig s lc cfg = None ->
  let s1 := lifecycle.set_proxy s (Start cfg fresh (lifecycle.proxy s)) in
  let inner := lifecycle.startListeners lc os s1 in
  lifecycle.Start lc cfg os fresh s =
    (inner.1.1,
     match inner.1.1 with
     | Some _ => inner.1.2
     | None => lifecycle.set_started inner.1.2 true
     end,
     inner.2).
Proof.
  intros Hvalid s1 inner. unfold lifecycle.Start. rewrite Hvalid.
  fold s1. fold inner. destruct inner as [[[e|] s2] t]; reflexivity.
Qed.

Lemma validateConfig_None (s : lifecycle.Server) (lc : lifecycle.ListenConfig)
    (cfg : Config) :
  lifecycle.validateConfig s lc cfg = None <->
  lifecycle.started s = false /\
  (lifecycle.UDPListenAddr lc <> None \/ lifecycle.TCPListenAddr lc <> None \/
   lifecycle.TLSListenAddr lc <> None \/ lifecycle.HTTPSListenAddr lc <> None) /\
  (lifecycle.TLSListenAddr lc <> None -> lifecycle.TLSConfig lc <> None) /\
  (lifecycle.HTTPSListenAddr lc <> None -> lifecycle.TLSConfig lc <> None) /\
  Upstreams cfg <> [].
Proof.
  unfold lifecycle.validateConfig.
  destruct (lifecycle.started s), (lifecycle.UDPListenAddr lc),
    (lifecycle.TCPListenAddr lc), (lifecycle.TLSListenAddr lc),
    (lifecycle.HTTPSListenAddr lc), (lifecycle.TLSConfig lc),
    (Upstreams cfg); simpl;
    (split;
     [ intros H; try discriminate; repeat split; try congruence; eauto 6
     | intros (H1 & H2 & H3 & H4 & H5); try discriminate; try congruence;
       try (exfalso; apply H3; congruence; fail);
       try (exfalso; apply H4; congruence; fail);
       try (exfalso; destruct H2 as [H2|[H2|[H2|H2]]]; congruence) ]).
Qed.

(** X14: the configurations [Start] accepts.  [validateConfig] passes
    exactly when the proxy is not running, at least one listen address is
    set, a TLS or HTTPS address comes with a TLS configuration, and there
    is an upstream; on any other configuration [Start] returns the error
    without opening a socket and without touching the proxy. *)
Theorem Start_validates (lc : lifecycle.ListenConfig) (cfg : Config)
    (os : lifecycle.Sockets) (fresh : cache) (s : lifecycle.Server) :
  (lifecycle.validateConfig s lc cfg = None <->
   lifecycle.started s = false /\
   (lifecycle.UDPListenAddr lc <> None \/ lifecycle.TCPListenAddr lc <> None \/
    lifecycle.TLSListenAddr lc <> None \/ lifecycle.HTTPSListenAddr lc <> None) /\
   (lifecycle.TLSListenAddr lc <> None -> lifecycle.TLSConfig lc <> None) /\
   (lifecycle.HTTPSListenAddr lc <> None -> lifecycle.TLSConfig lc <> None) /\
   Upstreams cfg <> []) /\
  (forall e, lifecycle.validateConfig s lc cfg = Some e ->
     lifecycle.Start lc cfg os fresh s = (Some e, s, [])) /\
  (lifecycle.started s = true ->
     lifecycle.Start lc cfg os fresh s
     = (Some (errors_New "server has been already started"), s, [])).
Proof.
  split; [apply validateConfig_None|]. split.
  - intros e He. unfold lifecycle.Start. rewrite He. reflexivity.
  - intros Hst. unfold lifecycle.Start, lifecycle.validateConfig.
    rewrite Hst. reflexivity.
Qed.

(** X15: a successful [Start].  When [Start] returns nil the proxy was not
    running before and is running now; the selector holds a zero RTT, a
    weight of 1 and its own index for every upstream; every configured
    address has its socket in the proxy (the TLS and HTTPS ones wrapped
    with the TLS configuration, the HTTPS server with both timeouts at the
    default), the listeners of the addresses not configured are as they
    were; one loop has been launched per listener the proxy holds and
    nothing has been closed. *)
Theorem Start_success (lc : lifecycle.ListenConfig) (cfg : Config)
    (os : lifecycle.Sockets) (fresh : cache) (s : lifecycle.Server) :
  (lifecycle.Start lc cfg os fresh s).1.1 = None ->
  let s' := (lifecycle.Start lc cfg os fresh s).1.2 in
  let t := (lifecycle.Start lc cfg os fresh s).2 in
  lifecycle.started s = false /\
  lifecycle.started s' = true /\
  lifecycle.proxy s' = Start cfg fresh (lifecycle.proxy s) /\
  stats_ok (length (Upstreams cfg)) (lifecycle.proxy s') /\
  items_ok (lifecycle.proxy s') /\
  listening lc os s s' /\
  List.filter lifecycle.isGo t = goTrace s' /\
  Forall (fun e => lifecycle.isClose e = false) t.
Proof.
  intros Hnil s' t. unfold s', t in *. clear s' t.
  destruct (lifecycle.validateConfig s lc cfg) as [e|] eqn:Hvalid.
  { unfold lifecycle.Start in Hnil. rewrite Hvalid in Hnil. discriminate. }
  pose proof (proj1 (validateConfig_None s lc cfg) Hvalid) as (Hst & _).
  rewrite (Start_run lc cfg os fresh s Hvalid) in *. cbv zeta in *.
  set (s1 := lifecycle.set_proxy s (Start cfg fresh (lifecycle.proxy s))) in *.
  destruct (startListeners_cases lc os s1) as (H1 & H2 & H3 & H4 & _).
  cbv zeta in *.
  destruct (lifecycle.startListeners lc os s1) as [[[e|] s2] tr]; simpl in *;
    [discriminate|].
  destruct (H4 eq_refl) as [Hlisten Hgo].
  split; [exact Hst|]. split; [reflexivity|].
  split; [exact H2|]. rewrite H2.
  split; [apply Start_stats_ok|]. split; [apply Start_items_ok|].
  split; [exact Hlisten|]. split; [exact Hgo | exact H3].
Qed.

Lemma Start_success_witness :
  let lc := exampleListenConfig true true true true in
  let cfg := exampleConfig false true [goodUpstream "a"; goodUpstream "b"] None in
  let os := exampleSockets false false in
  let s' := (lifecycle.Start lc cfg os emptyCache lifecycle.newServer).1.2 in
  let t := (lifecycle.Start lc cfg os emptyCache lifecycle.newServer).2 in
  lifecycle.started lifecycle.newServer = false /\
  lifecycle.started s' = true /\
  lifecycle.proxy s' = Start cfg emptyCache (lifecycle.proxy lifecycle.newServer) /\
  stats_ok (length (Upstreams cfg)) (lifecycle.proxy s') /\
  items_ok (lifecycle.proxy s') /\
  listening lc os lifecycle.newServer s' /\
  List.filter lifecycle.isGo t = goTrace s' /\
  Forall (fun e => lifecycle.isClose e = false) t.
Proof.
  intros lc cfg os.
  apply (Start_success lc cfg os emptyCache lifecycle.newServer). reflexivity.
Defined.



(** X17: a successful [Stop] of a running proxy closes the sockets it
    holds, each once, in the order TCP, UDP, TLS, HTTPS server, forgets
    them and marks the proxy as stopped; the pipeline's state is kept.
    From then on [Addr] answers nil, and a second [Stop] returns nil
    without closing anything. *)
Theorem Stop_success (os : lifecycle.Sockets) (s : lifecycle.Server) :
  lifecycle.started s = true ->
  (lifecycle.Stop os s).1.1 = None ->
  let s' := (lifecycle.Stop os s).1.2 in
  (lifecycle.Stop os s).2 = closeTrace s /\
  lifecycle.started s' = false /\
  lifecycle.held s' = 0%nat /\
  lifecycle.proxy s' = lifecycle.proxy s /\
  lifecycle.Addr s' ProtoTCP = Ok None /\
  lifecycle.Addr s' ProtoTLS = Ok None /\
  lifecycle.Addr s' ProtoUDP = Ok None /\
  (lifecycle.httpsServer s <> None -> lifecycle.Addr s' ProtoHTTPS = Ok None) /\
  lifecycle.Stop os s' = (None, s', []).
Proof.
  intros Hst Hnil s'. unfold s'. clear s'.
  destruct (Stop_cases os s) as (Hpx & _ & _ & Hrun). cbv zeta in *.
  destruct (Hrun Hst) as [(_ & H1 & H2 & H3 & H4 & H5 & H6 & H7)|(Herr & _)];
    [|contradiction].
  split; [exact H3|]. split; [exact H1|]. split; [exact H2|].
  split; [exact Hpx|].
  unfold lifecycle.Addr. simpl. rewrite H4, H5, H6.
  split; [reflexivity|]. split; [reflexivity|]. split; [reflexivity|].
  split; [intros Hs; rewrite (H7 Hs); reflexivity|].
  destruct (Stop_cases os (lifecycle.Stop os s).1.2) as (_ & _ & Hstopped & _).
  apply Hstopped. exact H1.
Qed.

Lemma Stop_success_witness :
  let lc := exampleListenConfig true true true true in
  let cfg := exampleConfig false true [goodUpstream "a"] None in
  let os := exampleSockets false false in
  let s := (lifecycle.Start lc cfg os emptyCache lifecycle.newServer).1.2 in
  let s' := (lifecycle.Stop os s).1.2 in
  length (closeTrace s) = 4%nat /\
  (lifecycle.Stop os s).2 = closeTrace s /\
  lifecycle.started s' = false /\
  lifecycle.held s' = 0%nat /\
  lifecycle.proxy s' = lifecycle.proxy s /\
  lifecycle.Addr s' ProtoTCP = Ok None /\
  lifecycle.Addr s' ProtoTLS = Ok None /\
  lifecycle.Addr s' ProtoUDP = Ok None /\
  (lifecycle.httpsServer s <> None -> lifecycle.Addr s' ProtoHTTPS = Ok None) /\
  lifecycle.Stop os s' = (None, s', []).
Proof.
  intros lc cfg os s. split; [reflexivity|].
  apply (Stop_success os s); reflexivity.
Defined.

Lemma stopAgain_stopped (os : lifecycle.Sockets) (n : nat) (s : lifecycle.Server) :
  lifecycle.started s = false -> stopAgain os n s = s.
Proof.
  intros Hst. induction n as [|n IH]; [reflexivity|].
  unfold stopAgain in *. simpl. rewrite IH.
  destruct (Stop_cases os s) as (_ & _ & Hstopped & _).
  cbv zeta in Hstopped. rewrite (Hstopped Hst). reflexivity.
Qed.

Lemma stopAgain_succ (os : lifecycle.Sockets) (n : nat) (s : lifecycle.Server) :
  stopAgain os (S n) s = stopAgain os n (lifecycle.Stop os s).1.2.
Proof.
  unfold stopAgain. induction n as [|n IH]; [reflexivity|].
  change (Nat.iter (S (S n)) ?f ?x) with (f (Nat.iter (S n) f x)).
  rewrite IH. reflexivity.
Qed.

Lemma stopAgain_bound (os : lifecycle.Sockets) (n : nat) (s : lifecycle.Server) :
  (lifecycle.held s <= n)%nat ->
  lifecycle.started (stopAgain os (S n) s) = false.
Proof.
  revert s. induction n as [|n IH]; intros s Hheld.
  - rewrite stopAgain_succ. simpl.
    destruct (lifecycle.started s) eqn:Hst.
    + destruct (Stop_cases os s) as (_ & _ & _ & Hrun). cbv zeta in Hrun.
      destruct (Hrun Hst) as [(_ & H & _)|(_ & _ & Hlt & _)]; [exact H | lia].
    + destruct (Stop_cases os s) as (_ & _ & Hstopped & _).
      cbv zeta in Hstopped. rewrite (Hstopped Hst). exact Hst.
  - rewrite stopAgain_succ.
    destruct (lifecycle.started s) eqn:Hst.
    + destruct (Stop_cases os s) as (_ & _ & _ & Hrun). cbv zeta in Hrun.
      destruct (Hrun Hst) as [(_ & H & _)|(_ & _ & Hlt & _)].
      * rewrite stopAgain_stopped; assumption.
      * apply IH. lia.
    + destruct (Stop_cases os s) as (_ & _ & Hstopped & _).
      cbv zeta in Hstopped. rewrite (Hstopped Hst).
      rewrite stopAgain_stopped; assumption.
Qed.

(** X18: a failing [Stop].  When closing a socket fails, [Stop] returns the
    wrapped error at once: the proxy stays marked as started and the
    sockets after the failing one stay open, but the failing socket and
    the ones before it are forgotten, so at least one socket fewer is
    held and none is closed twice.  Calling [Stop] again therefore shuts
    the proxy down within one call more than the number of sockets
    held. *)
Theorem Stop_failure_progress (os : lifecycle.Sockets) (s : lifecycle.Server) :
  (lifecycle.started s = true -> (lifecycle.Stop os s).1.1 <> None ->
     lifecycle.started (lifecycle.Stop os s).1.2 = true /\
     (lifecycle.held (lifecycle.Stop os s).1.2 < lifecycle.held s)%nat /\
     (length (lifecycle.Stop os s).2
      <= lifecycle.held s - lifecycle.held (lifecycle.Stop os s).1.2)%nat /\
     Forall (fun e => lifecycle.isClose e = true) (lifecycle.Stop os s).2) /\
  lifecycle.started (stopAgain os (S (lifecycle.held s)) s) = false.
Proof.
  split; [|apply stopAgain_bound; lia].
  intros Hst Herr.
  destruct (Stop_cases os s) as (_ & Hclose & _ & Hrun). cbv zeta in *.
  destruct (Hrun Hst) as [(Hnil & _)|(_ & H1 & H2 & H3)]; [contradiction|].
  repeat split; assumption.
Qed.

Lemma Stop_failure_progress_witness :
  let lc := exampleListenConfig true true true false in
  let cfg := exampleConfig false false [goodUpstream "a"] None in
  let s := (lifecycle.Start lc cfg (exampleSockets false false) emptyCache
              lifecycle.newServer).1.2 in
  let os := exampleSockets false true in
  (lifecycle.Stop os s).1.1
    = Some (errorx_Decorate (errors_New "close failed")
              "couldn't close UDP listening socket") /\
  lifecycle.held s = 3%nat /\
  lifecycle.httpsServer (lifecycle.Stop os s).1.2 <> None /\
  lifecycle.started (lifecycle.Stop os s).1.2 = true /\
  (lifecycle.held (lifecycle.Stop os s).1.2 < lifecycle.held s)%nat /\
  (length (lifecycle.Stop os s).2
   <= lifecycle.held s - lifecycle.held (lifecycle.Stop os s).1.2)%nat /\
  Forall (fun e => lifecycle.isClose e = true) (lifecycle.Stop os s).2.
Proof.
  intros lc cfg s os. split; [reflexivity|]. split; [reflexivity|].
  split; [vm_compute; discriminate|].
  apply (proj1 (Stop_failure_progress os s));
    [reflexivity | vm_compute; discriminate].
Defined.

(** * The listeners *)

(** A DoH GET from 192.0.2.7 goes through the pipeline with an empty client
    address and is answered through the HTTP writer. *)
Example doh_get_example :
  let cfg := exampleConfig false false [goodUpstream "8.8.8.8:53"] None in
  let r := exampleDoH "GET" "AQID" "" "192.0.2.7:4433" ([], None) in
  let req := exampleRequest [exampleQuestion 1] in
  let run := @ServeHTTP exampleNetLib exampleWireLib cfg (exampleEnv true) r
               (startedProxy cfg) in
  trace_of run = [EvExchange PrimaryExchange "8.8.8.8:53" req;
                  EvCalculateUpstreamWeights 0 25;
                  EvRespond respondHTTPS (exampleReply req)] /\
  exists d, result_of run = Ok (doh.Handled d None) /\ Addr d = None.
Proof. split; [reflexivity|]. eexists. split; reflexivity. Qed.




(** ** Events and values of a run together *)

Section Obeys.

Context {P : Event -> Prop}.

Lemma ob_ret {A : Type} (Q : A -> Prop) (a : A) : Q a -> obeys P Q (ret a).
Proof.
  intros Ha p. split; [constructor|]. unfold ret, result_of. simpl.
  intros a' Heq. injection Heq as <-. exact Ha.
Qed.

Lemma ob_panic {A : Type} (Q : A -> Prop) (why : string) : obeys P Q (panic why).
Proof. intros p. split; [constructor|]. intros a Heq. discriminate. Qed.

Lemma ob_true {A : Type} (m : M A) : trace_sat P m -> obeys P (fun _ => True) m.
Proof. intros Hm p. split; [apply Hm | trivial]. Qed.

Lemma ob_bind {A B : Type} (Q1 : A -> Prop) (Q : B -> Prop) (m : M A)
    (k : A -> M B) :
  obeys P Q1 m -> (forall a, Q1 a -> obeys P Q (k a)) -> obeys P Q (bind m k).
Proof.
  intros Hm Hk p. destruct (Hm p) as [Ht Hr]. unfold bind, trace_of, result_of in *.
  destruct (m p) as [[[a|why] p'] t]; simpl in *.
  - destruct (Hk a (Hr a eq_refl) p') as [Ht' Hr']. unfold trace_of, result_of in *.
    destruct (k a p') as [[r p''] t']. simpl in *. split.
    + apply Forall_app. split; assumption.
    + exact Hr'.
  - split; [exact Ht | discriminate].
Qed.

Lemma ob_then {A B : Type} (Q : B -> Prop) (m : M A) (k : A -> M B) :
  trace_sat P m -> (forall a, obeys P Q (k a)) -> obeys P Q (bind m k).
Proof.
  intros Hm Hk. apply (ob_bind (fun _ => True)); [apply ob_true, Hm|].
  intros a _. apply Hk.
Qed.

End Obeys.

Lemma obeys_events {A : Type} (P P' : Event -> Prop) (Q : A -> Prop) (m : M A) :
  (forall e, P e -> P' e) -> obeys P Q m -> obeys P' Q m.
Proof.
  intros HP Hm p. destruct (Hm p) as [Ht Hr]. split; [|exact Hr].
  eapply Forall_impl; [exact Ht | exact HP].
Qed.

Ltac ts_own :=
  first
    [ apply ts_ret | apply ts_panic | apply ts_get | apply ts_put
    | apply ts_emit; simpl; auto
    | apply ts_bind; [|intros]
    | match goal with
      | |- trace_sat _ (match ?x with _ => _ end) => destruct x
      end ].

Lemma served_calculateUpstreamWeights (d : DNSContext) (i r : Z) :
  trace_sat (served d) (calculateUpstreamWeights i r).
Proof. unfold calculateUpstreamWeights. repeat ts_own. Qed.

Lemma served_chooseUpstream (d : DNSContext) (cfg : Config) (env : Env) :
  trace_sat (served d) (chooseUpstream cfg env).
Proof. unfold chooseUpstream. cbv zeta. repeat ts_own. Qed.

Lemma served_respond (d d' : DNSContext) :
  same_request d d' -> trace_sat (served d) (respond d').
Proof.
  intros (Hproto & _ & _). unfold respond.
  destruct (Res d') as [res|]; [|apply ts_ret].
  destruct (String.eqb (Proto d') ProtoUDP) eqn:Hudp;
    [|destruct (String.eqb (Proto d') ProtoTCP) eqn:Htcp;
      [|destruct (String.eqb (Proto d') ProtoTLS) eqn:Htls;
        [|destruct (String.eqb (Proto d') ProtoHTTPS) eqn:Hhttps;
          [|apply ts_ret]]]];
    apply ts_emit; simpl; rewrite <- Hproto; unfold writerOf;
    rewrite ?Hudp, ?Htcp, ?Htls, ?Hhttps; reflexivity.
Qed.

Lemma obeys_Resolve (cfg : Config) (env : Env) (d d' : DNSContext) :
  same_request d d' ->
  obeys (served d) (fun r => same_request d r.1) (Resolve cfg env d').
Proof.
  intros (Hproto & Hreq & Haddr). unfold Resolve. cbv zeta.
  assert (Hset : forall res, same_request d (set_Res d' res))
    by (intros res; repeat split; assumption).
  repeat first
    [ apply ob_ret; apply Hset
    | apply ob_panic
    | apply served_calculateUpstreamWeights
    | apply ob_then; [|intros]
    | apply ts_emit; simpl; solve [auto]
    | ts_own
    | match goal with
      | |- obeys _ _ (match ?x with _ => _ end) => destruct x
      end ].
Qed.

(** The pipeline behind the rate limiter. *)
Lemma handleDNSRequest_after_limiter (cfg : Config) (env : Env) (d : DNSContext)
    (p : Proxy) :
  Handler cfg = None ->
  exists t,
    trace_of (handleDNSRequest cfg env d p) = ratelimitTrace d ++ t /\
    Forall (served d) t /\
    (dropped env d = true -> t = []) /\
    forall d' err,
      result_of (handleDNSRequest cfg env d p) = Ok (d', err) ->
      same_request d d'.
Proof.
  intros Hhandler. rewrite handleDNSRequest_start.
  rewrite (bind_run _ _ _ _ _ _ (ratelimitCheck_run env _ p)).
  change (dropped env (set_StartTime d (Now env))) with (dropped env d).
  change (ratelimitTrace (set_StartTime d (Now env))) with (ratelimitTrace d).
  unfold trace_of at 1. unfold result_of at 1. cbn [fst snd].
  eexists. split; [reflexivity|].
  destruct (dropped env d) eqn:Hdrop.
  { split; [constructor|]. split; [reflexivity|].
    unfold ret, result_of. simpl. intros d' err Heq. injection Heq as <- _.
    repeat split. }
  cut (obeys (served d) (fun r : DNSContext * error => same_request d r.1)
    (let d0 := set_StartTime d (Now env) in
     let d1 := if negb (Z.of_nat (length (dns.Question_ (Req d0))) =? 1)
               then set_Res d0 (Some (genServerFailure (Req d0))) else d0 in
     let d2 := if refusesAny cfg (Req d1)
               then set_Res d1 (Some (genNotImpl (Req d1))) else d1 in
     let* (d3, err) :=
       match Res d2 with
       | None =>
           let* (dnsUpstream, upstreamIdx) := chooseUpstream cfg env in
           let d3 := set_Upstream d2 dnsUpstream upstreamIdx in
           let* (d4, err) :=
             match Handler cfg with
             | Some handler => handler d3
             | None => Resolve cfg env d3
             end in
           match err with
           | Some e =>
               ret (d4, Some (errorx_Decorate e "talking to dnsUpstream failed"))
           | None => ret (d4, None)
           end
       | Some _ => ret (d2, None)
       end in
     logDNSMessage (Res d3) ;;; respond d3 ;;; ret (d3, err))).
  { intros Hob. destruct (Hob p) as [Ht Hr]. split; [exact Ht|].
    split; [discriminate|]. intros d' err Heq. exact (Hr (d', err) Heq). }
  cbv zeta. rewrite Hhandler.
  set (d1 := if negb _ then _ else _).
  assert (H1 : same_request d d1) by (subst d1; destruct (negb _); repeat split).
  set (d2 := if refusesAny _ _ then _ else _).
  assert (H2 : same_request d d2)
    by (subst d2; destruct (refusesAny _ _); [repeat split; apply H1 | exact H1]).
  clearbody d2. clear d1 H1.
  apply (ob_bind (fun r => same_request d r.1)).
  - destruct (Res d2) as [res|]; [apply ob_ret; exact H2|].
    apply ob_then; [apply served_chooseUpstream|intros [u idx]].
    apply (ob_bind (fun r => same_request d r.1)).
    + apply obeys_Resolve. destruct H2 as (? & ? & ?). repeat split; assumption.
    + intros [d3 err] H3. destruct err; apply ob_ret; exact H3.
  - intros [d3 err] H3. simpl in H3.
    apply ob_then; [unfold logDNSMessage; destruct (Res d3); ts_own|intros _].
    apply ob_then; [apply served_respond; exact H3|intros _].
    apply ob_ret. exact H3.
Qed.

(** X20: with the default resolver, everything a run of [handleDNSRequest]
    does is on behalf of the request it was given.  The rate limiter is
    asked at most once, before anything else, only when the protocol is
    UDP and about the client of the context; after that the cache is
    looked up with, and the upstreams are sent, the client's message as it
    came in, and an answer goes through the writer of the context's
    protocol.  The context that comes back has the protocol, the message
    and the client address it came with. *)
Theorem handleDNSRequest_serves_request (cfg : Config) (env : Env)
    (d : DNSContext) (p : Proxy) :
  Handler cfg = None ->
  (exists t,
     trace_of (handleDNSRequest cfg env d p)
       = (if String.eqb (Proto d) ProtoUDP then [EvIsRatelimited (Addr d)] else [])
         ++ t /\
     Forall (served d) t) /\
  forall d' err,
    result_of (handleDNSRequest cfg env d p) = Ok (d', err) ->
    same_request d d'.
Proof.
  intros Hhandler.
  destruct (handleDNSRequest_after_limiter cfg env d p Hhandler)
    as (t & Ht & Hserved & _ & Hr).
  split; [exists t; split; assumption | exact Hr].
Qed.

Lemma handleDNSRequest_serves_request_witness :
  let cfg := exampleConfig false true [deadUpstream "a"; goodUpstream "b"]
               (Some (goodUpstream "c")) in
  let d := exampleContext ProtoUDP (exampleRequest [exampleQuestion 1]) in
  let run := handleDNSRequest cfg (exampleEnv false) d (startedProxy cfg) in
  exists t,
    trace_of run
      = (if String.eqb (Proto d) ProtoUDP then [EvIsRatelimited (Addr d)] else [])
        ++ t /\
    Forall (served d) t.
Proof.
  intros cfg d run.
  apply (handleDNSRequest_serves_request cfg (exampleEnv false) d (startedProxy cfg)).
  reflexivity.
Defined.

Lemma handleDNSRequest_events (cfg : Config) (env : Env) (d : DNSContext)
    (P : Event -> Prop) :
  Handler cfg = None -> Proto d <> ProtoUDP ->
  (forall e, served d e -> P e) ->
  trace_sat P (handleDNSRequest cfg env d).
Proof.
  intros Hhandler Hproto HP p.
  destruct (handleDNSRequest_after_limiter cfg env d p Hhandler)
    as (t & Ht & Hserved & _ & _).
  rewrite Ht. unfold ratelimitTrace. apply String.eqb_neq in Hproto.
  rewrite Hproto. simpl. eapply Forall_impl; [exact Hserved | exact HP].
Qed.

(** ** DNS over HTTPS *)





(** ** Plain DNS over UDP *)



Lemma datagrams_app (l1 l2 : list ReadStep) :
  datagrams (l1 ++ l2) = datagrams l1 ++ datagrams l2.
Proof. unfold datagrams. rewrite filter_app, map_app. reflexivity. Qed.

Lemma datagrams_cons (step : ReadStep) (l : list ReadStep) :
  datagrams (step :: l) = datagrams [step] ++ datagrams l.
Proof. apply (datagrams_app [step] l). Qed.

Lemma udp_turn (b : list Z) (step : ReadStep) :
  length b = Z.to_nat MaxMsgSize ->
  length (ReadFrom b (readData step)).2 = Z.to_nat MaxMsgSize /\
  (if 0 <? Z.of_nat (ReadFrom b (readData step)).1
   then [(take (ReadFrom b (readData step)).1 (ReadFrom b (readData step)).2,
          readAddr step)]
   else []) = datagrams [step].
Proof.
  unfold ReadFrom, datagrams. cbn [fst snd].
  assert (Hpos : (0 < Z.to_nat MaxMsgSize)%nat) by (unfold MaxMsgSize; lia).
  remember (Z.to_nat MaxMsgSize) as L eqn:HL. clear HL. intros Hb. rewrite Hb.
  split.
  - rewrite length_app, length_drop, length_take. lia.
  - rewrite take_app_length.
    rewrite filter_cons, filter_nil.
    destruct (readData step) as [|x data] eqn:Hdata.
    + rewrite take_nil. simpl. destruct (decide (@nil Z <> [])) as [Hne|Hne];
        [congruence | reflexivity].
    + destruct (decide (x :: data <> [])) as [Hne|Hne];
        [|exfalso; apply Hne; discriminate].
      assert (Hlen : (0 < length (take L (x :: data)))%nat)
        by (rewrite length_take; simpl; lia).
      destruct (Z.ltb_spec 0 (Z.of_nat (length (take L (x :: data))))); [|lia].
      simpl. rewrite Hdata. reflexivity.
Qed.

Lemma udpPacketLoop_from_dispatch `{WireLib} (pre : list ReadStep) :
  Forall (fun st => lastRead st = false) pre ->
  forall b, length b = Z.to_nat MaxMsgSize ->
  udpPacketLoop_from b pre = (datagrams pre, LoopPending, 0%nat) /\
  forall st rest,
    lastRead st = true ->
    udpPacketLoop_from b (pre ++ st :: rest) =
      if readStarted st then (datagrams (pre ++ [st]), LoopConnClosed, 0%nat)
      else (datagrams pre, LoopStopped, 1%nat).
Proof.
  induction 1 as [|step pre Hstep Hpre IH]; intros b Hb.
  - split; [reflexivity|]. intros st rest Hlast. cbn [app udpPacketLoop_from].
    unfold lastRead in Hlast.
    destruct (readStarted st); cbn [negb orb] in *; [|reflexivity].
    destruct (udp_turn b st Hb) as [_ Hturn].
    destruct (ReadFrom b (readData st)) as [n b']. cbn [fst snd] in Hturn.
    rewrite Hturn. destruct (readErr st) as [e|]; [|discriminate].
    rewrite Hlast. reflexivity.
  - change ((step :: pre) ++ ?l) with (step :: (pre ++ l)).
    cbn [udpPacketLoop_from].
    unfold lastRead in Hstep. apply orb_false_iff in Hstep as [Hstarted Hclosed].
    apply negb_false_iff in Hstarted. rewrite Hstarted. cbn [negb].
    destruct (udp_turn b step Hb) as [Hb' Hturn].
    destruct (ReadFrom b (readData step)) as [n b']. cbn [fst snd] in Hb', Hturn.
    rewrite Hturn. destruct (IH b' Hb') as [IH1 IH2].
    assert (Hgo : forall steps,
              match readErr step with
              | Some e =>
                  if isConnClosed (Some e) then (datagrams [step], LoopConnClosed, 0%nat)
                  else
                    let '(rest, exit, locks) := udpPacketLoop_from b' steps in
                    (datagrams [step] ++ rest, exit, locks)
              | None =>
                  let '(rest, exit, locks) := udpPacketLoop_from b' steps in
                  (datagrams [step] ++ rest, exit, locks)
              end =
              let '(rest, exit, locks) := udpPacketLoop_from b' steps in
              (datagrams [step] ++ rest, exit, locks)).
    { intros steps. destruct (readErr step) as [e|]; [|reflexivity].
      rewrite Hclosed. reflexivity. }
    split.
    + rewrite Hgo, IH1, (datagrams_cons step pre). reflexivity.
    + intros st rest Hlast. rewrite Hgo, (IH2 st rest Hlast).
      rewrite (datagrams_cons step pre), (datagrams_cons step (pre ++ [st])).
      destruct (readStarted st); reflexivity.
Qed.

(** X23: [udpPacketLoop] hands every datagram that is not empty to a
    handler, once, in the order of arrival, with its sender and exactly
    its own bytes (up to the 65535 of the buffer): nothing of an earlier,
    longer datagram is left in the copy.  This holds for the datagram
    that arrives together with an error too, also with the error of the
    closed connection that ends the loop.  Empty datagrams are skipped.
    A loop that finds the proxy stopped returns still holding the read
    lock; one that ends on the closed connection holds none. *)
Theorem udpPacketLoop_dispatch (wire : WireLib) (pre : list ReadStep) :
  Forall (fun st => lastRead st = false) pre ->
  udpPacketLoop pre = (datagrams pre, LoopPending, 0%nat) /\
  forall st rest,
    lastRead st = true ->
    udpPacketLoop (pre ++ st :: rest) =
      if readStarted st then (datagrams (pre ++ [st]), LoopConnClosed, 0%nat)
      else (datagrams pre, LoopStopped, 1%nat).
Proof.
  intros Hpre. apply udpPacketLoop_from_dispatch; [exact Hpre|].
  apply length_replicate.
Qed.

Lemma udpPacketLoop_dispatch_witness :
  let addr := Some (net.UDPAddr (Some [192; 0; 2; 7]) 5353) in
  @udpPacketLoop exampleWireLib
    ([exampleRead true [1; 2; 3; 4; 5] None; exampleRead true [] None;
      exampleRead true [9] (Some (errors_New "i/o timeout"))]
     ++ exampleRead true [1; 2; 3] (Some closedError)
     :: [exampleRead true [7] None])
  = ([([1; 2; 3; 4; 5], addr); ([9], addr); ([1; 2; 3], addr)], LoopConnClosed, 0%nat).
Proof.
  intros addr.
  apply (udpPacketLoop_dispatch exampleWireLib
           [exampleRead true [1; 2; 3; 4; 5] None; exampleRead true [] None;
            exampleRead true [9] (Some (errors_New "i/o timeout"))]).
  - repeat constructor.
  - reflexivity.
Defined.

(** ** Writing an answer *)

(** X24: when [isConnClosed] is false of the nil error, [respondUDP] and
    [respondTCP] return nil exactly when the answer packs (and, for TCP,
    takes its length prefix) and the connection reports no error and as
    many bytes written as were handed to it: a short write is an error.
    The error of a closed connection that wrote nothing is returned as it
    is, not decorated.  [respondHTTPS] does not look at the count: it
    returns nil exactly when the answer packs and the write reports no
    error, and it sends status 500 exactly when the answer does not
    pack. *)
Theorem respond_write_nil (wire : WireLib) (W : list Z -> Z * error)
    (resp : dns.Msg) :
  isConnClosed None = false ->
  (respondUDP_write W resp = None <->
   exists bytes, Pack resp = (bytes, None) /\
                 W bytes = (Z.of_nat (length bytes), None)) /\
  (respondTCP_write W resp = None <->
   exists bytes framed,
     Pack resp = (bytes, None) /\ prefixWithSize bytes = (framed, None) /\
     W framed = (Z.of_nat (length framed), None)) /\
  (forall bytes e,
     Pack resp = (bytes, None) -> W bytes = (0, Some e) ->
     isConnClosed (Some e) = true -> respondUDP_write W resp = Some e) /\
  (forall bytes framed e,
     Pack resp = (bytes, None) -> prefixWithSize bytes = (framed, None) ->
     W framed = (0, Some e) ->
     isConnClosed (Some e) = true -> respondTCP_write W resp = Some e) /\
  ((respondHTTPS_write W resp).2 = None <->
   exists bytes n, Pack resp = (bytes, None) /\ W bytes = (n, None)) /\
  ((respondHTTPS_write W resp).1 = Some 500 <-> (Pack resp).2 <> None).
Proof.
  intros Hnil.
  assert (Hwrite : forall (bytes : list Z) (what : string),
    (let '(n, err) := W bytes in
     if (n =? 0) && isConnClosed err then err
     else
       match err with
       | Some e => Some (errorx_Decorate e (String.append what " returned error"))
       | None =>
           if negb (n =? Z.of_nat (length bytes))
           then Some (errors_New
                        (String.append what
                           (String.append " returned with "
                              (String.append (pretty n)
                                 (String.append " != "
                                    (pretty (Z.of_nat (length bytes))))))))
           else None
       end) = None <-> W bytes = (Z.of_nat (length bytes), None)).
  { intros bytes what. destruct (W bytes) as [n [e|]].
    - split; [|discriminate].
      destruct ((n =? 0) && isConnClosed (Some e)); discriminate.
    - rewrite Hnil, andb_false_r.
      destruct (Z.eqb_spec n (Z.of_nat (length bytes))) as [->|Hne]; simpl.
      + split; reflexivity.
      + split; [discriminate|]. intros Heq. congruence. }
  split; [|split; [|split; [|split; [|split]]]].
  - unfold respondUDP_write. destruct (Pack resp) as [bytes [e|]].
    + split; [discriminate|]. intros (bytes' & Heq & _). discriminate.
    + rewrite (Hwrite bytes "conn.WriteTo()"). split.
      * intros HW. exists bytes. split; [reflexivity | exact HW].
      * intros (bytes' & Heq & HW). injection Heq as <-. exact HW.
  - unfold respondTCP_write. destruct (Pack resp) as [bytes [e|]].
    + split; [discriminate|]. intros (bytes' & framed & Heq & _). discriminate.
    + destruct (prefixWithSize bytes) as [framed [e|]] eqn:Hprefix.
      * split; [discriminate|]. intros (bytes' & framed' & Heq & Hp & _).
        injection Heq as <-. rewrite Hprefix in Hp. discriminate.
      * rewrite (Hwrite framed "conn.Write()"). split.
        -- intros HW. exists bytes, framed. repeat split; assumption.
        -- intros (bytes' & framed' & Heq & Hp & HW). injection Heq as <-.
           rewrite Hprefix in Hp. injection Hp as <-. exact HW.
  - intros bytes e HP HW Hclosed. unfold respondUDP_write.
    rewrite HP, HW, Hclosed. reflexivity.
  - intros bytes framed e HP Hprefix HW Hclosed. unfold respondTCP_write.
    rewrite HP, Hprefix, HW, Hclosed. reflexivity.
  - unfold respondHTTPS_write. destruct (Pack resp) as [bytes [e|]]; simpl.
    + split; [discriminate|]. intros (bytes' & n & Heq & _). discriminate.
    + destruct (W bytes) as [n err] eqn:HW. simpl. split.
      * intros ->. exists bytes, n. split; [reflexivity | exact HW].
      * intros (bytes' & n' & Heq & HW'). injection Heq as <-.
        rewrite HW in HW'. injection HW' as _ ->. reflexivity.
  - unfold respondHTTPS_write. destruct (Pack resp) as [bytes [e|]]; simpl.
    + split; [discriminate | reflexivity].
    + destruct (W bytes) as [n err]. simpl. split; [discriminate | congruence].
Qed.

Lemma respond_write_nil_witness :
  @respondUDP_write exampleWireLib (fun bytes => (0, Some closedError))
    (exampleReply (exampleRequest [exampleQuestion 1])) = Some closedError /\
  @respondTCP_write exampleWireLib (fun bytes => (0, Some closedError))
    (exampleReply (exampleRequest [exampleQuestion 1])) = Some closedError.
Proof.
  destruct (respond_write_nil exampleWireLib (fun bytes => (0, Some closedError))
              (exampleReply (exampleRequest [exampleQuestion 1])) eq_refl)
    as (_ & _ & Hudp & Htcp & _).
  split.
  - apply (Hudp [0; 0; 129; 128] closedError); reflexivity.
  - apply (Htcp [0; 0; 129; 128] [0; 4; 0; 0; 129; 128] closedError); reflexivity.
Defined.

(** ** DNS over TCP and TLS *)

Lemma bind_ext {A B : Type} (m : M A) (k k' : A -> M B) (p : Proxy) :
  (forall a p', k a p' = k' a p') -> bind m k p = bind m k' p.
Proof.
  intros Hk. unfold bind. destruct (m p) as [[[a|why] p'] t]; [|reflexivity].
  rewrite Hk. reflexivity.
Qed.

Lemma bind_result_Ok {A B : Type} (m : M A) (k : A -> M B) (p : Proxy) (b : B) :
  result_of (bind m k p) = Ok b ->
  exists a p', result_of (m p) = Ok a /\ proxy_of (m p) = p' /\
               result_of (k a p') = Ok b.
Proof.
  unfold bind, result_of, proxy_of.
  destruct (m p) as [[[a|why] p'] t]; simpl; [|discriminate].
  destruct (k a p') as [[r p''] t'] eqn:Hk. simpl. intros ->.
  exists a, p'. rewrite Hk. repeat split.
Qed.

(** X25: [handleTCPConnection] returns at the first turn at which the
    proxy is stopped, the read fails or the packet does not unpack:
    whatever the connection would still deliver is neither read nor
    handled, and the requests before that turn are handled as if the
    connection ended there. *)
Theorem handleTCPConnection_returns_at_first (wire : WireLib) (cfg : Config)
    (proto : string) (remote : net.Addr) (pre : list ConnStep) (st : ConnStep)
    (rest : list ConnStep) (p : Proxy) :
  lastTurn st = true ->
  handleTCPConnection cfg proto remote (pre ++ st :: rest) p
    = handleTCPConnection cfg proto remote (pre ++ [st]) p.
Proof.
  intros Hlast. revert p. induction pre as [|step pre IH]; intros p.
  - cbn [app handleTCPConnection]. unfold lastTurn in Hlast.
    destruct (stepStarted st); cbn [negb orb] in *; [|reflexivity].
    destruct (stepRead st) as [packet [e|]]; [reflexivity|].
    destruct (Unpack packet) as [msg [e|]]; [reflexivity|].
    discriminate.
  - change ((step :: pre) ++ ?l) with (step :: (pre ++ l)).
    cbn [handleTCPConnection].
    destruct (negb (stepStarted step)); [reflexivity|].
    destruct (stepRead step) as [packet [e|]]; [reflexivity|].
    destruct (Unpack packet) as [msg [e|]]; [reflexivity|].
    apply bind_ext. intros _ p'. apply IH.
Qed.

Lemma handleTCPConnection_returns_at_first_witness :
  let cfg := exampleConfig false false [goodUpstream "8.8.8.8:53"] None in
  let run := @handleTCPConnection exampleWireLib cfg ProtoTCP None in
  let query := exampleTurn true ([1; 2; 3], None) in
  let inert := exampleTurn true ([9], None) in
  run ([query] ++ inert :: [query; query]) (startedProxy cfg)
    = run ([query] ++ [inert]) (startedProxy cfg).
Proof.
  intros cfg run query inert.
  apply (handleTCPConnection_returns_at_first exampleWireLib cfg ProtoTCP None
           [query] inert [query; query] (startedProxy cfg)).
  reflexivity.
Defined.

(** X26: [handleTCPConnection] returns holding the proxy's read lock
    exactly when it returns because the proxy is stopped: the [return] of
    line 465 comes between [p.RLock()] and [p.RUnlock()].  It returns for
    that reason exactly when a turn finds the proxy stopped after turns
    that all were handled.  On every other return no lock is held. *)
Theorem handleTCPConnection_lock (wire : WireLib) (cfg : Config)
    (proto : string) (remote : net.Addr) (steps : list ConnStep) (p : Proxy)
    (exit : LoopExit) (locks : nat) :
  result_of (handleTCPConnection cfg proto remote steps p) = Ok (exit, locks) ->
  locks = (if exit is LoopStopped then 1 else 0)%nat /\
  (exit = LoopStopped <->
   exists pre st rest,
     steps = pre ++ st :: rest /\
     Forall (fun s => lastTurn s = false) pre /\
     stepStarted st = false).
Proof.
  revert p. induction steps as [|step steps IH]; intros p.
  - unfold result_of. simpl. intros Heq. injection Heq as <- <-.
    split; [reflexivity|]. split; [discriminate|].
    intros (pre & st & rest & Hsteps & _). destruct pre; discriminate.
  - cbn [handleTCPConnection].
    destruct (stepStarted step) eqn:Hstarted; cbn [negb].
    2:{ unfold result_of. simpl. intros Heq. injection Heq as <- <-.
        split; [reflexivity|]. split; [|reflexivity]. intros _.
        exists [], step, steps. repeat split; [constructor | exact Hstarted]. }
    assert (Hnot : lastTurn step = true ->
              ~ exists pre st rest,
                  step :: steps = pre ++ st :: rest /\
                  Forall (fun s => lastTurn s = false) pre /\
                  stepStarted st = false).
    { intros Hlast (pre & st & rest & Hsteps & Hpre & Hst).
      destruct pre as [|s pre]; simpl in Hsteps; injection Hsteps as <- _.
      - congruence.
      - apply Forall_cons in Hpre as [Hs _]. congruence. }
    destruct (stepRead step) as [packet [e|]] eqn:Hread.
    { unfold result_of. simpl. intros Heq. injection Heq as <- <-.
      split; [reflexivity|]. split; [discriminate|]. intros Hex.
      exfalso. apply Hnot; [|exact Hex].
      unfold lastTurn. rewrite Hread. apply orb_true_r. }
    destruct (Unpack packet) as [msg [e|]] eqn:Hun.
    { unfold result_of. simpl. intros Heq. injection Heq as <- <-.
      split; [reflexivity|]. split; [discriminate|]. intros Hex.
      exfalso. apply Hnot; [|exact Hex].
      unfold lastTurn. rewrite Hread, Hun. apply orb_true_r. }
    intros Hres. apply bind_result_Ok in Hres as (a & p' & _ & _ & Hres).
    destruct (IH p' Hres) as [Hlocks Hexit]. split; [exact Hlocks|].
    rewrite Hexit. split.
    + intros (pre & st & rest & -> & Hpre & Hst).
      exists (step :: pre), st, rest. repeat split; [|exact Hst].
      constructor; [|exact Hpre].
      unfold lastTurn. rewrite Hstarted, Hread, Hun. reflexivity.
    + intros (pre & st & rest & Hsteps & Hpre & Hst).
      destruct pre as [|s pre]; simpl in Hsteps; injection Hsteps as <- ->.
      * congruence.
      * apply Forall_cons in Hpre as [_ Hpre].
        exists pre, st, rest. repeat split; assumption.
Qed.

Lemma handleTCPConnection_lock_witness :
  let cfg := exampleConfig false false [goodUpstream "8.8.8.8:53"] None in
  let steps := [exampleTurn true ([1; 2; 3], None); exampleTurn false ([], None)] in
  result_of (@handleTCPConnection exampleWireLib cfg ProtoTCP None steps
               (startedProxy cfg)) = Ok (LoopStopped, 1%nat) /\
  1%nat = (if LoopStopped is LoopStopped then 1 else 0)%nat.
Proof.
  intros cfg steps. split; [reflexivity|].
  apply (handleTCPConnection_lock exampleWireLib cfg ProtoTCP None steps
           (startedProxy cfg) LoopStopped 1%nat).
  reflexivity.
Defined.

Lemma served_tcp (proto : string) (msg : dns.Msg) (addr : net.Addr) (e : Event) :
  proto = ProtoTCP \/ proto = ProtoTLS ->
  served (newContext proto msg addr) e -> tcpEvent e.
Proof.
  intros [-> | ->]; destruct e; simpl; auto; unfold writerOf; simpl; congruence.
Qed.

(** X27: on a TCP or TLS connection, with the default resolver, no request
    is put to the rate limiter, however many the connection carries, and
    every answer goes through the TCP writer. *)
Theorem handleTCPConnection_events (wire : WireLib) (cfg : Config)
    (proto : string) (remote : net.Addr) (steps : list ConnStep) (p : Proxy) :
  Handler cfg = None ->
  proto = ProtoTCP \/ proto = ProtoTLS ->
  Forall tcpEvent (trace_of (handleTCPConnection cfg proto remote steps p)).
Proof.
  intros Hhandler Hproto. revert p.
  change (trace_sat tcpEvent (handleTCPConnection cfg proto remote steps)).
  induction steps as [|step steps IH]; cbn [handleTCPConnection].
  - apply ts_ret.
  - destruct (negb (stepStarted step)); [apply ts_ret|].
    destruct (stepRead step) as [packet [e|]]; [apply ts_ret|].
    destruct (Unpack packet) as [msg [e|]]; [apply ts_ret|].
    apply ts_bind; [|intros _; exact IH].
    apply handleDNSRequest_events; [exact Hhandler | |].
    + destruct Hproto as [-> | ->]; discriminate.
    + intros e. apply served_tcp. exact Hproto.
Qed.

Lemma handleTCPConnection_events_witness :
  let cfg := exampleConfig false false [goodUpstream "8.8.8.8:53"] None in
  let steps := [exampleTurn true ([1; 2; 3], None); exampleTurn true ([1; 2; 3], None)] in
  Forall tcpEvent
    (trace_of (@handleTCPConnection exampleWireLib cfg ProtoTLS None steps
                 (startedProxy cfg))).
Proof.
  intros cfg steps.
  apply (handleTCPConnection_events exampleWireLib cfg ProtoTLS None steps
           (startedProxy cfg)).
  - reflexivity.
  - right. reflexivity.
Defined.

(** X28: [tcpPacketLoop] starts one handler for every connection it
    accepts, in the order of the accepts, and none for an accept that
    fails; it goes on after an error that is not the one of the closed
    listener, and returns at the first that is. *)
Theorem tcpPacketLoop_spawns (wire : WireLib) (Conn : Type)
    (pre : list (Conn + error_value)) :
  Forall (fun a => lastAccept a = false) pre ->
  tcpPacketLoop pre = (accepted pre, LoopPending) /\
  forall a rest,
    lastAccept a = true ->
    tcpPacketLoop (pre ++ a :: rest) = (accepted pre, LoopConnClosed).
Proof.
  induction 1 as [|a0 pre Ha0 Hpre [IH1 IH2]].
  - split; [reflexivity|]. intros [c|err] rest Hlast; [discriminate|].
    cbn [app tcpPacketLoop]. simpl in Hlast. rewrite Hlast. reflexivity.
  - change ((a0 :: pre) ++ ?l) with (a0 :: (pre ++ l)).
    destruct a0 as [c|err]; cbn [tcpPacketLoop].
    + split.
      * rewrite IH1. reflexivity.
      * intros a rest Hlast. rewrite (IH2 a rest Hlast). reflexivity.
    + simpl in Ha0. rewrite Ha0. split.
      * rewrite IH1. reflexivity.
      * intros a rest Hlast. rewrite (IH2 a rest Hlast). reflexivity.
Qed.

Lemma tcpPacketLoop_spawns_witness :
  @tcpPacketLoop exampleWireLib nat
    ([inl 1%nat; inr (errors_New "too many open files"); inl 2%nat]
     ++ inr closedError :: [inl 3%nat])
  = ([1%nat; 2%nat], LoopConnClosed).
Proof.
  apply (tcpPacketLoop_spawns exampleWireLib nat
           [inl 1%nat; inr (errors_New "too many open files"); inl 2%nat]).
  - repeat constructor.
  - reflexivity.
Defined.
